(** * Storm: a shallow embedding of the query engine, the string-array
    field, the transaction manager and the migration statement splitter.

    Go strings are byte sequences and are modelled as [string]; the
    migration splitter works on the decoded runes of its input and is
    modelled over code points.  Slices that the code compares with [nil]
    are modelled as options. *)

From Stdlib Require Import List Bool Arith ZArith NArith Lia.
From Stdlib Require Import Ascii String.
From Stdlib Require Decimal DecimalString.
Import ListNotations.

Set Warnings "-register-all".

Local Open Scope string_scope.
Local Open Scope list_scope.
Local Open Scope nat_scope.

(* ================================================================== *)
(** ** The functions of Go's [strings] and [fmt] packages that the code calls *)
(* ================================================================== *)

Module GoStrings.

(** [strings.HasPrefix(s, p)]. *)
Fixpoint HasPrefix (s p : string) {struct p} : bool :=
  match p with
  | EmptyString => true
  | String b p' =>
      match s with
      | EmptyString => false
      | String a s' => Ascii.eqb a b && HasPrefix s' p'
      end
  end.

(** [s[i:]]. *)
Fixpoint from (i : nat) (s : string) : string :=
  match i, s with
  | O, _ => s
  | S k, String _ s' => from k s'
  | S _, EmptyString => EmptyString
  end.

(** [strings.HasSuffix(s, p)]:
    [len(s) >= len(p) && s[len(s)-len(p):] == p]. *)
Definition HasSuffix (s p : string) : bool :=
  (String.length p <=? String.length s)
  && String.eqb (from (String.length s - String.length p) s) p.

(** [strings.Contains(s, sub)]. *)
Fixpoint Contains (s sub : string) : bool :=
  HasPrefix s sub ||
  match s with
  | EmptyString => false
  | String _ s' => Contains s' sub
  end.

(** [strings.Index(s, sub)]: the byte offset of the first occurrence, or
    [None] where Go returns -1. *)
Fixpoint Index (s sub : string) : option nat :=
  if HasPrefix s sub then Some 0
  else match s with
       | EmptyString => None
       | String _ s' => option_map S (Index s' sub)
       end.

(** The scan of [strings.Replace] for a non-empty [old]: [skip] counts the
    bytes of a matched occurrence that are still to be dropped, [n] is the
    number of replacements left (negative: no limit). *)
Fixpoint replaceFrom (old new : string) (s : string) (skip : nat) (n : Z)
  : string :=
  match s with
  | EmptyString => EmptyString
  | String a s' =>
      match skip with
      | S k => replaceFrom old new s' k n
      | O =>
          if negb (n =? 0)%Z && HasPrefix s old
          then (new ++ replaceFrom old new s' (String.length old - 1) (n - 1)%Z)%string
          else String a (replaceFrom old new s' 0 n)
      end
  end.

(** [strings.Replace(s, old, new, n)].  Every call site in the modelled
    code passes a non-empty [old]; for an empty [old] Go inserts [new]
    between the runes of [s], which is not modelled (the input is
    returned). *)
Definition Replace (s old new : string) (n : Z) : string :=
  match old with
  | EmptyString => s
  | _ => replaceFrom old new s 0 n
  end.

(** [strings.ReplaceAll(s, old, new)]. *)
Definition ReplaceAll (s old new : string) : string := Replace s old new (-1).

(** [strings.Join(parts, sep)]. *)
Fixpoint Join (parts : list string) (sep : string) : string :=
  match parts with
  | [] => EmptyString
  | [p] => p
  | p :: rest => (p ++ sep ++ Join rest sep)%string
  end.

(** The [%d] verb of [fmt.Sprintf]. *)
Definition itoa (n : Z) : string := DecimalString.NilZero.string_of_int (Z.to_int n).

(** The number of occurrences of the byte [c] in [s]. *)
Fixpoint count (c : ascii) (s : string) : nat :=
  match s with
  | EmptyString => 0
  | String a s' => (if Ascii.eqb a c then 1 else 0) + count c s'
  end.

End GoStrings.

(* ================================================================== *)
(** ** internal/storm/migrator.go: the statement splitter *)
(* ================================================================== *)

Module Migrator.

(** A rune is a Unicode code point; [[]rune(sql)] is the input of the loop. *)
Definition rune := N.
Definition runes := list rune.

(** The runes of an ASCII literal. *)
Definition lit (s : string) : runes :=
  map N_of_ascii (list_ascii_of_string s).

Definition r_dollar : rune := 36%N.
Definition r_semi : rune := 59%N.
Definition r_newline : rune := 10%N.
Definition r_dash : rune := 45%N.

(** [unicode.IsSpace]. *)
Definition isSpace (r : rune) : bool :=
  ((9 <=? r) && (r <=? 13) || (r =? 32) || (r =? 133) || (r =? 160)
   || (r =? 5760) || ((8192 <=? r) && (r <=? 8202))
   || (r =? 8232) || (r =? 8233) || (r =? 8239) || (r =? 8287)
   || (r =? 12288))%N.

Fixpoint trimLeft (s : runes) : runes :=
  match s with
  | c :: s' => if isSpace c then trimLeft s' else s
  | [] => []
  end.

(** [strings.TrimSpace]. *)
Definition TrimSpace (s : runes) : runes :=
  rev (trimLeft (rev (trimLeft s))).

(** [strings.Split(s, "\n")], with the line being read in [cur]. *)
Fixpoint splitLines (s cur : runes) : list runes :=
  match s with
  | [] => [cur]
  | c :: s' =>
      if (c =? r_newline)%N then cur :: splitLines s' []
      else splitLines s' (cur ++ [c])
  end.

(** [strings.HasPrefix(trimmed, "--")]. *)
Definition hasDashDash (s : runes) : bool :=
  match s with
  | a :: b :: _ => ((a =? r_dash) && (b =? r_dash))%N
  | _ => false
  end.

Definition isEmpty (s : runes) : bool :=
  match s with [] => true | _ => false end.

(** [isOnlyComments]: every line is blank or starts with [--]. *)
Definition isOnlyComments (stmt : runes) : bool :=
  forallb (fun line =>
             let trimmed := TrimSpace line in
             isEmpty trimmed || hasDashDash trimmed)
          (splitLines stmt []).

(** The statement a flush appends, if any. *)
Definition flush (current : runes) (statements : list runes) : list runes :=
  let stmt := TrimSpace current in
  if negb (isEmpty stmt) && negb (isOnlyComments stmt)
  then statements ++ [stmt]
  else statements.

(** The loop of [splitSQLStatements] from position [i]: [rs] is
    [runes[i:]]. *)
Fixpoint splitLoop (rs : runes) (inDollarQuote : bool) (current : runes)
  (statements : list runes) : list runes :=
  match rs with
  | [] =>
      if negb (isEmpty current) then flush current statements else statements
  | char :: rest =>
      let other :=
        if negb inDollarQuote && (char =? r_semi)%N
        then splitLoop rest inDollarQuote [] (flush (current ++ [char]) statements)
        else splitLoop rest inDollarQuote (current ++ [char]) statements in
      if (char =? r_dollar)%N then
        match rest with
        | next :: rest' =>
            if (next =? r_dollar)%N
            then splitLoop rest' (negb inDollarQuote)
                   (current ++ [char; next]) statements
            else other
        | [] => other
        end
      else other
  end.

Definition splitSQLStatements (sql : runes) : list runes :=
  splitLoop sql false [] [].

(** No rune of [s] is [r]. *)
Definition noRune (r : rune) (s : runes) : Prop :=
  forall x, In x s -> x <> r.

End Migrator.

(* ================================================================== *)
(** ** pkg/storm-orm: the string-array field ([StringArray]) *)
(* ================================================================== *)

Module PqArrays.
Import GoStrings.

(** [type StringArray []string]: [None] is the nil slice, [Some []] the
    empty non-nil slice [StringArray{}]. *)
Definition StringArray := option (list string).

(** [append(result, x)] on a slice that may be nil. *)
Definition append1 (result : option (list string)) (x : string)
  : option (list string) :=
  match result with
  | None => Some [x]
  | Some l => Some (l ++ [x])
  end.

(** [len(result)]. *)
Definition len (result : option (list string)) : nat :=
  match result with
  | None => 0
  | Some l => List.length l
  end.

Definition quote : ascii := "034"%char.
Definition comma : ascii := ","%char.

(** The element written by the loop of [Value]. *)
Definition escapeElem (s : string) : string :=
  (String quote (ReplaceAll s (String quote EmptyString)
                               (String quote (String quote EmptyString)))
   ++ String quote EmptyString)%string.

(** [StringArray.Value]: [None] is the nil [driver.Value]; the error
    result is always nil. *)
Definition Value (sa : StringArray) : option string :=
  match sa with
  | None => None
  | Some [] => Some "{}"
  | Some l => Some ("{" ++ Join (map escapeElem l) "," ++ "}")%string
  end.

(** The loop of [parseArray] from position [i]: [content] is [content[i:]],
    [current] the builder. *)
Fixpoint parseLoop (content : string) (inQuotes : bool) (current : string)
  (result : option (list string)) : option (list string) :=
  match content with
  | EmptyString =>
      if negb (Nat.eqb (String.length current) 0) || negb (Nat.eqb (len result) 0)
      then append1 result current
      else result
  | String char rest =>
      if Ascii.eqb char quote then
        if inQuotes then
          match rest with
          | String next rest' =>
              if Ascii.eqb next quote
              then parseLoop rest' inQuotes (current ++ String quote EmptyString)%string result
              else parseLoop rest false current result
          | EmptyString => parseLoop rest false current result
          end
        else parseLoop rest true current result
      else if Ascii.eqb char comma then
        if negb inQuotes
        then parseLoop rest inQuotes EmptyString (append1 result current)
        else parseLoop rest inQuotes (current ++ String char EmptyString)%string result
      else parseLoop rest inQuotes (current ++ String char EmptyString)%string result
  end.

(** [s[1 : len(s)-1]]. *)
Definition inner (s : string) : string :=
  substring 1 (String.length s - 2) s.

Inductive error := InvalidArrayFormat (s : string) | CannotScan.

(** [parseArray]: the new value of the receiver, or the error (the
    receiver is then left as it was). *)
Definition parseArray (s : string) : StringArray + error :=
  if String.eqb s EmptyString || String.eqb s "{}" then inl (Some [])
  else if negb (HasPrefix s "{") || negb (HasSuffix s "}")
  then inr (InvalidArrayFormat s)
  else
    let content := inner s in
    if String.eqb content EmptyString then inl (Some [])
    else inl (parseLoop content false EmptyString None).

(** The dynamic type of the argument of [Scan]. *)
Inductive scanned :=
| ScanNil
| ScanBytes (v : string)
| ScanString (v : string)
| ScanOther.

(** [StringArray.Scan]. *)
Definition Scan (value : scanned) : StringArray + error :=
  match value with
  | ScanNil => inl None
  | ScanBytes v => parseArray v
  | ScanString v => parseArray v
  | ScanOther => inr CannotScan
  end.

(** A [driver.Value] produced by [Value] handed back to [Scan]. *)
Definition asScanned (v : option string) : scanned :=
  match v with
  | None => ScanNil
  | Some s => ScanString s
  end.

Definition roundTrip (sa : StringArray) : StringArray + error :=
  Scan (asScanned (Value sa)).

(** What [ReplaceAll] does to the quotes of an element: each is doubled. *)
Fixpoint doubled (s : string) : string :=
  match s with
  | EmptyString => EmptyString
  | String a s' =>
      if Ascii.eqb a quote then String quote (String quote (doubled s'))
      else String a (doubled s')
  end.

(** What may follow an element in the literal: nothing or a comma. *)
Definition afterElem (tail : string) : Prop :=
  match tail with
  | EmptyString => True
  | String c _ => c <> quote
  end.

(** The elements of a slice that may be nil. *)
Definition toList (res : option (list string)) : list string :=
  match res with
  | None => []
  | Some l => l
  end.

End PqArrays.

(* ================================================================== *)
(** ** Values, conditions and actions *)
(* ================================================================== *)

Module Values.

(** An [interface{}] value as [Query.Update] inspects it: nil, a value that
    is not a [[]interface{}], or a [[]interface{}]. *)
Inductive value :=
| VNil
| VString (s : string)
| VInt (n : Z)
| VBool (b : bool)
| VSlice (l : list value).

Definition isNil (v : value) : bool :=
  match v with VNil => true | _ => false end.

(** The type assertion [value.([]interface{})]. *)
Definition asSlice (v : value) : option (list value) :=
  match v with VSlice l => Some l | _ => None end.

(** The three methods of the [Action] interface. *)
Record Action := {
  Column : string;
  Expression : string;
  Value : value
}.

End Values.

(* ================================================================== *)
(** ** The calls into the squirrel query builder made by [Query.Update] *)
(* ================================================================== *)

Module Squirrel.
Import GoStrings Values.

(** A [squirrel.Sqlizer] as the WHERE clause holds it: a leaf whose
    [ToSql] returns a fragment with [?] placeholders and its arguments (a
    comparison, [squirrel.Expr]), a leaf whose [ToSql] fails, or a
    conjunction or disjunction of such. *)
Inductive Sqlizer :=
| Leaf (sql : string) (args : list value)
| Failing (msg : string)
| And (parts : list Sqlizer)
| Or (parts : list Sqlizer).

Definition ToSqlResult := (string * list value + string)%type.

(** The end of [conj.join]: the non-empty parts joined by [sep] inside one
    pair of parentheses. *)
Definition wrap (sep : string) (r : (list string * list value) + string)
  : ToSqlResult :=
  match r with
  | inr e => inr e
  | inl ([], args) => inl (EmptyString, args)
  | inl (sqls, args) => inl (("(" ++ Join sqls sep ++ ")")%string, args)
  end.

(** [ToSql] of a leaf, and [conj.join] for [And] (default [(1=1)]) and [Or]
    (default [(1=0)]): parts that render to the empty string are left
    out, the first failing part fails the whole. *)
Fixpoint ToSql (s : Sqlizer) : ToSqlResult :=
  match s with
  | Leaf sql args => inl (sql, args)
  | Failing msg => inr msg
  | And parts =>
      match parts with
      | [] => inl ("(1=1)", [])
      | _ => wrap " AND "
               ((fix go (ps : list Sqlizer) (sqls : list string)
                     (args : list value) {struct ps} :=
                   match ps with
                   | [] => inl (sqls, args)
                   | p :: rest =>
                       match ToSql p with
                       | inr e => inr e
                       | inl (partSQL, partArgs) =>
                           if String.eqb partSQL EmptyString
                           then go rest sqls args
                           else go rest (sqls ++ [partSQL]) (args ++ partArgs)
                       end
                   end) parts [] [])
      end
  | Or parts =>
      match parts with
      | [] => inl ("(1=0)", [])
      | _ => wrap " OR "
               ((fix go (ps : list Sqlizer) (sqls : list string)
                     (args : list value) {struct ps} :=
                   match ps with
                   | [] => inl (sqls, args)
                   | p :: rest =>
                       match ToSql p with
                       | inr e => inr e
                       | inl (partSQL, partArgs) =>
                           if String.eqb partSQL EmptyString
                           then go rest sqls args
                           else go rest (sqls ++ [partSQL]) (args ++ partArgs)
                       end
                   end) parts [] [])
      end
  end.

(** [squirrel.Dollar.ReplacePlaceholders]: the [i]-th [?] becomes [$i];
    a doubled [??] is an escaped question mark. *)
Fixpoint dollarFrom (sql : string) (skip : bool) (i : Z) : string :=
  match sql with
  | EmptyString => EmptyString
  | String a rest =>
      if skip then dollarFrom rest false i
      else if Ascii.eqb a "?"%char then
        match rest with
        | String b _ =>
            if Ascii.eqb b "?"%char
            then String "?"%char (dollarFrom rest true i)
            else ("$" ++ itoa (i + 1) ++ dollarFrom rest false (i + 1))%string
        | EmptyString => ("$" ++ itoa (i + 1))%string
        end
      else String a (dollarFrom rest false i)
  end.

Definition Dollar (sql : string) : string := dollarFrom sql false 0.

(** [squirrel.Select("1").Where(conds).PlaceholderFormat(squirrel.Dollar).ToSql()]
    for the conjunction [conds] of the accumulated conditions. *)
Definition selectOneWhere (conds : list Sqlizer) : ToSqlResult :=
  match ToSql (And conds) with
  | inr e => inr e
  | inl (cond, args) => inl (Dollar ("SELECT 1 WHERE " ++ cond)%string, args)
  end.

End Squirrel.

(* ================================================================== *)
(** ** [Query.Update]: the rendering of the statement *)
(* ================================================================== *)

Module QueryUpdate.
Import GoStrings Values Squirrel.

(** [fmt.Sprintf("$%d", n)].  [argIndex] is a Go [int] that counts the
    arguments bound so far; it is modelled as an integer without
    wrap-around. *)
Definition placeholder (n : Z) : string := ("$" ++ itoa n)%string.

(** The branch for a [[]interface{}] value: one replacement of the first
    [?] and one argument per element. *)
Fixpoint bindSlice (expression : string) (valueSlice : list value)
  (args : list value) (argIndex : Z) : string * list value * Z :=
  match valueSlice with
  | [] => (expression, args, argIndex)
  | v :: rest =>
      bindSlice (Replace expression "?" (placeholder argIndex) 1) rest
                (args ++ [v]) (argIndex + 1)
  end.

(** The branch for any other non-nil value: the loop
    [for strings.Contains(expression, "?")].  [fuel] bounds the number of
    iterations; [None] means the bound was reached. *)
Fixpoint bindScalarLoop (fuel : nat) (expression : string) (v : value)
  (args : list value) (argIndex : Z) : option (string * list value * Z) :=
  if Contains expression "?" then
    match fuel with
    | O => None
    | S fuel' =>
        bindScalarLoop fuel' (Replace expression "?" (placeholder argIndex) 1) v
                       (args ++ [v]) (argIndex + 1)
    end
  else Some (expression, args, argIndex).

Definition bindScalar (expression : string) (v : value)
  (args : list value) (argIndex : Z) : option (string * list value * Z) :=
  bindScalarLoop (String.length expression) expression v args argIndex.

(** The body of the loop over the actions, for one action. *)
Definition bindAction (action : Action) (args : list value) (argIndex : Z)
  : option (string * list value * Z) :=
  let expression := Expression action in
  let v := Value action in
  if negb (isNil v) then
    match asSlice v with
    | Some valueSlice => Some (bindSlice expression valueSlice args argIndex)
    | None => bindScalar expression v args argIndex
    end
  else Some (expression, args, argIndex).

(** The loop over the actions. *)
Fixpoint bindActions (actions : list Action) (setParts : list string)
  (args : list value) (argIndex : Z)
  : option (list string * list value * Z) :=
  match actions with
  | [] => Some (setParts, args, argIndex)
  | action :: rest =>
      match bindAction action args argIndex with
      | None => None
      | Some (expression, args', argIndex') =>
          bindActions rest (setParts ++ [expression]) args' argIndex'
      end
  end.

(** The loop [for i := range whereArgs] that renumbers the placeholders of
    the WHERE clause. *)
Fixpoint renumber (whereClause : string) (argIndex : Z) (i : Z) (n : nat)
  : string :=
  match n with
  | O => whereClause
  | S n' =>
      renumber (Replace whereClause (placeholder (i + 1))
                        (placeholder (argIndex + i)) (-1))
               argIndex (i + 1) n'
  end.

Inductive updateError :=
| NoActions
| WhereBuild (msg : string).

(** What [Update] hands to the driver. *)
Record rendered := {
  baseSQL : string;
  boundArgs : list value
}.

(** [Query.Update] up to the call of the middleware pipeline: [conds] is
    [q.whereClause], [whereToSql] the result of [whereBuilder.ToSql()].
    The outer [option] is [None] only if an action loop ran out of fuel. *)
Definition renderWith (tableName : string) (conds : list Sqlizer)
  (whereToSql : ToSqlResult) (actions : list Action)
  : option (rendered + updateError) :=
  match actions with
  | [] => Some (inr NoActions)
  | _ =>
      match bindActions actions [] [] 1 with
      | None => None
      | Some (setParts, args, argIndex) =>
          let base := ("UPDATE " ++ tableName ++ " SET " ++ Join setParts ", ")%string in
          match conds with
          | [] => Some (inl {| baseSQL := base; boundArgs := args |})
          | _ =>
              match whereToSql with
              | inr e => Some (inr (WhereBuild e))
              | inl (dummySQL, whereArgs) =>
                  match Index dummySQL "WHERE" with
                  | None => Some (inl {| baseSQL := base; boundArgs := args |})
                  | Some whereStart =>
                      let whereClause :=
                        renumber (from whereStart dummySQL) argIndex 0
                                 (List.length whereArgs) in
                      Some (inl {| baseSQL := (base ++ " " ++ whereClause)%string;
                                   boundArgs := args ++ whereArgs |})
                  end
              end
          end
      end
  end.

Definition render (tableName : string) (conds : list Sqlizer)
  (actions : list Action) : option (rendered + updateError) :=
  renderWith tableName conds (selectOneWhere conds) actions.

(** What [Update] is meant to bind: the [?]s of [expression] numbered
    consecutively from [n] in one pass. *)
Fixpoint numbered (expression : string) (n : Z) : string :=
  match expression with
  | EmptyString => EmptyString
  | String a rest =>
      if Ascii.eqb a "?"%char
      then (placeholder n ++ numbered rest (n + 1))%string
      else String a (numbered rest n)
  end.

Definition qmark : ascii := "?"%char.

(** Actions as the column types build them. *)
Definition setPath : Action :=
  {| Column := "users.meta"; Expression := "meta = f(meta, ?, ?)";
     Value := VString "p" |}.

Definition setName : Action :=
  {| Column := "users.name"; Expression := "name = ?"; Value := VString "X" |}.

Definition incLogin : Action :=
  {| Column := "users.login_count";
     Expression := "login_count = login_count + ?"; Value := VInt 1 |}.

End QueryUpdate.

(* ================================================================== *)
(** ** The repository and its authorization list *)
(* ================================================================== *)

Module Repo.

Definition addr := nat.

(** A Go pointer: [None] is nil. *)
Definition ptr := option addr.

(** A slice header: backing array, length and capacity. *)
Record slice := {
  sptr : addr;
  slen : nat;
  scap : nat
}.

(** The fields of [ModelMetadata] that the modelled code reads. *)
Record ModelMetadata := {
  TableName : string;
  PrimaryKeys : list string
}.

(** [type Repository[T any] struct]. *)
Record Repository := {
  db : ptr;
  metadata : ptr;
  middlewareManager : ptr;
  authorizeFuncs : slice
}.

Section Heap.

(** The values of type [AuthorizeFunc[T]] and [QueryMiddleware]. *)
Variable F : Type.
Variable M : Type.

(** The store: the backing arrays of the authorization slices (an element
    is [None] for a nil function), the middleware managers (their ordered
    list), the metadata objects and the repositories, each by address. *)
Record heap := {
  arrays : list (list (option F));
  managers : list (list M);
  metas : list ModelMetadata;
  repos : list Repository
}.

Definition emptyHeap : heap :=
  {| arrays := []; managers := []; metas := []; repos := [] |}.

(** The elements [s[0], ..., s[len(s)-1]] of a slice. *)
Definition elems (h : heap) (s : slice) : list (option F) :=
  firstn (slen s) (nth (sptr s) (arrays h) []).

(** Replace the element at index [i] of a list. *)
Fixpoint setNth {A : Type} (l : list A) (i : nat) (x : A) : list A :=
  match l, i with
  | [], _ => []
  | _ :: l', O => x :: l'
  | a :: l', S i' => a :: setNth l' i' x
  end.

(** [make([]AuthorizeFunc[T], n)]: a new backing array of [n] nil
    functions. *)
Definition make (h : heap) (n : nat) : slice * heap :=
  ({| sptr := List.length (arrays h); slen := n; scap := n |},
   {| arrays := arrays h ++ [repeat None n];
      managers := managers h; metas := metas h; repos := repos h |}).

(** [s[i] = x]; [None] is the run-time panic for an index out of range. *)
Definition store (h : heap) (s : slice) (i : nat) (x : option F)
  : option heap :=
  if i <? slen s then
    Some {| arrays := setNth (arrays h) (sptr s)
                        (setNth (nth (sptr s) (arrays h) []) i x);
            managers := managers h; metas := metas h; repos := repos h |}
  else None.

(** [copy(dst, src)]: the first [min(len(dst), len(src))] elements. *)
Definition copy (h : heap) (dst src : slice) : heap :=
  let n := Nat.min (slen dst) (slen src) in
  let target := nth (sptr dst) (arrays h) [] in
  {| arrays := setNth (arrays h) (sptr dst)
                 (firstn n (elems h src) ++ skipn n target);
     managers := managers h; metas := metas h; repos := repos h |}.

(** [&Repository[T]{...}]. *)
Definition newRepo (h : heap) (r : Repository) : addr * heap :=
  (List.length (repos h),
   {| arrays := arrays h; managers := managers h; metas := metas h;
      repos := repos h ++ [r] |}).

(** Modelled from the spec: [newMiddlewareManager], whose body is not in
    the sources, returns a manager with an empty ordered list. *)
Definition newMiddlewareManager (h : heap) : addr * heap :=
  (List.length (managers h),
   {| arrays := arrays h; managers := managers h ++ [[]]; metas := metas h;
      repos := repos h |}).

Inductive initError :=
| DatabaseNil
| MetadataNil
| NoPrimaryKey.

(** [NewRepositoryWithExecutor] followed by [initialize]. *)
Definition NewRepositoryWithExecutor (h : heap) (executor metadata : ptr)
  : (addr * heap) + initError :=
  match executor with
  | None => inr DatabaseNil
  | Some _ =>
      match metadata with
      | None => inr MetadataNil
      | Some m =>
          let '(funcs, h1) := make h 0 in
          match nth_error (metas h) m with
          | None => inr MetadataNil
          | Some md =>
              if Nat.eqb (List.length (PrimaryKeys md)) 0 then inr NoPrimaryKey
              else
                let '(mm, h2) := newMiddlewareManager h1 in
                inl (newRepo h2 {| db := executor; metadata := metadata;
                                   middlewareManager := Some mm;
                                   authorizeFuncs := funcs |})
          end
      end
  end.

(** [Repository.Authorize]: [None] is a run-time panic (a nil or dangling
    receiver). *)
Definition Authorize (h : heap) (r : addr) (fn : option F)
  : option (addr * heap) :=
  match nth_error (repos h) r with
  | None => None
  | Some rv =>
      let old := authorizeFuncs rv in
      let '(newFuncs, h1) := make h (slen old + 1) in
      let h2 := copy h1 newFuncs old in
      match store h2 newFuncs (slen old) fn with
      | None => None
      | Some h3 =>
          Some (newRepo h3 {| db := db rv;
                              metadata := metadata rv;
                              middlewareManager := middlewareManager rv;
                              authorizeFuncs := newFuncs |})
      end
  end.

(** The authorization list of the repository at [r]. *)
Definition authList (h : heap) (r : addr) : option (list (option F)) :=
  option_map (fun rv => elems h (authorizeFuncs rv)) (nth_error (repos h) r).

(** Modelled from the spec: [AddMiddleware], whose body is not in the
    sources, appends to the ordered list of the repository's middleware
    manager.  [None] is a nil or dangling pointer. *)
Definition AddMiddleware (h : heap) (r : addr) (m : M) : option heap :=
  match nth_error (repos h) r with
  | None => None
  | Some rv =>
      match middlewareManager rv with
      | None => None
      | Some mm =>
          match nth_error (managers h) mm with
          | None => None
          | Some l =>
              Some {| arrays := arrays h;
                      managers := setNth (managers h) mm (l ++ [m]);
                      metas := metas h; repos := repos h |}
          end
      end
  end.

(** The middleware list that an operation of the repository at [r] runs
    through: the list of its manager at the time of the call. *)
Definition pipelineOf (h : heap) (r : addr) : option (list M) :=
  match nth_error (repos h) r with
  | None => None
  | Some rv =>
      match middlewareManager rv with
      | None => None
      | Some mm => nth_error (managers h) mm
      end
  end.

(** Every repository's slice lies inside its backing array. *)
Definition validSlice (h : heap) (s : slice) : Prop :=
  sptr s < List.length (arrays h) /\
  slen s <= List.length (nth (sptr s) (arrays h) []).

Definition wf (h : heap) : Prop :=
  forall p pv, nth_error (repos h) p = Some pv ->
               validSlice h (authorizeFuncs pv).

End Heap.

Arguments emptyHeap {F M}.
Arguments elems {F M} _ _.
Arguments make {F M} _ _.
Arguments store {F M} _ _ _ _.
Arguments copy {F M} _ _ _.
Arguments newRepo {F M} _ _.
Arguments newMiddlewareManager {F M} _.
Arguments NewRepositoryWithExecutor {F M} _ _ _.
Arguments Authorize {F M} _ _ _.
Arguments authList {F M} _ _.
Arguments AddMiddleware {F M} _ _ _.
Arguments pipelineOf {F M} _ _.
Arguments validSlice {F M} _ _.
Arguments wf {F M} _.
Arguments arrays {F M} _.
Arguments managers {F M} _.
Arguments metas {F M} _.
Arguments repos {F M} _.

(** A store with one repository made by [NewRepositoryWithExecutor]. *)
Definition usersMeta : ModelMetadata :=
  {| TableName := "users"; PrimaryKeys := ["id"] |}.

Definition freshHeap : heap nat nat :=
  {| arrays := []; managers := []; metas := [usersMeta]; repos := [] |}.

Definition baseRepo : Repository :=
  {| db := Some 0; metadata := Some 0; middlewareManager := Some 0;
     authorizeFuncs := {| sptr := 0; slen := 0; scap := 0 |} |}.

Definition baseHeap : heap nat nat :=
  {| arrays := [[]]; managers := [[]]; metas := [usersMeta];
     repos := [baseRepo] |}.

(** Two chains from the same base, and a third step on the first chain:
    the lists of the base and of the three repositories at the end. *)
Definition twoChains
  : option (list (option (list (option nat)))) :=
  match Authorize baseHeap 0 (Some 1) with
  | None => None
  | Some (r1, h1) =>
      match Authorize h1 0 (Some 2) with
      | None => None
      | Some (r2, h2) =>
          match Authorize h2 r1 (Some 3) with
          | None => None
          | Some (r3, h3) =>
              Some [authList h3 0; authList h3 r1; authList h3 r2;
                    authList h3 r3]
          end
      end
  end.

End Repo.

(* ================================================================== *)
(** ** pkg/storm-orm/storm.go: the transaction manager *)
(* ================================================================== *)

Module Tx.

(** An [error] value: one made by [fmt.Errorf] (with the error it wraps
    through [%w], if any), or any other error, identified by a number. *)
Inductive error :=
| Errorf (msg : string) (wrapped : option error)
| Other (id : nat).

(** The dynamic type of a [DBExecutor]. *)
Inductive DBExecutor :=
| SqlxDB (h : nat)
| SqlxTx (h : nat)
| Logging (inner : DBExecutor) (logger : nat).

(** [type Storm struct]; [logger] is [None] for a nil interface. *)
Record Storm := {
  db : DBExecutor;
  executor : DBExecutor;
  logger : option nat
}.

(** [newStormWithExecutor]. *)
Definition newStormWithExecutor (dbh : nat) (e : DBExecutor)
  (lg : option nat) : Storm :=
  {| db := SqlxDB dbh;
     executor := match lg with
             | Some l => Logging e l
             | None => e
             end;
     logger := lg |}.

(** [isInTransaction]. *)
Definition isInTransaction (s : Storm) : bool :=
  match executor s with
  | SqlxTx _ => true
  | Logging (SqlxTx _) _ => true
  | _ => false
  end.

(** [type TransactionOptions struct] and [sql.TxOptions]. *)
Record TransactionOptions := {
  Isolation : Z;
  ReadOnly : bool
}.

(** [ToTxOptions], on a receiver that may be nil. *)
Definition ToTxOptions (o : option TransactionOptions)
  : option TransactionOptions :=
  match o with
  | None => None
  | Some o' => Some {| Isolation := Isolation o'; ReadOnly := ReadOnly o' |}
  end.

(** How a call ends: it returns an error value (nil is [None]) or it
    panics. *)
Inductive completion :=
| Returned (err : option error)
| Panicked (v : nat).

Section Driver.

(** What the callback does on the database. *)
Variable U : Type.

(** The calls that the transaction manager makes on the driver, and the
    calls of the callback between them. *)
Inductive event :=
| EvBegin (dbh : nat) (opts : option TransactionOptions)
| EvCallback (u : U)
| EvCommit (tx : nat)
| EvRollback (tx : nat).

(** The driver: the result of each call may depend on the calls made
    before it. *)
Record driver := {
  BeginTxx : nat -> option TransactionOptions -> list event -> nat + error;
  Commit : nat -> list event -> option error;
  Rollback : nat -> list event -> option error
}.

(** A callback [fn], a function from a [Storm] pointer to an error: how it
    ends and what it did. *)
Definition callback := Storm -> list event -> completion * list U.

(** The deferred function: a rollback unless [committed]; the error of
    the rollback is dropped. *)
Definition deferred (committed : bool) (tx : nat) : list event :=
  if committed then [] else [EvRollback tx].

(** The common body of [WithTransaction] ([opts] is nil) and
    [WithTransactionOptions] ([opts] is [opts.ToTxOptions()]): how the call
    ends and the calls it made, in order, given the calls [past] made
    before. *)
Definition withTx (d : driver) (s : Storm) (txOpts : option TransactionOptions)
  (fn : callback) (past : list event) : completion * list event :=
  if isInTransaction s then
    let '(c, us) := fn s past in (c, map EvCallback us)
  else
    match db s with
    | SqlxDB dbh =>
        match BeginTxx d dbh txOpts past with
        | inr err =>
            (Returned (Some (Errorf "failed to begin transaction: %w" (Some err))),
             [EvBegin dbh txOpts])
        | inl tx =>
            let began := [EvBegin dbh txOpts] in
            let txStorm := newStormWithExecutor dbh (SqlxTx tx) (logger s) in
            let '(c, us) := fn txStorm (past ++ began) in
            let ran := began ++ map EvCallback us in
            match c with
            | Panicked v => (Panicked v, ran ++ deferred false tx)
            | Returned (Some err) =>
                (Returned (Some err), ran ++ deferred false tx)
            | Returned None =>
                match Commit d tx (past ++ ran) with
                | Some err =>
                    (Returned (Some (Errorf "failed to commit transaction: %w"
                                            (Some err))),
                     ran ++ [EvCommit tx] ++ deferred false tx)
                | None => (Returned None, ran ++ [EvCommit tx] ++ deferred true tx)
                end
            end
        end
    | _ =>
        (Returned (Some (Errorf
           "cannot start transaction: executor is not a database connection"
           None)), [])
    end.

Definition WithTransaction (d : driver) (s : Storm) (fn : callback)
  (past : list event) : completion * list event :=
  withTx d s None fn past.

Definition WithTransactionOptions (d : driver) (s : Storm)
  (opts : option TransactionOptions) (fn : callback) (past : list event)
  : completion * list event :=
  withTx d s (ToTxOptions opts) fn past.

(** The two entry points: [None] is [WithTransaction], [Some opts] is
    [WithTransactionOptions] with the options pointer [opts]. *)
Definition entry (d : driver) (s : Storm)
  (which : option (option TransactionOptions)) (fn : callback)
  (past : list event) : completion * list event :=
  match which with
  | None => WithTransaction d s fn past
  | Some opts => WithTransactionOptions d s opts fn past
  end.

Definition optionsOf (which : option (option TransactionOptions))
  : option TransactionOptions :=
  match which with
  | None => None
  | Some opts => ToTxOptions opts
  end.

(** A call began a new transaction [tx]. *)
Definition begins (d : driver) (s : Storm) (txOpts : option TransactionOptions)
  (past : list event) (dbh tx : nat) : Prop :=
  isInTransaction s = false /\ db s = SqlxDB dbh /\
  BeginTxx d dbh txOpts past = inl tx.

(** The transaction manager itself committed [tx]. *)
Definition commits (tx : nat) (evs : list event) : Prop :=
  In (EvCommit tx) evs.

Definition rollsBack (tx : nat) (evs : list event) : Prop :=
  In (EvRollback tx) evs.

End Driver.

Arguments EvBegin {U} _ _.
Arguments EvCallback {U} _.
Arguments EvCommit {U} _.
Arguments EvRollback {U} _.

(** A driver whose calls succeed and a callback that fails. *)
Definition okDriver : driver unit :=
  {| BeginTxx := fun _ _ _ => inl 1;
     Commit := fun _ _ => None;
     Rollback := fun _ _ => None |}.

Definition poolStorm : Storm :=
  {| db := SqlxDB 0; executor := SqlxDB 0; logger := None |}.

Definition failing : callback unit :=
  fun _ _ => (Returned (Some (Other 3)), [tt]).

End Tx.

(* ================================================================== *)
(** ** The query builder and its terminal operations *)
(* ================================================================== *)

Module Query.
Import GoStrings Values Squirrel.

(** The join kinds of the [switch] in [Find], [Count] and [buildQuery];
    any other value of [JoinType] matches no case. *)
Inductive JoinType :=
| InnerJoin
| LeftJoin
| RightJoin
| FullJoin
| OtherJoin.

Record join := {
  Type_ : JoinType;
  Table : string;
  Condition : string
}.

Record include := {
  name : string;
  conditions : list Sqlizer
}.

(** A [squirrel.SelectBuilder] by the clauses added to it. *)
Record SelectBuilder := {
  sbColumns : list string;
  sbFrom : string;
  sbJoins : list string;
  sbWhere : list Sqlizer;
  sbOrderBy : list string;
  sbLimit : option N;
  sbOffset : option N
}.

(** A [squirrel.DeleteBuilder]. *)
Record DeleteBuilder := {
  dbFrom : string;
  dbWhere : list Sqlizer
}.

(** The dynamic type of [MiddlewareContext.QueryBuilder]. *)
Inductive builderValue :=
| BSelect (b : SelectBuilder)
| BDelete (b : DeleteBuilder)
| BString (sql : string)
| BOther (tag : nat).

(** Modelled from the spec: the operation kinds
    [Query | Create | Update | UpdateMany | Delete], whose declaration is not
    in the sources. *)
Inductive OperationType :=
| OpQuery
| OpCreate
| OpUpdate
| OpUpdateMany
| OpDelete.

(** The errors of the package. *)
Inductive gerr :=
| OrmError (Op Tbl : string) (Err : gerr)
| Errorf (msg : string) (wrapped : option gerr)
| ErrNotFound
| DriverError (id : nat)
| PostgreSQLError (err : gerr) (op tbl : string)
| SqlizerError (msg : string)
| MiddlewareError (id : nat).

(** How a call ends: no error, an error, or a run-time panic. *)
Inductive completion :=
| Nil
| Err (e : gerr)
| Panic.

(** The third argument of [executeQueryMiddleware]. *)
Inductive modelArg :=
| NoModel
| ModelActions (actions : list Action)
| ModelRecord (i : nat).

(** Modelled from the spec: [MiddlewareContext], whose declaration is not
    in the sources, with the fields the tests and [Update] use:
    [{ operation, table, query-builder, query-string?, args?, metadata,
    ctx }].  [Context] identifies the [context.Context]. *)
Record MiddlewareContext := {
  Operation : OperationType;
  TableName : string;
  QueryBuilder : builderValue;
  QueryText : string;
  Args : list value;
  Metadata : list (string * value);
  Context : nat;
  Model : modelArg
}.

(** What is handed to the driver: the builder that [ToSql] renders, or a
    statement text with its arguments. *)
Inductive statement :=
| StSelect (b : SelectBuilder)
| StDelete (b : DeleteBuilder)
| StRaw (sql : string) (args : list value).

(** [q.tx] if it is not nil, [q.repo.db] otherwise. *)
Inductive executor :=
| OnTx (tx : nat)
| OnDb.

Inductive event :=
| EvPipeline (mc : MiddlewareContext)
| EvSelect (ex : executor) (st : statement)
| EvGet (ex : executor) (st : statement)
| EvExec (ex : executor) (st : statement).

Definition isDriverCall (e : event) : bool :=
  match e with
  | EvPipeline _ => false
  | _ => true
  end.

(** [b.InnerJoin(s)], [b.LeftJoin(s)], [b.RightJoin(s)] and [b.Join(s)] of
    squirrel prefix the clause with the join keyword. *)
Definition joinClause (j : join) : option string :=
  let on := (Table j ++ " ON " ++ Condition j)%string in
  match Type_ j with
  | InnerJoin => Some ("INNER JOIN " ++ on)%string
  | LeftJoin => Some ("LEFT JOIN " ++ on)%string
  | RightJoin => Some ("RIGHT JOIN " ++ on)%string
  | FullJoin => Some ("JOIN FULL OUTER JOIN " ++ on)%string
  | OtherJoin => None
  end.

(** The loop [for _, join := range q.joins]. *)
Fixpoint joinClauses (joins : list join) : list string :=
  match joins with
  | [] => []
  | j :: rest =>
      match joinClause j with
      | Some c => c :: joinClauses rest
      | None => joinClauses rest
      end
  end.

(** [ToSql] of a builder fails if one of its WHERE parts does. *)
Fixpoint firstError (parts : list Sqlizer) : option gerr :=
  match parts with
  | [] => None
  | p :: rest =>
      match ToSql p with
      | inr msg => Some (SqlizerError msg)
      | inl _ => firstError rest
      end
  end.

(** [ToSql] of a [squirrel.SelectBuilder]: it fails for a builder without
    a result column, before it renders the WHERE parts. *)
Definition selectToSql (b : SelectBuilder) : option gerr :=
  match sbColumns b with
  | [] =>
      Some (SqlizerError "select statements must have at least one result column")
  | _ :: _ => firstError (sbWhere b)
  end.

(** [ToSql] of a [squirrel.DeleteBuilder]: it fails for a builder without
    a table, before it renders the WHERE parts. *)
Definition deleteToSql (b : DeleteBuilder) : option gerr :=
  match dbFrom b with
  | EmptyString =>
      Some (SqlizerError "delete statements must specify a From table")
  | String _ _ => firstError (dbWhere b)
  end.

Section Engine.

(** The record type [T] and the state of the database. *)
Variable T : Type.
Variable DB : Type.

(** The driver behind [q.tx] and [q.repo.db]. *)
Record driver := {
  SelectContext : executor -> statement -> DB -> list T + nat;
  GetContext : executor -> statement -> DB -> Z + nat;
  ExecContext : executor -> statement -> DB -> DB * ((Z + nat) + nat)
}.

(** The variables that the closure passed to the pipeline assigns. *)
Record frame := {
  records : list T;
  count : Z;
  rowsAffected : Z
}.

Record store := {
  database : DB;
  locals : frame
}.

Definition zeroFrame : frame :=
  {| records := []; count := 0%Z; rowsAffected := 0%Z |}.

Definition withRecords (st : store) (rows : list T) : store :=
  {| database := database st;
     locals := {| records := rows; count := count (locals st);
                  rowsAffected := rowsAffected (locals st) |} |}.

Definition withCount (st : store) (c : Z) : store :=
  {| database := database st;
     locals := {| records := records (locals st); count := c;
                  rowsAffected := rowsAffected (locals st) |} |}.

Definition withRowsAffected (db' : DB) (st : store) (n : Z) : store :=
  {| database := db';
     locals := {| records := records (locals st); count := count (locals st);
                  rowsAffected := n |} |}.

Definition withDatabase (db' : DB) (st : store) : store :=
  {| database := db'; locals := locals st |}.

(** What a handler leaves behind: how it ended, the context, the store and
    the calls it made, in order. *)
Definition effect := (completion * MiddlewareContext * store * list event)%type.

Definition QueryMiddlewareFunc := MiddlewareContext -> store -> effect.
Definition QueryMiddleware := QueryMiddlewareFunc -> QueryMiddlewareFunc.

(** The part of the repository that a query reads. *)
Record Repository := {
  tableName : string;
  columns : list string;
  middlewares : list QueryMiddleware;
  relationships : string -> option bool
}.

(** [type Query[T any] struct]. *)
Record Query := {
  repo : Repository;
  builder : SelectBuilder;
  err : option gerr;
  ctx : nat;
  limit : option N;
  offset : option N;
  orderBy : list string;
  whereClause : list Sqlizer;
  tx : option nat;
  joins : list join;
  includes : list include
}.

(** The builder that [Repository.Query] starts from:
    [squirrel.Select(r.Columns()...).From(r.metadata.TableName)]. *)
Definition baseBuilder (r : Repository) : SelectBuilder :=
  {| sbColumns := columns r; sbFrom := tableName r; sbJoins := [];
     sbWhere := []; sbOrderBy := []; sbLimit := None; sbOffset := None |}.

(** An [AuthorizeFunc[T]]: from the context and the query to a query. *)
Definition AuthorizeFunc := nat -> Query -> Query.

(** [Repository.Query]: the new query, handed through the authorization
    functions in insertion order. *)
Definition newQuery (r : Repository) (authorizeFuncs : list AuthorizeFunc)
  (c : nat) : Query :=
  fold_left (fun query authFunc => authFunc c query) authorizeFuncs
    {| repo := r; builder := baseBuilder r; err := None; ctx := c;
       limit := None; offset := None; orderBy := []; whereClause := [];
       tx := None; joins := []; includes := [] |}.

(** [Where]. *)
Definition Where (q : Query) (condition : Sqlizer) : Query :=
  match err q with
  | Some _ => q
  | None =>
      {| repo := repo q; builder := builder q; err := err q; ctx := ctx q;
         limit := limit q; offset := offset q; orderBy := orderBy q;
         whereClause := whereClause q ++ [condition]; tx := tx q;
         joins := joins q; includes := includes q |}
  end.

Definition executorOf (q : Query) : executor :=
  match tx q with
  | Some t => OnTx t
  | None => OnDb
  end.

(** Modelled from the spec: [ExecuteMiddleware], whose body is not in the
    sources: the first-added middleware is outermost. *)
Definition ExecuteMiddleware (mws : list QueryMiddleware)
  (final : QueryMiddlewareFunc) : QueryMiddlewareFunc :=
  fold_right (fun m next => m next) final mws.

(** Modelled from the spec: [executeQueryMiddleware], whose body is not in
    the sources, enters the pipeline with a context that carries the
    operation kind, the table name, the query-builder value, a metadata
    map and the cancellation context. *)
Definition executeQueryMiddleware (r : Repository) (op : OperationType)
  (c : nat) (model : modelArg) (b : builderValue)
  (final : QueryMiddlewareFunc) (st : store) : effect :=
  let mc := {| Operation := op; TableName := tableName r; QueryBuilder := b;
               QueryText := EmptyString; Args := []; Metadata := [];
               Context := c; Model := model |} in
  let '(done, mc', st', evs) := ExecuteMiddleware (middlewares r) final mc st in
  (done, mc', st', EvPipeline mc :: evs).

(** [Limit]. *)
Definition Limit (q : Query) (n : N) : Query :=
  match err q with
  | Some _ => q
  | None =>
      {| repo := repo q; builder := builder q; err := err q; ctx := ctx q;
         limit := Some n; offset := offset q; orderBy := orderBy q;
         whereClause := whereClause q; tx := tx q; joins := joins q;
         includes := includes q |}
  end.

Definition clearIncludes (q : Query) : Query :=
  {| repo := repo q; builder := builder q; err := err q; ctx := ctx q;
     limit := limit q; offset := offset q; orderBy := orderBy q;
     whereClause := whereClause q; tx := tx q; joins := joins q;
     includes := [] |}.

(** [b.Where(q.whereClause)] when [len(q.whereClause) > 0]. *)
Definition addWhere (parts conds : list Sqlizer) : list Sqlizer :=
  match conds with
  | [] => parts
  | _ => parts ++ [And conds]
  end.

Definition orElse {A : Type} (new old : option A) : option A :=
  match new with
  | Some _ => new
  | None => old
  end.

(** [finalBuilder] of [Find]. *)
Definition findBuilder (q : Query) : SelectBuilder :=
  let b := builder q in
  {| sbColumns := sbColumns b;
     sbFrom := sbFrom b;
     sbJoins := sbJoins b ++ joinClauses (joins q);
     sbWhere := addWhere (sbWhere b) (whereClause q);
     sbOrderBy := sbOrderBy b ++ orderBy q;
     sbLimit := orElse (limit q) (sbLimit b);
     sbOffset := orElse (offset q) (sbOffset b) |}.

(** [countBuilder] of [Count]. *)
Definition countBuilder (q : Query) : SelectBuilder :=
  {| sbColumns := ["COUNT(*)"];
     sbFrom := tableName (repo q);
     sbJoins := joinClauses (joins q);
     sbWhere := addWhere [] (whereClause q);
     sbOrderBy := [];
     sbLimit := None;
     sbOffset := None |}.

(** [deleteBuilder] of [Delete]. *)
Definition deleteBuilder (q : Query) : DeleteBuilder :=
  {| dbFrom := tableName (repo q);
     dbWhere := addWhere [] (whereClause q) |}.

(** The closure that [Find] passes to the pipeline. *)
Definition findFinal (d : driver) (q : Query) : QueryMiddlewareFunc :=
  fun mc st =>
    match QueryBuilder mc with
    | BSelect finalQuery =>
        match selectToSql finalQuery with
        | Some e =>
            (Err (OrmError "find" (tableName (repo q))
                    (Errorf "failed to build query: %w" (Some e))), mc, st, [])
        | None =>
            let ev := EvSelect (executorOf q) (StSelect finalQuery) in
            match SelectContext d (executorOf q) (StSelect finalQuery)
                                (database st) with
            | inr e =>
                (Err (OrmError "find" (tableName (repo q))
                        (Errorf "failed to execute query: %w"
                                (Some (DriverError e)))), mc, st, [ev])
            | inl rows => (Nil, mc, withRecords st rows, [ev])
            end
        end
    | _ => (Panic, mc, st, [])
    end.

(** [Find] without includes: the records, how the call ended, the state
    of the database and the calls made. *)
Definition findPlain (d : driver) (q : Query) (db : DB)
  : list T * completion * DB * list event :=
  let '(done, _, st, evs) :=
    executeQueryMiddleware (repo q) OpQuery (ctx q) NoModel
      (BSelect (findBuilder q)) (findFinal d q)
      {| database := db; locals := zeroFrame |} in
  (records (locals st), done, database st, evs).

(** The loading of one relationship into one record:
    [buildSingleRecordQuery] and [executeSingleRelationshipQuery]. *)
Variable loadRecord : Query -> include -> T -> DB
                      -> option gerr * T * DB * list event.

(** The loop [for i := range records] of [loadRelationship]; the records
    are updated in place. *)
Fixpoint loadRecords (q : Query) (inc : include) (rows : list T) (db : DB)
  : option gerr * list T * DB * list event :=
  match rows with
  | [] => (None, [], db, [])
  | r :: rest =>
      match loadRecord q inc r db with
      | (Some e, r', db', evs) => (Some e, r' :: rest, db', evs)
      | (None, r', db', evs) =>
          let '(e, rest', db'', evs') := loadRecords q inc rest db' in
          (e, r' :: rest', db'', evs ++ evs')
      end
  end.

(** [loadRelationship]. *)
Definition loadRelationship (q : Query) (rows : list T) (inc : include)
  (db : DB) : option gerr * list T * DB * list event :=
  match rows with
  | [] => (None, rows, db, [])
  | _ =>
      match relationships (repo q) (name inc) with
      | None =>
          (Some (Errorf ("relationship " ++ name inc ++ " not found")%string None),
           rows, db, [])
      | Some false =>
          (Some (Errorf ("relationship " ++ name inc
                         ++ " does not have ScanToModel function")%string None),
           rows, db, [])
      | Some true => loadRecords q inc rows db
      end
  end.

(** The loop [for _, include := range originalIncludes]. *)
Fixpoint loadAll (q : Query) (incs : list include) (rows : list T) (db : DB)
  : option gerr * list T * DB * list event :=
  match incs with
  | [] => (None, rows, db, [])
  | inc :: rest =>
      match loadRelationship q rows inc db with
      | (Some e, rows', db', evs) =>
          (Some (Errorf ("failed to load relationship " ++ name inc ++ ": %w")%string
                        (Some e)), rows', db', evs)
      | (None, rows', db', evs) =>
          let '(e, rows'', db'', evs') := loadAll q rest rows' db' in
          (e, rows'', db'', evs ++ evs')
      end
  end.

(** [findWithRelationships]. *)
Definition findWithRelationships (d : driver) (q : Query) (db : DB)
  : list T * completion * DB * list event :=
  let originalIncludes := includes q in
  let q' := clearIncludes q in
  match findPlain d q' db with
  | (rows, Nil, db', evs) =>
      match rows with
      | [] => (rows, Nil, db', evs)
      | _ =>
          match loadAll q' originalIncludes rows db' with
          | (Some e, _, db'', evs') => ([], Err e, db'', evs ++ evs')
          | (None, rows', db'', evs') => (rows', Nil, db'', evs ++ evs')
          end
      end
  | (_, done, db', evs) => ([], done, db', evs)
  end.

(** [Find]. *)
Definition Find (d : driver) (q : Query) (db : DB)
  : list T * completion * DB * list event :=
  match includes q with
  | [] => findPlain d q db
  | _ => findWithRelationships d q db
  end.

(** [First]: the record if there is one. *)
Definition First (d : driver) (q : Query) (db : DB)
  : option T * completion * DB * list event :=
  match Find d (Limit q 1) db with
  | (rows, Nil, db', evs) =>
      match rows with
      | [] => (None, Err (OrmError "first" (tableName (repo q)) ErrNotFound),
               db', evs)
      | r :: _ => (Some r, Nil, db', evs)
      end
  | (_, done, db', evs) => (None, done, db', evs)
  end.

(** The closure that [Count] passes to the pipeline. *)
Definition countFinal (d : driver) (q : Query) : QueryMiddlewareFunc :=
  fun mc st =>
    match QueryBuilder mc with
    | BSelect finalQuery =>
        match selectToSql finalQuery with
        | Some e =>
            (Err (OrmError "count" (tableName (repo q))
                    (Errorf "failed to build count query: %w" (Some e))),
             mc, st, [])
        | None =>
            let ev := EvGet (executorOf q) (StSelect finalQuery) in
            match GetContext d (executorOf q) (StSelect finalQuery)
                             (database st) with
            | inr e =>
                (Err (OrmError "count" (tableName (repo q))
                        (Errorf "failed to execute count query: %w"
                                (Some (DriverError e)))), mc, st, [ev])
            | inl c => (Nil, mc, withCount st c, [ev])
            end
        end
    | _ => (Panic, mc, st, [])
    end.

(** [Count]. *)
Definition Count (d : driver) (q : Query) (db : DB)
  : Z * completion * DB * list event :=
  let '(done, _, st, evs) :=
    executeQueryMiddleware (repo q) OpQuery (ctx q) NoModel
      (BSelect (countBuilder q)) (countFinal d q)
      {| database := db; locals := zeroFrame |} in
  (count (locals st), done, database st, evs).

(** [Exists]. *)
Definition Exists (d : driver) (q : Query) (db : DB)
  : bool * completion * DB * list event :=
  match Count d q db with
  | (c, Nil, db', evs) => ((0 <? c)%Z, Nil, db', evs)
  | (_, done, db', evs) => (false, done, db', evs)
  end.

(** The closure that [Delete] passes to the pipeline. *)
Definition deleteFinal (d : driver) (q : Query) : QueryMiddlewareFunc :=
  fun mc st =>
    match QueryBuilder mc with
    | BDelete finalQuery =>
        match deleteToSql finalQuery with
        | Some e =>
            (Err (OrmError "delete" (tableName (repo q))
                    (Errorf "failed to build delete query: %w" (Some e))),
             mc, st, [])
        | None =>
            let ev := EvExec (executorOf q) (StDelete finalQuery) in
            match ExecContext d (executorOf q) (StDelete finalQuery)
                              (database st) with
            | (db', inr e) =>
                (Err (PostgreSQLError (DriverError e) "delete"
                        (tableName (repo q))), mc, withDatabase db' st, [ev])
            | (db', inl (inr e)) =>
                (Err (OrmError "delete" (tableName (repo q))
                        (Errorf "failed to get rows affected: %w"
                                (Some (DriverError e)))),
                 mc, withDatabase db' st, [ev])
            | (db', inl (inl n)) => (Nil, mc, withRowsAffected db' st n, [ev])
            end
        end
    | _ => (Panic, mc, st, [])
    end.

(** [Delete]. *)
Definition Delete (d : driver) (q : Query) (db : DB)
  : Z * completion * DB * list event :=
  let '(done, _, st, evs) :=
    executeQueryMiddleware (repo q) OpDelete (ctx q) NoModel
      (BDelete (deleteBuilder q)) (deleteFinal d q)
      {| database := db; locals := zeroFrame |} in
  (rowsAffected (locals st), done, database st, evs).

(** The closure that [Update] passes to the pipeline. *)
Definition updateFinal (d : driver) (q : Query) (sql : string)
  (args : list value) : QueryMiddlewareFunc :=
  fun mc st =>
    let mc' := {| Operation := Operation mc; TableName := TableName mc;
                  QueryBuilder := QueryBuilder mc; QueryText := sql;
                  Args := args; Metadata := Metadata mc;
                  Context := Context mc; Model := Model mc |} in
    let ev := EvExec (executorOf q) (StRaw sql args) in
    match ExecContext d (executorOf q) (StRaw sql args) (database st) with
    | (db', inr e) =>
        (Err (PostgreSQLError (DriverError e) "update" (tableName (repo q))),
         mc', withDatabase db' st, [ev])
    | (db', inl (inr e)) =>
        (Err (OrmError "update" (tableName (repo q))
                (Errorf "failed to get rows affected: %w"
                        (Some (DriverError e)))),
         mc', withDatabase db' st, [ev])
    | (db', inl (inl n)) => (Nil, mc', withRowsAffected db' st n, [ev])
    end.

(** [Update]; the rendering is [QueryUpdate.render]. *)
Definition Update (d : driver) (q : Query) (actions : list Action) (db : DB)
  : option (Z * completion * DB * list event) :=
  match QueryUpdate.render (tableName (repo q)) (whereClause q) actions with
  | None => None
  | Some (inr QueryUpdate.NoActions) =>
      Some (0%Z, Err (OrmError "update" (tableName (repo q))
                        (Errorf "no actions provided" None)), db, [])
  | Some (inr (QueryUpdate.WhereBuild msg)) =>
      Some (0%Z, Err (OrmError "update" (tableName (repo q))
                        (Errorf "failed to build where clause: %w"
                                (Some (SqlizerError msg)))), db, [])
  | Some (inl r) =>
      let sql := QueryUpdate.baseSQL r in
      let args := QueryUpdate.boundArgs r in
      let '(done, _, st, evs) :=
        executeQueryMiddleware (repo q) OpUpdateMany (ctx q)
          (ModelActions actions) (BString sql) (updateFinal d q sql args)
          {| database := db; locals := zeroFrame |} in
      Some (rowsAffected (locals st), done, database st, evs)
  end.

(** [buildFinalQuery]. *)
Definition buildFinalQuery (q : Query) (query : string) (args : list value)
  : string * list value := (query, args).

(** [ExecuteRaw]. *)
Definition ExecuteRaw (d : driver) (q : Query) (query : string)
  (args : list value) (db : DB) : list T * completion * DB * list event :=
  let '(finalQuery, finalArgs) := buildFinalQuery q query args in
  let ev := EvSelect (executorOf q) (StRaw finalQuery finalArgs) in
  match SelectContext d (executorOf q) (StRaw finalQuery finalArgs) db with
  | inr e =>
      ([], Err (OrmError "executeRaw" (tableName (repo q))
                  (Errorf "failed to execute raw query: %w"
                          (Some (DriverError e)))), db, [ev])
  | inl rows => (rows, Nil, db, [ev])
  end.

(** The context with which [executeQueryMiddleware] enters the pipeline. *)
Definition entryContext (q : Query) (op : OperationType)
  (model : modelArg) (b : builderValue) : MiddlewareContext :=
  {| Operation := op; TableName := tableName (repo q);
     QueryBuilder := b; QueryText := EmptyString; Args := []; Metadata := [];
     Context := ctx q; Model := model |}.

(** The calls of an operation start with the entry into the pipeline. *)
Definition entersFirst (evs : list event) (mc : MiddlewareContext) : Prop :=
  exists rest, evs = EvPipeline mc :: rest.

(** [OFFSET] then [LIMIT]. *)
Definition window {A : Type} (lim off : option N) (rows : list A) : list A :=
  let rest := match off with
              | Some o => skipn (N.to_nat o) rows
              | None => rows
              end in
  match lim with
  | Some l => firstn (N.to_nat l) rest
  | None => rest
  end.

(** The number of rows that a window leaves of [n]. *)
Definition windowLength (lim off : option N) (n : nat) : nat :=
  let rest := match off with
              | Some o => n - N.to_nat o
              | None => n
              end in
  match lim with
  | Some l => Nat.min (N.to_nat l) rest
  | None => rest
  end.

(** The database: the rows that [FROM table JOIN ... WHERE ...] selects
    in a state. *)
Variable matching : DB -> string -> list string -> list Sqlizer -> list T.

(** The rows that match the joins and conditions of a query. *)
Definition matched (q : Query) (db : DB) : list T :=
  matching db (tableName (repo q)) (joinClauses (joins q))
           (addWhere [] (whereClause q)).

End Engine.

Arguments window {A} _ _ _.

(** *** A database for the examples

    One table [users] whose rows are their keys; the state is the list
    of the rows.  Every user has one profile, so that the join with
    [profiles] keeps the rows.  The database knows the condition
    [id >= ?], the order [id DESC] and the statement
    [UPDATE users SET name = $1]; it answers anything else with an
    error. *)

Definition profilesJoin : string :=
  "INNER JOIN profiles ON profiles.user_id = users.id".

Definition exampleWhere (parts : list Sqlizer) : option (nat -> bool) :=
  match parts with
  | [] => Some (fun _ => true)
  | [And [Leaf sql [VInt k]]] =>
      if String.eqb sql "id >= ?"
      then Some (fun r => (k <=? Z.of_nat r)%Z)
      else None
  | _ => None
  end.

Definition exampleRows (db : list nat) (from : string) (joinParts : list string)
  (parts : list Sqlizer) : option (list nat) :=
  if String.eqb from "users" then
    match joinParts with
    | [] => option_map (fun keep => filter keep db) (exampleWhere parts)
    | [j] =>
        if String.eqb j profilesJoin
        then option_map (fun keep => filter keep db) (exampleWhere parts)
        else None
    | _ => None
    end
  else None.

Definition exampleOrder (keys : list string) (rows : list nat)
  : option (list nat) :=
  match keys with
  | [] => Some rows
  | [k] => if String.eqb k "id DESC" then Some (rev rows) else None
  | _ => None
  end.

Definition isCountStar (cols : list string) : bool :=
  match cols with
  | [c] => String.eqb c "COUNT(*)"
  | _ => false
  end.

Definition isIdColumn (cols : list string) : bool :=
  match cols with
  | [c] => String.eqb c "id"
  | _ => false
  end.

Definition exampleDriver : driver nat (list nat) :=
  {| SelectContext := fun _ st db =>
       match st with
       | StSelect b =>
           if isIdColumn (sbColumns b) then
             match exampleRows db (sbFrom b) (sbJoins b) (sbWhere b) with
             | Some rows =>
                 match exampleOrder (sbOrderBy b) rows with
                 | Some sorted => inl (window (sbLimit b) (sbOffset b) sorted)
                 | None => inr 1
                 end
             | None => inr 1
             end
           else inr 1
       | _ => inr 1
       end;
     GetContext := fun _ st db =>
       match st with
       | StSelect b =>
           if isCountStar (sbColumns b) then
             match sbOrderBy b, exampleRows db (sbFrom b) (sbJoins b) (sbWhere b) with
             | [], Some rows =>
                 match window (sbLimit b) (sbOffset b)
                         [Z.of_nat (List.length rows)] with
                 | c :: _ => inl c
                 | [] => inr 2
                 end
             | _, _ => inr 1
             end
           else inr 1
       | _ => inr 1
       end;
     ExecContext := fun _ st db =>
       match st with
       | StDelete b =>
           if String.eqb (dbFrom b) "users" then
             match exampleWhere (dbWhere b) with
             | Some keep =>
                 (filter (fun r => negb (keep r)) db,
                  inl (inl (Z.of_nat (List.length (filter keep db)))))
             | None => (db, inr 1)
             end
           else (db, inr 1)
       | StRaw sql _ =>
           if String.eqb sql "UPDATE users SET name = $1"
           then (db, inl (inl (Z.of_nat (List.length db))))
           else (db, inr 1)
       | StSelect _ => (db, inr 1)
       end |}.

(** The rows that the example database selects. *)
Definition exampleMatching (db : list nat) (from : string)
  (joinParts : list string) (parts : list Sqlizer) : list nat :=
  match exampleRows db from joinParts parts with
  | Some rows => rows
  | None => []
  end.

Definition noLoad : Query nat unit -> include -> nat -> unit
                    -> option gerr * nat * unit * list event :=
  fun _ _ r db => (None, r, db, []).

Definition keepRecord : Query nat (list nat) -> include -> nat -> list nat
                        -> option gerr * nat * list nat * list event :=
  fun _ _ r db => (None, r, db, []).

Definition usersRepo : Repository nat unit :=
  {| tableName := "users"; columns := ["id"]; middlewares := [];
     relationships := fun _ => None |}.

Definition usersTable : Repository nat (list nat) :=
  {| tableName := "users"; columns := ["id"]; middlewares := [];
     relationships := fun _ => None |}.

(** [repo.Query(ctx)] and [repo.Query(ctx).Limit(1)]. *)
Definition allUsers : Query nat unit := newQuery nat unit usersRepo [] 0.

Definition allRows : Query nat (list nat) :=
  newQuery nat (list nat) usersTable [] 0.

Definition firstRow : Query nat (list nat) := Limit nat (list nat) allRows 1%N.

(** [Count] and [Find] on the table of the rows 10, 20 and 30. *)
Definition countOf (q : Query nat (list nat)) : Z :=
  fst (fst (fst (Count nat (list nat) exampleDriver q [10; 20; 30]))).

Definition foundBy (q : Query nat (list nat)) : list nat :=
  fst (fst (fst (Find nat (list nat) keepRecord exampleDriver q [10; 20; 30]))).

(** A middleware that puts [LIMIT 1] on every SELECT, and a repository
    that holds it. *)
Definition limitOne : QueryMiddleware nat (list nat) :=
  fun next mc st =>
    next {| Operation := Operation mc; TableName := TableName mc;
            QueryBuilder :=
              match QueryBuilder mc with
              | BSelect b =>
                  BSelect {| sbColumns := sbColumns b; sbFrom := sbFrom b;
                             sbJoins := sbJoins b; sbWhere := sbWhere b;
                             sbOrderBy := sbOrderBy b; sbLimit := Some 1%N;
                             sbOffset := sbOffset b |}
              | other => other
              end;
            QueryText := QueryText mc; Args := Args mc;
            Metadata := Metadata mc; Context := Context mc;
            Model := Model mc |} st.

Definition limitedTable : Repository nat (list nat) :=
  {| tableName := "users"; columns := ["id"]; middlewares := [limitOne];
     relationships := fun _ => None |}.

End Query.

(* ================================================================== *)
(** ** The string-array field: literals that the database writes *)
(* ================================================================== *)

Module PqArraysInput.
Import GoStrings PqArrays.

(** An element that the database writes without quotes: it holds no quote
    and no comma. *)
Definition plainElem (s : string) : Prop :=
  count quote s = 0 /\ count comma s = 0.

(** The literal of unquoted elements. *)
Definition plainLiteral (l : list string) : string :=
  ("{" ++ Join l "," ++ "}")%string.

End PqArraysInput.

(* ================================================================== *)
(** ** internal/storm/migrator.go: running the statements of a migration *)
(* ================================================================== *)

Module MigratorExec.
Import Migrator.

(** [strings.Split(s, sep)] for a separator of one rune, with the piece
    being read in [cur]. *)
Fixpoint splitOn (sep : rune) (s cur : runes) : list runes :=
  match s with
  | [] => [cur]
  | c :: s' =>
      if (c =? sep)%N then cur :: splitOn sep s' []
      else splitOn sep s' (cur ++ [c])
  end.

(** [strings.HasPrefix] and [strings.Contains] on the runes of valid
    text. *)
Fixpoint hasPrefix (s p : runes) {struct p} : bool :=
  match p with
  | [] => true
  | b :: p' =>
      match s with
      | [] => false
      | a :: s' => (a =? b)%N && hasPrefix s' p'
      end
  end.

Fixpoint contains (s sub : runes) : bool :=
  hasPrefix s sub ||
  match s with
  | [] => false
  | _ :: s' => contains s' sub
  end.

Section Exec.

(** [strings.ToUpper], and the driver: the error of
    [tx.ExecContext(ctx, stmt)], given the statements that the call has
    executed before. *)
Variable ToUpper : runes -> runes.
Variable E : Type.
Variable ExecContext : list runes -> runes -> option E.

Inductive execError :=
| StatementFailed (stmt : runes) (e : E)
| RollbackStatementFailed (stmt : runes) (e : E)
| NoRollbackScript.

(** The statement is skipped by [executeMigration]. *)
Definition isCreateDatabase (stmt : runes) : bool :=
  contains (ToUpper stmt) (lit "CREATE DATABASE").

(** The loop of [executeMigration]: the error, and the statements handed
    to the driver, in order ([done] are those handed so far). *)
Fixpoint runUp (statements : list runes) (done : list runes)
  : option execError * list runes :=
  match statements with
  | [] => (None, done)
  | stmt :: rest =>
      let stmt := TrimSpace stmt in
      if isEmpty stmt then runUp rest done
      else if isCreateDatabase stmt then runUp rest done
      else
        match ExecContext done stmt with
        | Some e => (Some (StatementFailed stmt e), done ++ [stmt])
        | None => runUp rest (done ++ [stmt])
        end
  end.

(** [executeMigration] on [migration.UpSQL]. *)
Definition executeMigration (UpSQL : runes) : option execError * list runes :=
  if isEmpty UpSQL then (None, [])
  else runUp (splitSQLStatements UpSQL) [].

(** The loop of [executeRollback]. *)
Fixpoint runDown (statements : list runes) (done : list runes)
  : option execError * list runes :=
  match statements with
  | [] => (None, done)
  | stmt :: rest =>
      let stmt := TrimSpace stmt in
      if isEmpty stmt then runDown rest done
      else
        match ExecContext done stmt with
        | Some e => (Some (RollbackStatementFailed stmt e), done ++ [stmt])
        | None => runDown rest (done ++ [stmt])
        end
  end.

(** [executeRollback] on [migration.DownSQL]. *)
Definition executeRollback (DownSQL : runes) : option execError * list runes :=
  if isEmpty DownSQL then (Some NoRollbackScript, [])
  else runDown (splitOn r_semi DownSQL []) [].

(** The statements that [executeMigration] is to run: the trimmed
    statements that are not empty and hold no [CREATE DATABASE]. *)
Definition upCandidates (UpSQL : runes) : list runes :=
  filter (fun stmt => negb (isEmpty stmt) && negb (isCreateDatabase stmt))
         (map TrimSpace (splitSQLStatements UpSQL)).

(** The statements that [executeRollback] is to run. *)
Definition downCandidates (DownSQL : runes) : list runes :=
  filter (fun stmt => negb (isEmpty stmt))
         (map TrimSpace (splitOn r_semi DownSQL [])).

(** What a run of statements did, given the statements [todo] that were
    to run after [done]: the statements [ran] are the first of [todo],
    each handed to the driver after the ones before it; all but the last
    succeeded; the run ended without error exactly when all of [todo] ran
    and the last succeeded too. *)
Definition ranInOrder (failed : runes -> E -> execError)
  (todo done : list runes) (err : option execError)
  (executed : list runes) : Prop :=
  exists ran rest,
    executed = done ++ ran
    /\ todo = ran ++ rest
    /\ (forall before stmt after,
          ran = before ++ stmt :: after ->
          after <> [] \/ err = None ->
          ExecContext (done ++ before) stmt = None)
    /\ match err with
       | None => rest = []
       | Some x =>
           exists before stmt e,
             ran = before ++ [stmt]
             /\ ExecContext (done ++ before) stmt = Some e
             /\ x = failed stmt e
       end.

End Exec.

(** The statement has a line that, trimmed, is not empty and does not
    begin with two dashes. *)
Definition hasCodeLine (stmt : runes) : Prop :=
  exists line,
    In line (splitLines stmt [])
    /\ TrimSpace line <> []
    /\ hasDashDash (TrimSpace line) = false.

(** A statement as the splitter returns it: not empty, without white
    space at either end, and with such a line. *)
Definition wellFormed (stmt : runes) : Prop :=
  stmt <> [] /\ TrimSpace stmt = stmt /\ hasCodeLine stmt.

(** A block comment and a lone semicolon. *)
Definition blockComment : runes := lit "/* note */".
Definition loneSemicolon : runes := lit ";".

(** The first rune, if any, is not white space. *)
Definition headOk (s : runes) : Prop :=
  match s with
  | [] => True
  | c :: _ => isSpace c = false
  end.

(** The two runes that open and close an anonymous dollar quote. *)
Definition dd : runes := [r_dollar; r_dollar].

End MigratorExec.

(* ================================================================== *)
(** ** The statements reported by an automatic migration *)
(* ================================================================== *)

Module AutoMigrate.
Import Migrator.

(** [strings.HasSuffix(trimmed, ";")]. *)
Definition endsWithSemi (s : runes) : bool :=
  match rev s with
  | c :: _ => (c =? r_semi)%N
  | [] => false
  end.

(** The loop of [extractSQLStatements] over the lines. *)
Fixpoint extractLoop (lines : list runes) (current : runes)
  (statements : list runes) : list runes :=
  match lines with
  | [] =>
      if negb (isEmpty current) then
        let stmt := TrimSpace current in
        if negb (isEmpty stmt) then statements ++ [stmt] else statements
      else statements
  | line :: rest =>
      let trimmed := TrimSpace line in
      if isEmpty trimmed || hasDashDash trimmed
      then extractLoop rest current statements
      else
        let current' := current ++ line ++ [r_newline] in
        if endsWithSemi trimmed then
          let stmt := TrimSpace current' in
          extractLoop rest []
            (if negb (isEmpty stmt) then statements ++ [stmt] else statements)
        else extractLoop rest current' statements
  end.

(** [extractSQLStatements]. *)
Definition extractSQLStatements (upSQL : runes) : list runes :=
  if isEmpty upSQL then []
  else extractLoop (splitLines upSQL []) [] [].

(** A line that [extractSQLStatements] leaves out: blank or a [--]
    comment. *)
Definition skipped (line : runes) : bool :=
  isEmpty (TrimSpace line) || hasDashDash (TrimSpace line).

(** A statement as [extractSQLStatements] reports it. *)
Definition reported (stmt : runes) : Prop :=
  stmt <> [] /\ TrimSpace stmt = stmt.

End AutoMigrate.

(* ================================================================== *)
(** ** [Query.Update]: what the action loop is to produce *)
(* ================================================================== *)

Module QueryUpdateSpec.
Import GoStrings Values Squirrel QueryUpdate.

(** The first [m] question marks of [expression] numbered consecutively
    from [n] in one pass; the others are left. *)
Fixpoint numberedUpTo (m : nat) (expression : string) (n : Z) : string :=
  match expression with
  | EmptyString => EmptyString
  | String a rest =>
      if Ascii.eqb a qmark then
        match m with
        | O => expression
        | S m' => (placeholder n ++ numberedUpTo m' rest (n + 1))%string
        end
      else String a (numberedUpTo m rest n)
  end.

(** The arguments that one action binds: none for a nil value, the
    elements of a list, one copy of any other value for each question
    mark. *)
Definition argsOf (action : Action) : list value :=
  match Value action with
  | VNil => []
  | VSlice l => l
  | v => repeat v (count qmark (Expression action))
  end.

(** The SET part of one action when the counter is [n]. *)
Definition partOf (action : Action) (n : Z) : string :=
  match Value action with
  | VNil => Expression action
  | VSlice l => numberedUpTo (List.length l) (Expression action) n
  | _ => numbered (Expression action) n
  end.

(** The SET parts of the actions, in order, with one counter running
    through them from [n]. *)
Fixpoint setPartsFrom (actions : list Action) (n : Z) : list string :=
  match actions with
  | [] => []
  | action :: rest =>
      partOf action n
      :: setPartsFrom rest (n + Z.of_nat (List.length (argsOf action)))
  end.

(** The arguments of the actions, in order. *)
Definition argsFrom (actions : list Action) : list value :=
  flat_map argsOf actions.

(** An action without a value, such as setting a column to NULL. *)
Definition setNull : Action :=
  {| Column := "users.name"; Expression := "name = NULL"; Value := VNil |}.

(** An action with a list of two values. *)
Definition setJsonPath : Action :=
  {| Column := "users.meta"; Expression := "meta = jsonb_set(meta, ?, ?)";
     Value := VSlice [VString "{a}"; VInt 1] |}.

End QueryUpdateSpec.

(* ================================================================== *)
(** ** The other methods of the query builder *)
(* ================================================================== *)

Module QueryBuilder.
Import Values Squirrel Query.

Section Builder.

Variable T : Type.
Variable DB : Type.

(** [WithTx]. *)
Definition WithTx (q : Query T DB) (t : option nat) : Query T DB :=
  {| repo := repo T DB q; builder := builder T DB q; err := err T DB q;
     ctx := ctx T DB q; limit := limit T DB q; offset := offset T DB q;
     orderBy := orderBy T DB q; whereClause := whereClause T DB q; tx := t;
     joins := joins T DB q; includes := includes T DB q |}.

(** [OrderBy]. *)
Definition OrderBy (q : Query T DB) (expressions : list string) : Query T DB :=
  match err T DB q with
  | Some _ => q
  | None =>
      {| repo := repo T DB q; builder := builder T DB q; err := err T DB q;
         ctx := ctx T DB q; limit := limit T DB q; offset := offset T DB q;
         orderBy := orderBy T DB q ++ expressions;
         whereClause := whereClause T DB q; tx := tx T DB q;
         joins := joins T DB q; includes := includes T DB q |}
  end.

(** [Offset]. *)
Definition Offset (q : Query T DB) (n : N) : Query T DB :=
  match err T DB q with
  | Some _ => q
  | None =>
      {| repo := repo T DB q; builder := builder T DB q; err := err T DB q;
         ctx := ctx T DB q; limit := limit T DB q; offset := Some n;
         orderBy := orderBy T DB q; whereClause := whereClause T DB q;
         tx := tx T DB q; joins := joins T DB q; includes := includes T DB q |}
  end.

(** [Join]. *)
Definition Join (q : Query T DB) (joinType : JoinType)
  (table condition : string) : Query T DB :=
  match err T DB q with
  | Some _ => q
  | None =>
      {| repo := repo T DB q; builder := builder T DB q; err := err T DB q;
         ctx := ctx T DB q; limit := limit T DB q; offset := offset T DB q;
         orderBy := orderBy T DB q; whereClause := whereClause T DB q;
         tx := tx T DB q;
         joins := joins T DB q
                  ++ [{| Type_ := joinType; Table := table;
                         Condition := condition |}];
         includes := includes T DB q |}
  end.

(** [Include]. *)
Definition Include (q : Query T DB) (relationships : list string)
  : Query T DB :=
  match err T DB q with
  | Some _ => q
  | None =>
      {| repo := repo T DB q; builder := builder T DB q; err := err T DB q;
         ctx := ctx T DB q; limit := limit T DB q; offset := offset T DB q;
         orderBy := orderBy T DB q; whereClause := whereClause T DB q;
         tx := tx T DB q; joins := joins T DB q;
         includes := includes T DB q
                     ++ map (fun rel => {| name := rel; conditions := [] |})
                            relationships |}
  end.

(** [IncludeWhere]. *)
Definition IncludeWhere (q : Query T DB) (relationship : string)
  (conds : list Sqlizer) : Query T DB :=
  match err T DB q with
  | Some _ => q
  | None =>
      {| repo := repo T DB q; builder := builder T DB q; err := err T DB q;
         ctx := ctx T DB q; limit := limit T DB q; offset := offset T DB q;
         orderBy := orderBy T DB q; whereClause := whereClause T DB q;
         tx := tx T DB q; joins := joins T DB q;
         includes := includes T DB q
                     ++ [{| name := relationship; conditions := conds |}] |}
  end.

End Builder.

(** The example database in the state of the rows 10, 20 and 30, for a
    repository that keeps no state. *)
Definition rowsDriver : driver nat unit :=
  {| SelectContext := fun ex st _ =>
       SelectContext nat (list nat) exampleDriver ex st [10; 20; 30];
     GetContext := fun ex st _ =>
       GetContext nat (list nat) exampleDriver ex st [10; 20; 30];
     ExecContext := fun ex st _ =>
       (tt, snd (ExecContext nat (list nat) exampleDriver ex st [10; 20; 30])) |}.

(** [id >= 20], and a query with a condition, a join, an order, an
    offset and a limit. *)
Definition fromTwenty : Sqlizer := Leaf "id >= ?" [VInt 20].

Definition pagedRows : Query nat (list nat) :=
  Limit nat (list nat)
    (Offset nat (list nat)
       (OrderBy nat (list nat)
          (Join nat (list nat)
             (Where nat (list nat) allRows fromTwenty)
             InnerJoin "profiles" "profiles.user_id = users.id")
          ["id DESC"])
       1%N)
    5%N.

Definition withPosts : Query nat unit :=
  Include nat unit allUsers ["posts"].

End QueryBuilder.

(* ================================================================== *)
(** ** The transaction manager of a repository *)
(* ================================================================== *)

Module TxManager.
Import Tx.

(** [DefaultTransactionOptions]: [sql.LevelDefault] is 0. *)
Definition DefaultTransactionOptions : TransactionOptions :=
  {| Isolation := 0%Z; ReadOnly := false |}.

Section Driver.

Variable U : Type.

(** A callback on the transaction: how it ends and what it did. *)
Definition txCallback := nat -> list (event U) -> completion * list U.

(** [TransactionManager.WithTransactionOptions] on the pool [dbh].  The
    deferred function recovers a panic, rolls back and panics again with
    the recovered value (a value that is not nil). *)
Definition WithTransactionOptions (d : driver U) (dbh : nat)
  (opts : option TransactionOptions) (fn : txCallback)
  (past : list (event U)) : completion * list (event U) :=
  let opts' := match opts with
               | None => DefaultTransactionOptions
               | Some o => o
               end in
  let txOpts := Some {| Isolation := Isolation opts';
                        ReadOnly := ReadOnly opts' |} in
  match BeginTxx U d dbh txOpts past with
  | inr err =>
      (Returned (Some (Errorf "failed to begin transaction: %w" (Some err))),
       [EvBegin dbh txOpts])
  | inl tx =>
      let began := [EvBegin dbh txOpts] in
      let '(c, us) := fn tx (past ++ began) in
      let ran := began ++ map EvCallback us in
      match c with
      | Panicked v => (Panicked v, ran ++ [EvRollback tx])
      | Returned (Some err) => (Returned (Some err), ran ++ [EvRollback tx])
      | Returned None =>
          match Commit U d tx (past ++ ran) with
          | Some err =>
              (Returned (Some (Errorf "failed to commit: %w" (Some err))),
               ran ++ [EvCommit tx; EvRollback tx])
          | None => (Returned None, ran ++ [EvCommit tx])
          end
      end
  end.

(** [TransactionManager.WithTransaction]. *)
Definition WithTransaction (d : driver U) (dbh : nat) (fn : txCallback)
  (past : list (event U)) : completion * list (event U) :=
  WithTransactionOptions d dbh None fn past.

(** [Repository.GetTransactionManager] then [WithTransaction]:
    [Repository.WithinTransaction] on a repository whose executor is
    [db]. *)
Definition WithinTransaction (d : driver U) (db : DBExecutor)
  (fn : txCallback) (past : list (event U)) : completion * list (event U) :=
  match db with
  | SqlxDB dbh => WithTransaction d dbh fn past
  | _ =>
      (Returned (Some (Errorf
         "cannot create transaction manager: repository is already using a transaction"
         None)), [])
  end.

(** [Repository.IsTransaction]. *)
Definition IsTransaction (db : DBExecutor) : bool :=
  match db with
  | SqlxTx _ => true
  | _ => false
  end.

(** The options with which a call begins its transaction. *)
Definition optionsGiven (opts : option TransactionOptions)
  : option TransactionOptions :=
  Some (match opts with
        | None => DefaultTransactionOptions
        | Some o => o
        end).

(** Every event of [evs] is a call of the callback. *)
Definition onlyCallbacks (evs : list (event U)) : Prop :=
  forall e, In e evs -> exists u, e = EvCallback u.

End Driver.

(** A driver that cannot begin a transaction, and a callback on the
    transaction that fails. *)
Definition noBegin : driver unit :=
  {| BeginTxx := fun _ _ _ => inr (Other 9);
     Commit := fun _ _ => None;
     Rollback := fun _ _ => None |}.

Definition txFailing : txCallback unit :=
  fun _ _ => (Returned (Some (Other 3)), [tt]).

End TxManager.

(* ================================================================== *)
(** ** Authorization functions that add conditions *)
(* ================================================================== *)

Module QueryAuth.
Import Values Squirrel Query.

(** The authorization function
    [func(ctx, q) { return q.Where(condition) }]. *)
Definition whereAuth (T DB : Type) (condition : Sqlizer)
  : AuthorizeFunc T DB :=
  fun _ q => Where T DB q condition.

(** The query that [Repository.Query] starts from, before the
    authorization functions. *)
Definition freshQuery (T DB : Type) (r : Repository T DB) (c : nat)
  : Query T DB :=
  newQuery T DB r [] c.

End QueryAuth.

(* ================================================================== *)
(** ** internal/storm/migrator.go: [Apply] and [Rollback] *)
(* ================================================================== *)

Module MigratorApply.
Import Migrator MigratorExec.

(** The fields of [storm.Migration] that [Apply] and [Rollback] read. *)
Record Migration := {
  Name : string;
  UpSQL : runes;
  DownSQL : runes
}.

Section Apply.

Variable ToUpper : runes -> runes.
Variable E : Type.

(** The calls on the database, in the order of the code. *)
Inductive event :=
| EvCreateTable
| EvIsApplied (name : string)
| EvBegin
| EvExec (stmt : runes)
| EvRecord (name : string)
| EvRemove (name : string)
| EvCommit
| EvRollback.

(** The driver: [createMigrationsTable], the count of
    [isMigrationApplied], [BeginTxx], [tx.ExecContext] given the
    statements executed before in the transaction, the statements of
    [recordMigration] and [removeMigrationRecord] and [tx.Commit], the
    last three given the statements executed in the transaction. *)
Record driver := {
  createMigrationsTable : option E;
  countApplied : string -> Z + E;
  BeginTxx : option E;
  ExecContext : list runes -> runes -> option E;
  insertRecord : list runes -> string -> option E;
  deleteRecord : list runes -> string -> option E;
  Commit : list runes -> option E
}.

(** What an error wraps through [%w]. *)
Inductive cause :=
| Driver (e : E)
| Script (x : execError E).

(** An error made by [fmt.Errorf(msg, err)]. *)
Inductive applyError :=
| Errorf (msg : string) (c : cause).

(** [isMigrationApplied]: [count > 0] and the error; the count stays 0
    when the query fails. *)
Definition isMigrationApplied (d : driver) (name : string)
  : bool * option E :=
  match countApplied d name with
  | inl count => ((0 <? count)%Z, None)
  | inr e => (false, Some e)
  end.

(** The deferred function: [rollback()] unless [rollback] was set to
    nil. *)
Definition deferred (rollbackSet : bool) : list event :=
  if rollbackSet then [EvRollback] else [].

(** [Apply]: the error and the calls made, in order.  The calls of the
    logger are left out. *)
Definition Apply (d : driver) (migration : Migration)
  : option applyError * list event :=
  match createMigrationsTable d with
  | Some e =>
      (Some (Errorf "failed to create migrations table: %w" (Driver e)),
       [EvCreateTable])
  | None =>
      let checked := [EvCreateTable; EvIsApplied (Name migration)] in
      match isMigrationApplied d (Name migration) with
      | (_, Some e) =>
          (Some (Errorf "failed to check migration status: %w" (Driver e)),
           checked)
      | (true, None) => (None, checked)
      | (false, None) =>
          match BeginTxx d with
          | Some e =>
              (Some (Errorf "failed to begin transaction: %w" (Driver e)),
               checked ++ [EvBegin])
          | None =>
              let '(err, executed) :=
                executeMigration ToUpper E (ExecContext d) (UpSQL migration) in
              let ran := checked ++ [EvBegin] ++ map EvExec executed in
              match err with
              | Some x =>
                  (Some (Errorf "failed to execute migration: %w" (Script x)),
                   ran ++ deferred true)
              | None =>
                  match insertRecord d executed (Name migration) with
                  | Some e =>
                      (Some (Errorf "failed to record migration: %w" (Driver e)),
                       ran ++ [EvRecord (Name migration)] ++ deferred true)
                  | None =>
                      match Commit d executed with
                      | Some e =>
                          (Some (Errorf "failed to commit migration: %w"
                                        (Driver e)),
                           ran ++ [EvRecord (Name migration); EvCommit]
                               ++ deferred true)
                      | None =>
                          (None,
                           ran ++ [EvRecord (Name migration); EvCommit]
                               ++ deferred false)
                      end
                  end
              end
          end
      end
  end.

(** [Rollback]. *)
Definition Rollback (d : driver) (migration : Migration)
  : option applyError * list event :=
  let checked := [EvIsApplied (Name migration)] in
  match isMigrationApplied d (Name migration) with
  | (_, Some e) =>
      (Some (Errorf "failed to check migration status: %w" (Driver e)),
       checked)
  | (false, None) => (None, checked)
  | (true, None) =>
      match BeginTxx d with
      | Some e =>
          (Some (Errorf "failed to begin transaction: %w" (Driver e)),
           checked ++ [EvBegin])
      | None =>
          let '(err, executed) :=
            executeRollback E (ExecContext d) (DownSQL migration) in
          let ran := checked ++ [EvBegin] ++ map EvExec executed in
          match err with
          | Some x =>
              (Some (Errorf "failed to execute rollback: %w" (Script x)),
               ran ++ deferred true)
          | None =>
              match deleteRecord d executed (Name migration) with
              | Some e =>
                  (Some (Errorf "failed to remove migration record: %w"
                                (Driver e)),
                   ran ++ [EvRemove (Name migration)] ++ deferred true)
              | None =>
                  match Commit d executed with
                  | Some e =>
                      (Some (Errorf "failed to commit rollback: %w" (Driver e)),
                       ran ++ [EvRemove (Name migration); EvCommit]
                           ++ deferred true)
                  | None =>
                      (None,
                       ran ++ [EvRemove (Name migration); EvCommit]
                           ++ deferred false)
                  end
              end
          end
      end
  end.

(** The statements that a list of calls handed to the transaction. *)
Fixpoint executedOf (evs : list event) : list runes :=
  match evs with
  | [] => []
  | EvExec stmt :: rest => stmt :: executedOf rest
  | _ :: rest => executedOf rest
  end.

(** Every statement of [todo] succeeds when run after the ones before
    it. *)
Definition allSucceed (d : driver) (todo : list runes) : Prop :=
  forall before stmt after,
    todo = before ++ stmt :: after -> ExecContext d before stmt = None.

End Apply.

(** A database on which every call succeeds and no migration is recorded,
    and a migration of two statements. *)
Definition emptyDatabase : driver nat :=
  {| createMigrationsTable := None;
     countApplied := fun _ => inl 0%Z;
     BeginTxx := None;
     ExecContext := fun _ _ => None;
     insertRecord := fun _ _ => None;
     deleteRecord := fun _ _ => None;
     Commit := fun _ => None |}.

(** The same database once the migration is recorded. *)
Definition recordedDatabase : driver nat :=
  {| createMigrationsTable := None;
     countApplied := fun _ => inl 1%Z;
     BeginTxx := None;
     ExecContext := fun _ _ => None;
     insertRecord := fun _ _ => None;
     deleteRecord := fun _ _ => None;
     Commit := fun _ => None |}.

Definition twoTables : Migration :=
  {| Name := "001_init";
     UpSQL := lit "CREATE TABLE a (id int); CREATE TABLE b (id int);";
     DownSQL := lit "DROP TABLE b; DROP TABLE a;" |}.

End MigratorApply.

(* ================================================================== *)
(** ** internal/storm/migrator.go: the URLs of the temporary database *)
(* ================================================================== *)

Module TempDB.
Import GoStrings.

(** [strings.LastIndex(s, sub)]: the byte offset of the last occurrence,
    or [None] where Go returns -1. *)
Fixpoint LastIndex (s sub : string) : option nat :=
  match s with
  | EmptyString => if HasPrefix s sub then Some 0 else None
  | String _ s' =>
      match LastIndex s' sub with
      | Some i => Some (S i)
      | None => if HasPrefix s sub then Some 0 else None
      end
  end.

(** [s[:i]]. *)
Definition upto (i : nat) (s : string) : string := substring 0 i s.

(** [buildTempDBURL]. *)
Definition buildTempDBURL (baseURL tempDBName : string) : string :=
  match LastIndex baseURL "/" with
  | Some idx =>
      match Index (from idx baseURL) "?" with
      | Some queryIdx =>
          (upto (idx + 1) baseURL ++ tempDBName
           ++ from (idx + queryIdx) baseURL)%string
      | None => (upto (idx + 1) baseURL ++ tempDBName)%string
      end
  | None => baseURL
  end.

(** [buildAdminDBURL]. *)
Definition buildAdminDBURL (baseURL : string) : string :=
  match LastIndex baseURL "/" with
  | Some idx =>
      match Index (from idx baseURL) "?" with
      | Some queryIdx =>
          (upto (idx + 1) baseURL ++ "postgres"
           ++ from (idx + queryIdx) baseURL)%string
      | None => (upto (idx + 1) baseURL ++ "postgres")%string
      end
  | None => baseURL
  end.

(** The bytes [/] and [?]. *)
Definition slash : ascii := "/"%char.
Definition qmark : ascii := "?"%char.

End TempDB.

(* ================================================================== *)
(** ** [Repository.Query] on the repositories of a store *)
(* ================================================================== *)

Module RepoQuery.
Import Query.

Section Store.

Variable T : Type.
Variable DB : Type.

(** A [*Query[T]]: the repository that its [repo] field points to, and
    its other fields with what they read through that pointer. *)
Record QueryRef := {
  receiver : Repo.addr;
  fields : Query T DB
}.

(** An [AuthorizeFunc[T]]: from the context and a query to a query. *)
Definition AuthorizeRef := nat -> QueryRef -> QueryRef.

(** The store of the repositories, with these authorization functions and
    the middlewares of the pipeline. *)
Definition repositories := Repo.heap AuthorizeRef (QueryMiddleware T DB).

(** What a query reads through its [repo] pointer [a]: the table name of
    the metadata and the middleware list of the manager, as the store
    holds them; the column names in the order [cols] in which the range
    over the map [metadata.Columns] yields them in this call of
    [Columns()]; the relationships [rels] of the metadata.  [None] is a
    nil or dangling pointer. *)
Definition viewAt (h : repositories) (a : Repo.addr) (cols : list string)
  (rels : string -> option bool) : option (Repository T DB) :=
  match nth_error (Repo.repos h) a with
  | None => None
  | Some rv =>
      match Repo.metadata rv, Repo.middlewareManager rv with
      | Some m, Some mm =>
          match nth_error (Repo.metas h) m, nth_error (Repo.managers h) mm with
          | Some md, Some mws =>
              Some {| tableName := Repo.TableName md; columns := cols;
                      middlewares := mws; relationships := rels |}
          | _, _ => None
          end
      | _, _ => None
      end
  end.

(** The loop [for _, authFunc := range r.authorizeFuncs]; the call of a
    nil function is a run-time panic ([None]). *)
Definition applyAll (c : nat) (funcs : list (option AuthorizeRef))
  (start : option QueryRef) : option QueryRef :=
  fold_left (fun query authFunc =>
               match query, authFunc with
               | Some q, Some f => Some (f c q)
               | _, _ => None
               end)
            funcs start.

(** The query that [Repository.Query] makes before the loop, on the
    repository at [a]. *)
Definition freshAt (a : Repo.addr) (r : Repository T DB) (c : nat)
  : QueryRef :=
  {| receiver := a; fields := newQuery T DB r [] c |}.

(** [Query(ctx)] on the repository at [a]. *)
Definition QueryAt (h : repositories) (a : Repo.addr) (cols : list string)
  (rels : string -> option bool) (c : nat) : option QueryRef :=
  match viewAt h a cols rels, Repo.authList h a with
  | Some r, Some funcs => applyAll c funcs (Some (freshAt a r c))
  | _, _ => None
  end.

End Store.

(** A store with one repository, and [q.Limit(10)] as an authorization
    function. *)
Definition queryHeap : repositories nat unit :=
  {| Repo.arrays := [[]]; Repo.managers := [[]];
     Repo.metas := [Repo.usersMeta]; Repo.repos := [Repo.baseRepo] |}.

Definition tenRows : AuthorizeRef nat unit :=
  fun _ q => {| receiver := receiver nat unit q;
                fields := Limit nat unit (fields nat unit q) 10%N |}.

Definition noRelationships : string -> option bool := fun _ => None.

End RepoQuery.

(* ================================================================== *)
(** * Properties *)
(* ================================================================== *)

(** ** The statement splitter *)

Module MigratorFacts.
Import Migrator.

Lemma noRune_cons (r c : rune) (s : runes) :
  noRune r (c :: s) -> c <> r /\ noRune r s.
Proof.
  intros H. split.
  - apply H. now left.
  - intros x Hx. apply H. now right.
Qed.

(** Inside a dollar quote every rune other than [$] is copied. *)
Lemma splitLoop_inside (body rest cur : runes) (stmts : list runes) :
  noRune r_dollar body ->
  splitLoop (body ++ rest) true cur stmts
  = splitLoop rest true (cur ++ body) stmts.
Proof.
  revert cur. induction body as [|c body IH]; intros cur Hno.
  - now rewrite app_nil_r.
  - apply noRune_cons in Hno as [Hc Hno].
    cbn [app splitLoop].
    apply N.eqb_neq in Hc. rewrite Hc. cbn [negb andb].
    rewrite IH by assumption.
    now rewrite <- app_assoc.
Qed.

(** An anonymous dollar quote is copied whole, whatever semicolons it
    holds. *)
Lemma anonymous_dollar_quote_kept (body rest cur : runes)
  (stmts : list runes) :
  noRune r_dollar body ->
  splitLoop (r_dollar :: r_dollar :: body ++ r_dollar :: r_dollar :: rest)
            false cur stmts
  = splitLoop rest false
      (cur ++ r_dollar :: r_dollar :: body ++ [r_dollar; r_dollar]) stmts.
Proof.
  intros Hno.
  cbn [splitLoop]. rewrite N.eqb_refl. cbn [negb].
  rewrite splitLoop_inside by assumption.
  cbn [splitLoop]. rewrite N.eqb_refl. cbn [negb].
  f_equal. repeat rewrite <- app_assoc. reflexivity.
Qed.

(** Outside a dollar quote the first semicolon ends the statement,
    whatever runes other than [$] and [;] come before it. *)
Lemma semicolon_splits_outside_dollar_quote (pre post cur : runes)
  (stmts : list runes) :
  noRune r_dollar pre -> noRune r_semi pre ->
  splitLoop (pre ++ r_semi :: post) false cur stmts
  = splitLoop post false [] (flush (cur ++ pre ++ [r_semi]) stmts).
Proof.
  revert cur. induction pre as [|c pre IH]; intros cur Hd Hs.
  - reflexivity.
  - apply noRune_cons in Hd as [Hc Hd].
    apply noRune_cons in Hs as [Hc' Hs].
    cbn [app splitLoop].
    apply N.eqb_neq in Hc. apply N.eqb_neq in Hc'.
    rewrite Hc, Hc'. cbn [negb andb].
    rewrite IH by assumption.
    now rewrite <- app_assoc.
Qed.

(** The example of the specification. *)
Lemma do_block_is_one_statement :
  splitSQLStatements (lit "DO $$ BEGIN SELECT 1; END $$;")
  = [lit "DO $$ BEGIN SELECT 1; END $$;"].
Proof. vm_compute. reflexivity. Qed.

(** A statement of line comments only is dropped. *)
Lemma comment_only_statement_dropped :
  splitSQLStatements
    (lit "-- set up;" ++ [r_newline] ++ lit "SELECT 1;" ++ [r_newline]
     ++ lit "-- done" ++ [r_newline])
  = [lit "SELECT 1;"].
Proof. vm_compute. reflexivity. Qed.

(** C5: the splitter is claimed never to split at a semicolon inside a
    dollar-quoted string, anonymous or tagged.  The anonymous example of
    the specification is one statement, but the body of a tagged quote
    [$fn$ ... $fn$] is split at its semicolon: the function definition
    comes out as two statements. *)
Theorem C5_tagged_dollar_quote_is_split :
  splitSQLStatements (lit "DO $$ BEGIN SELECT 1; END $$;")
  = [lit "DO $$ BEGIN SELECT 1; END $$;"]
  /\ splitSQLStatements
       (lit "CREATE FUNCTION f() RETURNS int AS $fn$ BEGIN RETURN 1; END $fn$ LANGUAGE plpgsql;")
     = [lit "CREATE FUNCTION f() RETURNS int AS $fn$ BEGIN RETURN 1;";
        lit "END $fn$ LANGUAGE plpgsql;"].
Proof. split; vm_compute; reflexivity. Qed.

(** C10: a single-quoted literal gets no special treatment: the input
    [INSERT INTO t VALUES ('a;b');] is split at the semicolon inside the
    literal and gives two statements. *)
Theorem C10_single_quoted_literal_is_split :
  exists sql : runes,
    sql = lit "INSERT INTO t VALUES ('a;b');"
    /\ splitSQLStatements sql
       = [lit "INSERT INTO t VALUES ('a;"; lit "b');"]
    /\ 1 < List.length (splitSQLStatements sql).
Proof.
  eexists. split; [reflexivity|]. split.
  - vm_compute. reflexivity.
  - vm_compute. lia.
Qed.

End MigratorFacts.

(** ** The string-array field *)

Module PqArraysFacts.
Import GoStrings PqArrays.

Lemma sapp_nil_r (s : string) : (s ++ EmptyString)%string = s.
Proof. induction s as [|a s IH]; simpl; [reflexivity | now rewrite IH]. Qed.

Lemma sapp_assoc (a b c : string) :
  ((a ++ b) ++ c)%string = (a ++ (b ++ c))%string.
Proof. induction a as [|x a IH]; simpl; [reflexivity | now rewrite IH]. Qed.

Lemma slength_app (a b : string) :
  String.length (a ++ b)%string = String.length a + String.length b.
Proof. induction a as [|x a IH]; simpl; [reflexivity | now rewrite IH]. Qed.

Lemma from_app (a b : string) : from (String.length a) (a ++ b)%string = b.
Proof. induction a as [|x a IH]; simpl; [now destruct b | exact IH]. Qed.

Lemma HasSuffix_app (a p : string) : HasSuffix (a ++ p)%string p = true.
Proof.
  unfold HasSuffix. rewrite slength_app.
  replace (String.length a + String.length p - String.length p)
    with (String.length a) by lia.
  rewrite from_app, String.eqb_refl.
  rewrite andb_true_r. apply Nat.leb_le. lia.
Qed.

Lemma substring_prefix (a b : string) :
  substring 0 (String.length a) (a ++ b)%string = a.
Proof.
  induction a as [|x a IH]; simpl.
  - now destruct b.
  - now rewrite IH.
Qed.

Lemma replaceFrom_quote (s : string) (n : Z) :
  (n < 0)%Z ->
  replaceFrom (String quote EmptyString)
              (String quote (String quote EmptyString)) s 0 n
  = doubled s.
Proof.
  revert n. induction s as [|a s IH]; intros n Hn; [reflexivity|].
  cbn [replaceFrom doubled HasPrefix String.length Nat.sub].
  assert (Hz : (n =? 0)%Z = false) by (apply Z.eqb_neq; lia).
  rewrite Hz. cbn [negb andb]. rewrite andb_true_r.
  destruct (Ascii.eqb a quote).
  - cbn [append]. rewrite IH by lia. reflexivity.
  - rewrite IH by lia. reflexivity.
Qed.

Lemma escapeElem_doubled (s : string) :
  escapeElem s = String quote (doubled s ++ String quote EmptyString)%string.
Proof.
  unfold escapeElem, ReplaceAll, Replace.
  rewrite replaceFrom_quote by lia. reflexivity.
Qed.

Lemma parse_in_quotes (x tail cur : string) (res : option (list string)) :
  afterElem tail ->
  parseLoop (doubled x ++ String quote tail)%string true cur res
  = parseLoop tail false (cur ++ x)%string res.
Proof.
  intros Htail. revert cur.
  induction x as [|a x IH]; intros cur.
  - cbn [doubled append parseLoop]. rewrite Ascii.eqb_refl.
    rewrite sapp_nil_r.
    destruct tail as [|c tail]; [reflexivity|].
    cbn in Htail. apply Ascii.eqb_neq in Htail. now rewrite Htail.
  - cbn [doubled]. destruct (Ascii.eqb a quote) eqn:Ha.
    + apply Ascii.eqb_eq in Ha. subst a.
      cbn [append parseLoop]. rewrite Ascii.eqb_refl.
      rewrite IH. now rewrite sapp_assoc.
    + cbn [append parseLoop]. rewrite Ha.
      destruct (Ascii.eqb a comma); cbn [negb];
        rewrite IH; now rewrite sapp_assoc.
Qed.

Lemma parse_elem (x tail cur : string) (res : option (list string)) :
  afterElem tail ->
  parseLoop (escapeElem x ++ tail)%string false cur res
  = parseLoop tail false (cur ++ x)%string res.
Proof.
  intros Htail. rewrite escapeElem_doubled.
  cbn [append]. rewrite sapp_assoc. cbn [append parseLoop].
  rewrite Ascii.eqb_refl. now apply parse_in_quotes.
Qed.

Lemma append1_toList (res : option (list string)) (x : string) :
  append1 res x = Some (toList res ++ [x]).
Proof. now destruct res. Qed.

Lemma len_append1 (res : option (list string)) (x : string) :
  len (append1 res x) <> 0.
Proof.
  destruct res as [l|]; simpl; [rewrite length_app; simpl; lia | lia].
Qed.

(** The loop of [parseArray] on a literal written by [Value]. *)
Lemma parse_join (l : list string) (res : option (list string)) :
  l <> [] ->
  len res <> 0 \/ l <> [EmptyString] ->
  parseLoop (Join (map escapeElem l) ",") false EmptyString res
  = Some (toList res ++ l).
Proof.
  revert res. induction l as [|x l IH]; intros res Hne Hok; [congruence|].
  destruct l as [|y l].
  - cbn [map Join].
    rewrite <- (sapp_nil_r (escapeElem x)).
    rewrite parse_elem by exact I.
    cbn [append parseLoop].
    destruct (Nat.eqb (String.length x) 0) eqn:Hx.
    + destruct (Nat.eqb (len res) 0) eqn:Hr.
      * exfalso. apply Nat.eqb_eq in Hx, Hr.
        destruct Hok as [Hok|Hok]; [now apply Hok|].
        apply Hok. destruct x; [reflexivity | discriminate].
      * cbn [negb orb]. apply append1_toList.
    + cbn [negb orb]. apply append1_toList.
  - change (Join (map escapeElem (x :: y :: l)) ",")
      with (escapeElem x ++ String comma (Join (map escapeElem (y :: l)) ","))%string.
    rewrite parse_elem.
    2:{ cbn. unfold comma, quote. discriminate. }
    cbn [append].
    change (parseLoop (String comma (Join (map escapeElem (y :: l)) ","))
                      false x res)
      with (parseLoop (Join (map escapeElem (y :: l)) ",") false EmptyString
                      (append1 res x)).
    rewrite IH.
    + rewrite append1_toList. cbn [toList]. now rewrite <- app_assoc.
    + discriminate.
    + left. apply len_append1.
Qed.

Lemma Join_escaped_head (x : string) (l : list string) :
  exists rest, Join (map escapeElem (x :: l)) "," = String quote rest.
Proof.
  destruct l as [|y l]; cbn [map Join]; rewrite escapeElem_doubled;
    eexists; reflexivity.
Qed.

(** Every sequence other than the one holding just the empty string
    comes back from [Value] then [Scan]. *)
Lemma roundTrip_other (sa : StringArray) :
  sa <> Some [EmptyString] -> roundTrip sa = inl sa.
Proof.
  intros Hne. destruct sa as [l|]; [|reflexivity].
  destruct l as [|x l]; [reflexivity|].
  unfold roundTrip, Value, asScanned, Scan.
  set (J := Join (map escapeElem (x :: l)) ",").
  destruct (Join_escaped_head x l) as [rest HJ]. fold J in HJ.
  assert (Hin : inner ("{" ++ J ++ "}")%string = J).
  { unfold inner. cbn [append String.length substring].
    rewrite slength_app. cbn [String.length].
    replace (S (String.length J + 1) - 2) with (String.length J) by lia.
    apply substring_prefix. }
  assert (Hsuf : HasSuffix ("{" ++ J ++ "}")%string "}" = true).
  { rewrite <- sapp_assoc. apply HasSuffix_app. }
  unfold parseArray. rewrite Hin, Hsuf.
  rewrite HJ. cbn [append String.eqb Ascii.eqb Bool.eqb HasPrefix orb andb negb
                   quote].
  rewrite <- HJ. unfold J. rewrite parse_join.
  - reflexivity.
  - discriminate.
  - right. intros E. apply Hne. now rewrite E.
Qed.

(** The three fixed points of the specification. *)
Lemma scan_nil : Scan ScanNil = inl None.
Proof. reflexivity. Qed.

Lemma value_nil : Value None = None.
Proof. reflexivity. Qed.

Lemma value_empty : Value (Some []) = Some "{}".
Proof. reflexivity. Qed.

(** C6: [Value] then [Scan] is claimed to give back every sequence,
    elements equal to the empty string included.  The sequence holding
    just the empty string does not come back: its literal is a pair of
    braces around a pair of quotes, and [parseArray] reads it as the nil
    sequence, because at the end of the loop [current] is empty and nothing
    was appended.  The nil and empty sequences behave as claimed. *)
Theorem C6_single_empty_string_comes_back_nil :
  Value (Some [EmptyString])
  = Some (String "{" (String quote (String quote "}")))
  /\ roundTrip (Some [EmptyString]) = inl None
  /\ roundTrip (Some [EmptyString]) <> inl (Some [EmptyString])
  /\ Scan ScanNil = inl None
  /\ Value None = None
  /\ Value (Some []) = Some "{}".
Proof.
  repeat split; try reflexivity.
  vm_compute. discriminate.
Qed.

End PqArraysFacts.

(** ** The rendering of [Query.Update] *)

Module QueryUpdateFacts.
Import GoStrings Values Squirrel QueryUpdate.
Import PqArraysFacts.

Lemma count_app (c : ascii) (a b : string) :
  count c (a ++ b)%string = count c a + count c b.
Proof.
  induction a as [|x a IH]; simpl; [reflexivity | rewrite IH; lia].
Qed.

Lemma count_le_length (c : ascii) (s : string) : count c s <= String.length s.
Proof.
  induction s as [|a s IH]; simpl; [lia|].
  destruct (Ascii.eqb a c); lia.
Qed.

Lemma Contains_qmark (s : string) :
  Contains s "?" = negb (Nat.eqb (count qmark s) 0).
Proof.
  induction s as [|a s IH]; [reflexivity|].
  cbn [Contains HasPrefix count]. fold qmark.
  destruct (Ascii.eqb a qmark); cbn [andb orb Nat.add]; [reflexivity|].
  exact IH.
Qed.

Lemma replaceFrom_done (old new s : string) :
  replaceFrom old new s 0 0 = s.
Proof.
  induction s as [|a s IH]; simpl; [reflexivity | now rewrite IH].
Qed.

Lemma Replace_first_here (e new : string) :
  Replace (String qmark e) "?" new 1 = (new ++ e)%string.
Proof.
  unfold Replace. cbn [replaceFrom HasPrefix String.length Nat.sub Z.eqb negb].
  fold qmark. rewrite Ascii.eqb_refl. cbn [andb Z.sub Z.add Z.opp Z.pos_sub].
  now rewrite replaceFrom_done.
Qed.

Lemma Replace_skips_prefix (pre e new : string) :
  count qmark pre = 0 ->
  Replace (pre ++ e)%string "?" new 1 = (pre ++ Replace e "?" new 1)%string.
Proof.
  unfold Replace. induction pre as [|a pre IH]; intros Hc; [reflexivity|].
  cbn [count] in Hc.
  destruct (Ascii.eqb a qmark) eqn:Ha; [simpl in Hc; lia|].
  cbn [append replaceFrom HasPrefix]. fold qmark. rewrite Ha.
  cbn [andb]. rewrite andb_false_r.
  f_equal. apply IH. exact Hc.
Qed.

Lemma digits_no_qmark (d : Decimal.uint) :
  count qmark (DecimalString.NilEmpty.string_of_uint d) = 0.
Proof. induction d; simpl; auto. Qed.

Lemma placeholder_no_qmark (n : Z) : count qmark (placeholder n) = 0.
Proof.
  unfold placeholder, itoa. cbn [append count].
  destruct (Z.to_int n) as [d|d]; cbn [DecimalString.NilZero.string_of_int].
  - unfold DecimalString.NilZero.string_of_uint.
    destruct d; try apply digits_no_qmark. reflexivity.
  - cbn [count]. unfold DecimalString.NilZero.string_of_uint.
    destruct d; try apply (digits_no_qmark (_ d)); try reflexivity.
    all: apply digits_no_qmark.
Qed.

Lemma numbered_no_qmark (e : string) (n : Z) : count qmark (numbered e n) = 0.
Proof.
  revert n. induction e as [|a e IH]; intros n; [reflexivity|].
  cbn [numbered]. fold qmark. destruct (Ascii.eqb a qmark) eqn:Ha.
  - rewrite count_app, placeholder_no_qmark, IH. reflexivity.
  - cbn [count]. rewrite Ha, IH. reflexivity.
Qed.

(** The scalar loop, from an expression whose part [pre] is already free
    of question marks: it ends, and it has numbered the question marks of
    [e] consecutively and appended one copy of the value for each. *)
Lemma bindScalarLoop_numbers (e : string) :
  forall (fuel : nat) (pre : string) (v : value) (args : list value)
         (argIndex : Z),
    count qmark pre = 0 ->
    count qmark e <= fuel ->
    bindScalarLoop fuel (pre ++ e)%string v args argIndex
    = Some ((pre ++ numbered e argIndex)%string,
            args ++ repeat v (count qmark e),
            (argIndex + Z.of_nat (count qmark e))%Z).
Proof.
  induction e as [|a e IH]; intros fuel pre v args argIndex Hpre Hfuel.
  - rewrite sapp_nil_r. cbn [numbered count repeat].
    rewrite sapp_nil_r, app_nil_r, Z.add_0_r.
    destruct fuel; cbn [bindScalarLoop];
      rewrite Contains_qmark, Hpre; reflexivity.
  - cbn [numbered count] in *. fold qmark in *.
    destruct (Ascii.eqb a qmark) eqn:Ha.
    + apply Ascii.eqb_eq in Ha. subst a.
      destruct fuel as [|fuel]; [simpl in Hfuel; lia|].
      cbn [bindScalarLoop].
      rewrite Contains_qmark, count_app. cbn [count]. rewrite Ascii.eqb_refl.
      replace (Nat.eqb (count qmark pre + (1 + count qmark e)) 0) with false
        by (symmetry; apply Nat.eqb_neq; lia).
      cbn [negb].
      rewrite Replace_skips_prefix by assumption.
      rewrite Replace_first_here.
      rewrite <- sapp_assoc.
      rewrite IH.
      * rewrite sapp_assoc. f_equal. f_equal; [f_equal|].
        -- rewrite <- app_assoc. reflexivity.
        -- cbn [Nat.add]. lia.
      * rewrite count_app, Hpre, placeholder_no_qmark. reflexivity.
      * simpl in Hfuel. lia.
    + replace (pre ++ String a e)%string
        with ((pre ++ String a EmptyString) ++ e)%string
        by (rewrite sapp_assoc; reflexivity).
      rewrite IH.
      * rewrite sapp_assoc. reflexivity.
      * rewrite count_app. cbn [count]. rewrite Ha, Hpre. reflexivity.
      * simpl in Hfuel. lia.
Qed.

Lemma bindScalar_numbers (e : string) (v : value) (args : list value)
  (argIndex : Z) :
  bindScalar e v args argIndex
  = Some (numbered e argIndex, args ++ repeat v (count qmark e),
          (argIndex + Z.of_nat (count qmark e))%Z).
Proof.
  unfold bindScalar.
  apply (bindScalarLoop_numbers e (String.length e) EmptyString).
  - reflexivity.
  - apply count_le_length.
Qed.

(** C9: for an action whose value is nil, the expression is left as it is
    and no argument is appended; for an action whose value is not nil and
    not a list and whose expression holds [k >= 1] question marks, the loop
    ends with all [k] question marks rewritten to the consecutive indices
    [argIndex], ..., [argIndex + k - 1] (no question mark is left) and [k]
    copies of the value appended to the arguments. *)
Theorem C9_scalar_action_binds_every_placeholder
  (a : Action) (args : list value) (argIndex : Z) :
  (Value a = VNil -> bindAction a args argIndex = Some (Expression a, args, argIndex))
  /\ (forall k : nat,
        isNil (Value a) = false -> asSlice (Value a) = None ->
        count qmark (Expression a) = k -> 1 <= k ->
        bindAction a args argIndex
        = Some (numbered (Expression a) argIndex,
                args ++ repeat (Value a) k,
                (argIndex + Z.of_nat k)%Z)
        /\ Contains (numbered (Expression a) argIndex) "?" = false).
Proof.
  split.
  - intros Hnil. unfold bindAction. now rewrite Hnil.
  - intros k Hnn Hns Hk _. unfold bindAction. rewrite Hnn, Hns. cbn [negb].
    rewrite bindScalar_numbers, Hk. split; [reflexivity|].
    now rewrite Contains_qmark, numbered_no_qmark.
Qed.

Lemma C9_witness :
  isNil (Value setPath) = false /\ asSlice (Value setPath) = None
  /\ count qmark (Expression setPath) = 2 /\ 1 <= 2
  /\ bindAction setPath [VInt 7] 2
     = Some ("meta = f(meta, $2, $3)", [VInt 7; VString "p"; VString "p"], 4%Z).
Proof.
  split; [reflexivity|]. split; [reflexivity|]. split; [reflexivity|].
  split; [lia|].
  exact (proj1 (proj2 (C9_scalar_action_binds_every_placeholder setPath [VInt 7] 2)
                      2 eq_refl eq_refl eq_refl (le_S 1 1 (le_n 1)))).
Defined.

(** The example of the specification: the numbering is the claimed one;
    squirrel puts the conjunction in parentheses. *)
Lemma update_example :
  render "users" [Leaf "is_active = ?" [VBool true]] [setName; incLogin]
  = Some (inl {| baseSQL := "UPDATE users SET name = $1, login_count = login_count + $2 WHERE (is_active = $3)";
                 boundArgs := [VString "X"; VInt 1; VBool true] |}).
Proof. vm_compute. reflexivity. Qed.

(** C1: the placeholders of the SET clause and then of the WHERE clause
    are claimed to be numbered by one increasing counter, so that every
    argument position matches its placeholder.  With one bound action and
    two conditions the renumbering of the WHERE clause first turns [$1]
    into [$2] and then every [$2] into [$3]: both conditions come out as
    [$3], no placeholder refers to the second argument. *)
Theorem C1_where_placeholders_collide :
  render "users" [Leaf "a = ?" [VInt 1]; Leaf "b = ?" [VInt 2]] [setName]
  = Some (inl {| baseSQL := "UPDATE users SET name = $1 WHERE (a = $3 AND b = $3)";
                 boundArgs := [VString "X"; VInt 1; VInt 2] |})
  /\ selectOneWhere [Leaf "a = ?" [VInt 1]; Leaf "b = ?" [VInt 2]]
     = inl ("SELECT 1 WHERE (a = $1 AND b = $2)", [VInt 1; VInt 2])
  /\ renumber "WHERE (a = $1 AND b = $2)" 2 0 2 = "WHERE (a = $3 AND b = $3)".
Proof. repeat split; vm_compute; reflexivity. Qed.

End QueryUpdateFacts.

(** ** The authorization list of a repository *)

Module RepoFacts.
Import Repo.

Section Lists.

Context {A : Type}.

Lemma setNth_last (l : list A) (x y : A) :
  setNth (l ++ [x]) (List.length l) y = l ++ [y].
Proof. induction l as [|a l IH]; simpl; [reflexivity | now rewrite IH]. Qed.

Lemma length_setNth (l : list A) (i : nat) (x : A) :
  List.length (setNth l i x) = List.length l.
Proof.
  revert i. induction l as [|a l IH]; intros [|i]; simpl; auto.
Qed.

Lemma nth_error_setNth_same (l : list A) (i : nat) (x : A) :
  i < List.length l -> nth_error (setNth l i x) i = Some x.
Proof.
  revert i. induction l as [|a l IH]; intros [|i] Hi; simpl in *;
    try lia; [reflexivity | apply IH; lia].
Qed.

Lemma skipn_repeat_succ (x : A) (n : nat) : skipn n (repeat x (n + 1)) = [x].
Proof. induction n as [|n IH]; simpl; [reflexivity | exact IH]. Qed.

End Lists.

Section Heap.

Variable F : Type.
Variable M : Type.

Lemma elems_length (h : heap F M) (s : slice) :
  validSlice h s -> List.length (elems h s) = slen s.
Proof.
  intros [_ Hlen]. unfold elems. rewrite length_firstn. lia.
Qed.

Lemma elems_frame (h : heap F M) (s : slice) (arr : list (option F))
  (ms : list (list M)) (mds : list ModelMetadata) (rs : list Repository) :
  validSlice h s ->
  elems {| arrays := arrays h ++ [arr]; managers := ms; metas := mds;
           repos := rs |} s
  = elems h s.
Proof.
  intros [Hptr _]. unfold elems. cbn [arrays].
  now rewrite app_nth1.
Qed.

(** [Authorize] on a valid receiver: one new backing array that holds the
    receiver's list followed by [fn], one new repository; nothing else in
    the store changes. *)
Lemma Authorize_eq (h : heap F M) (r : addr) (rv : Repository) (fn : option F) :
  nth_error (repos h) r = Some rv ->
  validSlice h (authorizeFuncs rv) ->
  Authorize h r fn
  = Some (List.length (repos h),
          {| arrays := arrays h ++ [elems h (authorizeFuncs rv) ++ [fn]];
             managers := managers h;
             metas := metas h;
             repos := repos h
                      ++ [{| db := db rv; metadata := metadata rv;
                             middlewareManager := middlewareManager rv;
                             authorizeFuncs :=
                               {| sptr := List.length (arrays h);
                                  slen := slen (authorizeFuncs rv) + 1;
                                  scap := slen (authorizeFuncs rv) + 1 |} |}] |}).
Proof.
  intros Hr Hv. unfold Authorize. rewrite Hr.
  set (old := authorizeFuncs rv) in *.
  pose proof (elems_length h old Hv) as HE.
  unfold make, store, copy, newRepo.
  cbn [arrays managers metas repos sptr slen fst snd].
  replace (slen old <? slen old + 1) with true
    by (symmetry; apply Nat.ltb_lt; lia).
  replace (Nat.min (slen old + 1) (slen old)) with (slen old) by lia.
  rewrite nth_middle, skipn_repeat_succ.
  rewrite (elems_frame h old _ _ _ _ Hv).
  rewrite firstn_all2 by lia.
  rewrite setNth_last, nth_middle.
  replace (setNth (elems h old ++ [None]) (slen old) fn)
    with (elems h old ++ [fn])
    by (rewrite <- HE; symmetry; apply setNth_last).
  rewrite setNth_last.
  reflexivity.
Qed.

Lemma authList_old (h : heap F M) (p : addr) (pv : Repository)
  (arr : list (option F)) (rv' : Repository) :
  nth_error (repos h) p = Some pv ->
  validSlice h (authorizeFuncs pv) ->
  authList {| arrays := arrays h ++ [arr]; managers := managers h;
                  metas := metas h; repos := repos h ++ [rv'] |} p
  = authList h p.
Proof.
  intros Hp Hv. unfold authList. cbn [repos].
  rewrite nth_error_app1 by (apply nth_error_Some; congruence).
  rewrite Hp. cbn [option_map]. f_equal.
  now apply elems_frame.
Qed.

(** The list of the repository that [Authorize] returns. *)
Lemma authList_new (h : heap F M) (rv rv' : Repository) (fn : option F) :
  validSlice h (authorizeFuncs rv) ->
  authorizeFuncs rv'
  = {| sptr := List.length (arrays h);
       slen := slen (authorizeFuncs rv) + 1;
       scap := slen (authorizeFuncs rv) + 1 |} ->
  authList {| arrays := arrays h ++ [elems h (authorizeFuncs rv) ++ [fn]];
              managers := managers h; metas := metas h;
              repos := repos h ++ [rv'] |} (List.length (repos h))
  = Some (elems h (authorizeFuncs rv) ++ [fn]).
Proof.
  intros Hv Hs. unfold authList. cbn [repos].
  rewrite nth_error_app2, Nat.sub_diag by lia.
  cbn [nth_error option_map]. rewrite Hs. f_equal.
  unfold elems at 1. cbn [arrays sptr slen].
  rewrite nth_middle. apply firstn_all2.
  rewrite length_app, (elems_length h _ Hv). simpl. lia.
Qed.

(** C3: [Authorize] leaves the receiver and its authorization list as they
    were, returns a new repository whose list is the receiver's list with
    [fn] appended (one element longer), held in a backing array of its
    own; every repository that existed before, of this chain or another,
    keeps its list, and no backing array that existed is written. *)
Theorem C3_authorize_is_copy_on_write
  (h : heap F M) (r : addr) (rv : Repository) (fn : option F) :
  wf h ->
  nth_error (repos h) r = Some rv ->
  exists (r' : addr) (h' : heap F M) (l : list (option F)),
    Authorize h r fn = Some (r', h')
    /\ authList h r = Some l
    /\ nth_error (repos h') r = Some rv
    /\ authList h' r = Some l
    /\ authList h' r' = Some (l ++ [fn])
    /\ List.length (l ++ [fn]) = List.length l + 1
    /\ r' <> r
    /\ (forall p pv, nth_error (repos h) p = Some pv ->
          nth_error (repos h') p = Some pv
          /\ authList h' p = authList h p)
    /\ (forall a, a < List.length (arrays h) ->
          nth_error (arrays h') a = nth_error (arrays h) a)
    /\ wf h'.
Proof.
  intros Hwf Hr.
  pose proof (Hwf r rv Hr) as Hv.
  eexists _, _, (elems h (authorizeFuncs rv)).
  split; [apply (Authorize_eq h r rv fn Hr Hv)|].
  assert (Hlt : r < List.length (repos h))
    by (apply nth_error_Some; congruence).
  split; [unfold authList; now rewrite Hr|].
  split; [cbn [repos]; now rewrite nth_error_app1|].
  split; [rewrite (authList_old h r rv _ _ Hr Hv); unfold authList; now rewrite Hr|].
  split; [now apply authList_new|].
  split; [rewrite length_app; reflexivity|].
  split; [lia|].
  split.
  { intros p pv Hp. split.
    - cbn [repos]. rewrite nth_error_app1; [assumption|].
      apply nth_error_Some; congruence.
    - apply (authList_old h p pv _ _ Hp (Hwf p pv Hp)). }
  split; [intros a Ha; cbn [arrays]; now rewrite nth_error_app1|].
  intros p pv Hp. cbn [repos] in Hp.
  destruct (Nat.lt_ge_cases p (List.length (repos h))) as [Hlt'|Hge].
  - rewrite nth_error_app1 in Hp by assumption.
    destruct (Hwf p pv Hp) as [H1 H2].
    split; cbn [arrays]; [rewrite length_app; simpl; lia|].
    now rewrite app_nth1.
  - rewrite nth_error_app2 in Hp by assumption.
    destruct (p - List.length (repos h)) as [|k] eqn:Hk;
      [|destruct k; discriminate].
    injection Hp as <-.
    split; cbn [arrays authorizeFuncs sptr slen].
    + rewrite length_app. simpl. lia.
    + rewrite nth_middle, length_app, (elems_length h _ Hv). simpl. lia.
Qed.

Lemma pipelineOf_addMiddleware_frame (h : heap F M) (mm : addr) (l : list M)
  (m : M) (p : addr) (pv : Repository) :
  nth_error (repos h) p = Some pv ->
  middlewareManager pv = Some mm ->
  nth_error (managers h) mm = Some l ->
  pipelineOf {| arrays := arrays h;
                    managers := setNth (managers h) mm (l ++ [m]);
                    metas := metas h; repos := repos h |} p
  = Some (l ++ [m]).
Proof.
  intros Hp Hmm Hl. unfold pipelineOf. cbn [repos managers].
  rewrite Hp, Hmm. apply nth_error_setNth_same.
  apply nth_error_Some. congruence.
Qed.

(** C8: the repository returned by [Authorize] holds the same executor,
    metadata and middleware-manager pointers as the receiver; a middleware
    added through either of them afterwards is in the pipeline of both,
    and the two authorization lists stay as [Authorize] left them. *)
Theorem C8_authorize_shares_the_middleware_manager
  (h : heap F M) (r : addr) (rv : Repository) (fn : option F) (ms : list M) :
  wf h ->
  nth_error (repos h) r = Some rv ->
  pipelineOf h r = Some ms ->
  exists (r' : addr) (h' : heap F M) (rv' : Repository),
    Authorize h r fn = Some (r', h')
    /\ nth_error (repos h') r' = Some rv'
    /\ db rv' = db rv
    /\ metadata rv' = metadata rv
    /\ middlewareManager rv' = middlewareManager rv
    /\ pipelineOf h' r = Some ms
    /\ pipelineOf h' r' = Some ms
    /\ (forall (p : addr) (m : M),
          p = r \/ p = r' ->
          exists h'' : heap F M,
            AddMiddleware h' p m = Some h''
            /\ pipelineOf h'' r = Some (ms ++ [m])
            /\ pipelineOf h'' r' = Some (ms ++ [m])
            /\ authList h'' r = authList h r
            /\ authList h'' r'
               = option_map (fun l => l ++ [fn]) (authList h r)).
Proof.
  intros Hwf Hr Hms.
  pose proof (Hwf r rv Hr) as Hv.
  assert (Hmgr : exists mm, middlewareManager rv = Some mm
                            /\ nth_error (managers h) mm = Some ms).
  { unfold pipelineOf in Hms. rewrite Hr in Hms.
    destruct (middlewareManager rv) as [mm|]; [|discriminate].
    exists mm. auto. }
  destruct Hmgr as (mm & Hmm & Hmsl).
  pose proof (Authorize_eq h r rv fn Hr Hv) as HE.
  assert (Hlt : r < List.length (repos h))
    by (apply nth_error_Some; congruence).
  set (l := elems h (authorizeFuncs rv)).
  assert (Hl : authList h r = Some l)
    by (unfold authList; now rewrite Hr).
  pose (rv' := {| db := db rv; metadata := metadata rv;
                  middlewareManager := middlewareManager rv;
                  authorizeFuncs :=
                    {| sptr := List.length (arrays h);
                       slen := slen (authorizeFuncs rv) + 1;
                       scap := slen (authorizeFuncs rv) + 1 |} |}).
  pose (h' := {| arrays := arrays h ++ [l ++ [fn]]; managers := managers h;
                 metas := metas h; repos := repos h ++ [rv'] |}).
  assert (Hl1 : authList h' r = Some l)
    by (unfold h'; rewrite (authList_old h r rv _ rv' Hr Hv); exact Hl).
  assert (Hl2 : authList h' (List.length (repos h)) = Some (l ++ [fn]))
    by (apply (authList_new h rv rv' fn Hv eq_refl)).
  change (Authorize h r fn = Some (List.length (repos h), h')) in HE.
  assert (Hr1 : nth_error (repos h') r = Some rv).
  { unfold h'. cbn [repos]. now rewrite nth_error_app1. }
  assert (Hr2 : nth_error (repos h') (List.length (repos h)) = Some rv').
  { unfold h'. cbn [repos]. rewrite nth_error_app2, Nat.sub_diag by lia.
    reflexivity. }
  assert (Hmm' : middlewareManager rv' = Some mm) by exact Hmm.
  assert (Hms' : nth_error (managers h') mm = Some ms) by exact Hmsl.
  exists (List.length (repos h)), h', rv'.
  split; [exact HE|]. split; [exact Hr2|].
  split; [reflexivity|]. split; [reflexivity|]. split; [reflexivity|].
  split; [unfold pipelineOf; now rewrite Hr1, Hmm|].
  split; [unfold pipelineOf; now rewrite Hr2, Hmm'|].
  intros p m Hp.
  assert (HAdd : AddMiddleware h' p m
                 = Some {| arrays := arrays h';
                           managers := setNth (managers h') mm (ms ++ [m]);
                           metas := metas h'; repos := repos h' |}).
  { unfold AddMiddleware.
    destruct Hp as [-> | ->].
    - now rewrite Hr1, Hmm, Hms'.
    - now rewrite Hr2, Hmm', Hms'. }
  eexists. split; [exact HAdd|].
  split; [apply (pipelineOf_addMiddleware_frame h' mm ms m r rv Hr1 Hmm Hms')|].
  split; [apply (pipelineOf_addMiddleware_frame h' mm ms m _ rv' Hr2 Hmm' Hms')|].
  split.
  - rewrite Hl, <- Hl1. reflexivity.
  - rewrite Hl. cbn [option_map]. rewrite <- Hl2. reflexivity.
Qed.

End Heap.

Lemma baseHeap_constructed :
  NewRepositoryWithExecutor freshHeap (Some 0) (Some 0)
  = inl (0, baseHeap).
Proof. reflexivity. Qed.

Lemma baseHeap_wf : wf baseHeap.
Proof.
  intros p pv Hp. destruct p as [|p]; simpl in Hp.
  - injection Hp as <-. split; simpl; lia.
  - destruct p; discriminate.
Defined.

Lemma C3_witness :
  wf baseHeap /\ nth_error (repos baseHeap) 0 = Some baseRepo
  /\ exists r' h' l,
       Authorize baseHeap 0 (Some 7) = Some (r', h')
       /\ authList baseHeap 0 = Some l
       /\ authList h' r' = Some (l ++ [Some 7]).
Proof.
  split; [exact baseHeap_wf|]. split; [reflexivity|].
  destruct (C3_authorize_is_copy_on_write nat nat baseHeap 0 baseRepo (Some 7)
              baseHeap_wf eq_refl)
    as (r' & h' & l & HA & Hl & _ & _ & Hl' & _).
  exists r', h', l. auto.
Defined.

Lemma C8_witness :
  wf baseHeap /\ nth_error (repos baseHeap) 0 = Some baseRepo
  /\ pipelineOf baseHeap 0 = Some []
  /\ exists r' h' rv',
       Authorize baseHeap 0 (Some 7) = Some (r', h')
       /\ nth_error (repos h') r' = Some rv'
       /\ middlewareManager rv' = middlewareManager baseRepo.
Proof.
  split; [exact baseHeap_wf|]. split; [reflexivity|]. split; [reflexivity|].
  destruct (C8_authorize_shares_the_middleware_manager nat nat baseHeap 0
              baseRepo (Some 7) [] baseHeap_wf eq_refl eq_refl)
    as (r' & h' & rv' & HA & Hr' & _ & _ & Hmm & _).
  exists r', h', rv'. auto.
Defined.

(** Each chain sees the base list and its own functions, whatever is
    authorized on the other. *)
Lemma chains_are_independent :
  twoChains
  = Some [Some []; Some [Some 1]; Some [Some 2]; Some [Some 1; Some 3]].
Proof. vm_compute. reflexivity. Qed.

End RepoFacts.

(** ** The transaction manager *)

Module TxFacts.
Import Tx.

Section Driver.

Variable U : Type.

Lemma entry_withTx (d : driver U) (s : Storm)
  (which : option (option TransactionOptions)) (fn : callback U)
  (past : list (event U)) :
  entry U d s which fn past = withTx U d s (optionsOf which) fn past.
Proof. now destruct which. Qed.

Lemma callback_is_no_commit (us : list U) (tx : nat) :
  ~ In (EvCommit tx) (map (@EvCallback U) us).
Proof. intros H. apply in_map_iff in H as (u & Hu & _). discriminate. Qed.

Lemma callback_is_no_rollback (us : list U) (tx : nat) :
  ~ In (EvRollback tx) (map (@EvCallback U) us).
Proof. intros H. apply in_map_iff in H as (u & Hu & _). discriminate. Qed.

(** C4: for a call of [WithTransaction] or [WithTransactionOptions] that
    begins a new transaction: if the callback returns an error, the
    transaction is rolled back, not committed, and that error is returned;
    if the callback panics, the transaction is rolled back and the panic
    goes on; if the callback returns nil, the transaction is committed, and
    a failure of the commit is returned wrapped as
    [failed to commit transaction]. *)
Theorem C4_transaction_outcomes
  (d : driver U) (s : Storm) (which : option (option TransactionOptions))
  (fn : callback U) (past : list (event U)) (dbh tx : nat)
  (c : completion) (us : list U) :
  begins U d s (optionsOf which) past dbh tx ->
  fn (newStormWithExecutor dbh (SqlxTx tx) (logger s))
     (past ++ [EvBegin dbh (optionsOf which)]) = (c, us) ->
  let ran := EvBegin dbh (optionsOf which) :: map EvCallback us in
  (forall err, c = Returned (Some err) ->
     entry U d s which fn past = (Returned (Some err), ran ++ [EvRollback tx])
     /\ rollsBack U tx (ran ++ [EvRollback tx])
     /\ ~ commits U tx (ran ++ [EvRollback tx]))
  /\ (forall v, c = Panicked v ->
        entry U d s which fn past = (Panicked v, ran ++ [EvRollback tx])
        /\ rollsBack U tx (ran ++ [EvRollback tx])
        /\ ~ commits U tx (ran ++ [EvRollback tx]))
  /\ (c = Returned None ->
        (Commit U d tx (past ++ ran) = None ->
           entry U d s which fn past = (Returned None, ran ++ [EvCommit tx])
           /\ commits U tx (ran ++ [EvCommit tx])
           /\ ~ rollsBack U tx (ran ++ [EvCommit tx]))
        /\ (forall e, Commit U d tx (past ++ ran) = Some e ->
              entry U d s which fn past
              = (Returned (Some (Errorf "failed to commit transaction: %w"
                                        (Some e))),
                 ran ++ [EvCommit tx; EvRollback tx])
              /\ commits U tx (ran ++ [EvCommit tx; EvRollback tx]))).
Proof.
  intros (Hin & Hdb & Hbegin) Hfn ran.
  rewrite entry_withTx. unfold withTx.
  rewrite Hin, Hdb, Hbegin, Hfn.
  assert (Hno : ~ In (EvCommit tx) ran).
  { intros [H|H]; [discriminate | now apply callback_is_no_commit in H]. }
  assert (Hnr : ~ In (EvRollback tx) ran).
  { intros [H|H]; [discriminate | now apply callback_is_no_rollback in H]. }
  split; [|split].
  - intros err ->. split; [reflexivity|]. split.
    + apply in_or_app. right. now left.
    + intros H. apply in_app_or in H as [H|[H|[]]];
        [now apply Hno | discriminate].
  - intros v ->. split; [reflexivity|]. split.
    + apply in_or_app. right. now left.
    + intros H. apply in_app_or in H as [H|[H|[]]];
        [now apply Hno | discriminate].
  - intros ->.
    change ([EvBegin dbh (optionsOf which)] ++ map EvCallback us) with ran.
    split.
    + intros Hc. rewrite Hc. split; [reflexivity|]. split.
      * apply in_or_app. right. now left.
      * intros H. apply in_app_or in H as [H|[H|[]]];
          [now apply Hnr | discriminate].
    + intros e Hc. rewrite Hc. split; [reflexivity|].
      apply in_or_app. right. now left.
Qed.

End Driver.

Lemma C4_witness :
  begins unit okDriver poolStorm None [] 0 1
  /\ failing (newStormWithExecutor 0 (SqlxTx 1) None) [EvBegin 0 None]
     = (Returned (Some (Other 3)), [tt])
  /\ WithTransaction unit okDriver poolStorm failing []
     = (Returned (Some (Other 3)),
        [EvBegin 0 None; EvCallback tt; EvRollback 1]).
Proof.
  assert (Hb : begins unit okDriver poolStorm None [] 0 1)
    by (repeat split; reflexivity).
  split; [exact Hb|]. split; [reflexivity|].
  exact (proj1 (proj1 (C4_transaction_outcomes unit okDriver poolStorm None
                         failing [] 0 1 (Returned (Some (Other 3))) [tt]
                         Hb eq_refl)
                      (Other 3) eq_refl)).
Defined.

End TxFacts.

(** ** The terminal operations of the query builder *)

Module QueryFacts.
Import Values Squirrel Query.

Section Pipeline.

Variable T : Type.
Variable DB : Type.
Variable loadRecord : Query T DB -> include -> T -> DB
                      -> option gerr * T * DB * list event.

Lemma executeQueryMiddleware_enters (q : Query T DB) (op : OperationType)
  (model : modelArg) (b : builderValue)
  (final : QueryMiddlewareFunc T DB) (st : store T DB) :
  entersFirst
    (snd (executeQueryMiddleware T DB (repo T DB q) op (ctx T DB q) model b
            final st))
    (entryContext T DB q op model b).
Proof.
  unfold executeQueryMiddleware, entersFirst.
  destruct (ExecuteMiddleware T DB _ final _ st) as [[[done mc'] st'] evs].
  cbn [snd]. eexists. reflexivity.
Qed.

Lemma findPlain_enters (d : driver T DB) (q : Query T DB) (db : DB) :
  entersFirst (snd (findPlain T DB d q db))
              (entryContext T DB q OpQuery NoModel (BSelect (findBuilder T DB q))).
Proof.
  unfold findPlain.
  pose proof (executeQueryMiddleware_enters q OpQuery NoModel
                (BSelect (findBuilder T DB q)) (findFinal T DB d q)
                {| database := db; locals := zeroFrame T |}) as H.
  destruct (executeQueryMiddleware T DB _ _ _ _ _ _ _) as [[[done mc'] st'] evs].
  exact H.
Qed.

Lemma Find_enters (d : driver T DB) (q : Query T DB) (db : DB) :
  entersFirst (snd (Find T DB loadRecord d q db))
              (entryContext T DB q OpQuery NoModel (BSelect (findBuilder T DB q))).
Proof.
  unfold Find. destruct (includes T DB q) eqn:Hinc.
  - apply findPlain_enters.
  - unfold findWithRelationships.
    pose proof (findPlain_enters d (clearIncludes T DB q) db) as [rest H].
    destruct (findPlain T DB d (clearIncludes T DB q) db)
      as [[[rows done] db'] evs].
    cbn [snd] in H. subst evs.
    destruct done, rows;
      try (eexists; reflexivity).
    destruct (loadAll T DB loadRecord _ _ _ _) as [[[[e|] rows'] db''] evs'];
      eexists; reflexivity.
Qed.

Lemma First_enters (d : driver T DB) (q : Query T DB) (db : DB) :
  entersFirst (snd (First T DB loadRecord d q db))
              (entryContext T DB q OpQuery NoModel
                 (BSelect (findBuilder T DB (Limit T DB q 1%N)))).
Proof.
  unfold First.
  pose proof (Find_enters d (Limit T DB q 1%N) db) as [rest H].
  destruct (Find T DB loadRecord d (Limit T DB q 1%N) db)
    as [[[rows done] db'] evs].
  cbn [snd] in H. subst evs.
  replace (tableName T DB (repo T DB (Limit T DB q 1%N)))
    with (tableName T DB (repo T DB q))
    by (unfold Limit; now destruct (err T DB q)).
  unfold entersFirst, entryContext.
  replace (ctx T DB (Limit T DB q 1%N)) with (ctx T DB q)
    by (unfold Limit; now destruct (err T DB q)).
  replace (repo T DB (Limit T DB q 1%N)) with (repo T DB q)
    by (unfold Limit; now destruct (err T DB q)).
  destruct done, rows; eexists; reflexivity.
Qed.

Lemma Count_enters (d : driver T DB) (q : Query T DB) (db : DB) :
  entersFirst (snd (Count T DB d q db))
              (entryContext T DB q OpQuery NoModel (BSelect (countBuilder T DB q))).
Proof.
  unfold Count.
  pose proof (executeQueryMiddleware_enters q OpQuery NoModel
                (BSelect (countBuilder T DB q)) (countFinal T DB d q)
                {| database := db; locals := zeroFrame T |}) as H.
  destruct (executeQueryMiddleware T DB _ _ _ _ _ _ _) as [[[done mc'] st'] evs].
  exact H.
Qed.

Lemma Exists_enters (d : driver T DB) (q : Query T DB) (db : DB) :
  entersFirst (snd (Exists T DB d q db))
              (entryContext T DB q OpQuery NoModel (BSelect (countBuilder T DB q))).
Proof.
  unfold Exists.
  pose proof (Count_enters d q db) as H.
  destruct (Count T DB d q db) as [[[c done] db'] evs].
  destruct done; exact H.
Qed.

Lemma Delete_enters (d : driver T DB) (q : Query T DB) (db : DB) :
  entersFirst (snd (Delete T DB d q db))
              (entryContext T DB q OpDelete NoModel (BDelete (deleteBuilder T DB q))).
Proof.
  unfold Delete.
  pose proof (executeQueryMiddleware_enters q OpDelete NoModel
                (BDelete (deleteBuilder T DB q)) (deleteFinal T DB d q)
                {| database := db; locals := zeroFrame T |}) as H.
  destruct (executeQueryMiddleware T DB _ _ _ _ _ _ _) as [[[done mc'] st'] evs].
  exact H.
Qed.

(** [Update] either fails before any call (no action, or a WHERE clause
    that does not render) or enters the pipeline first. *)
Lemma Update_enters (d : driver T DB) (q : Query T DB)
  (actions : list Action) (db : DB) (r : QueryUpdate.rendered) :
  QueryUpdate.render (tableName T DB (repo T DB q)) (whereClause T DB q) actions
  = Some (inl r) ->
  exists res,
    Update T DB d q actions db = Some res
    /\ entersFirst (snd res)
         (entryContext T DB q OpUpdateMany (ModelActions actions)
            (BString (QueryUpdate.baseSQL r))).
Proof.
  intros Hr. unfold Update. rewrite Hr.
  pose proof (executeQueryMiddleware_enters q OpUpdateMany
                (ModelActions actions) (BString (QueryUpdate.baseSQL r))
                (updateFinal T DB d q (QueryUpdate.baseSQL r)
                             (QueryUpdate.boundArgs r))
                {| database := db; locals := zeroFrame T |}) as H.
  destruct (executeQueryMiddleware T DB _ _ _ _ _ _ _) as [[[done mc'] st'] evs].
  eexists. split; [reflexivity | exact H].
Qed.

(** C7: every terminal operation is claimed to enter the middleware
    pipeline before the driver call.  [Find], [First], [Count], [Exists],
    [Delete] and [Update] do ([Find_enters] and the lemmas after it), with
    the operation kind, the table name, the builder and the context of the
    query.  [ExecuteRaw] does not: whatever middlewares the repository
    holds, its only call is the driver's [SelectContext], and no entry into
    the pipeline precedes it. *)
Theorem C7_execute_raw_bypasses_the_pipeline
  (d : driver T DB) (q : Query T DB) (query : string) (args : list value)
  (db : DB) :
  let evs := snd (ExecuteRaw T DB d q query args db) in
  evs = [EvSelect (executorOf T DB q) (StRaw query args)]
  /\ existsb isDriverCall evs = true
  /\ (forall mc, ~ In (EvPipeline mc) evs)
  /\ (forall mc, ~ entersFirst evs mc).
Proof.
  unfold ExecuteRaw, buildFinalQuery.
  destruct (SelectContext T DB d _ _ db) as [rows|e]; cbn [snd].
  all: split; [reflexivity|]; split; [reflexivity|]; split.
  all: try (intros mc [H|[]]; discriminate).
  all: intros mc [rest H]; discriminate.
Qed.

(** [Exists] is [Count() > 0], with the error of [Count] if it has one. *)
Lemma Exists_is_positive_count (d : driver T DB) (q : Query T DB) (db : DB) :
  Exists T DB d q db
  = match Count T DB d q db with
    | (c, Nil, db', evs) => ((0 <? c)%Z, Nil, db', evs)
    | (_, done, db', evs) => (false, done, db', evs)
    end.
Proof. reflexivity. Qed.

End Pipeline.

(** *** A pipeline without middleware *)

Section Plain.

Variable T : Type.
Variable DB : Type.

Lemma length_window {A : Type} (lim off : option N) (rows : list A) :
  List.length (window lim off rows) = windowLength lim off (List.length rows).
Proof.
  unfold window, windowLength.
  destruct lim, off; rewrite ?length_firstn, ?length_skipn; reflexivity.
Qed.

(** Without middleware the handler gets the context of the entry. *)
Lemma executeQueryMiddleware_plain (q : Query T DB) (op : OperationType)
  (model : modelArg) (b : builderValue) (final : QueryMiddlewareFunc T DB)
  (st : store T DB) :
  middlewares T DB (repo T DB q) = [] ->
  executeQueryMiddleware T DB (repo T DB q) op (ctx T DB q) model b final st
  = (let '(done, mc', st', evs) := final (entryContext T DB q op model b) st in
     (done, mc', st', EvPipeline (entryContext T DB q op model b) :: evs)).
Proof.
  intros Hmw. unfold executeQueryMiddleware, ExecuteMiddleware.
  rewrite Hmw. reflexivity.
Qed.

(** [Count] without middleware: the one statement it sends and what it
    returns. *)
Lemma Count_plain (d : driver T DB) (q : Query T DB) (db : DB) :
  middlewares T DB (repo T DB q) = [] ->
  let mc := entryContext T DB q OpQuery NoModel (BSelect (countBuilder T DB q)) in
  let call := EvGet (executorOf T DB q) (StSelect (countBuilder T DB q)) in
  Count T DB d q db
  = match firstError (addWhere [] (whereClause T DB q)) with
    | Some e =>
        (0%Z, Err (OrmError "count" (tableName T DB (repo T DB q))
                     (Errorf "failed to build count query: %w" (Some e))),
         db, [EvPipeline mc])
    | None =>
        match GetContext T DB d (executorOf T DB q)
                (StSelect (countBuilder T DB q)) db with
        | inl c => (c, Nil, db, [EvPipeline mc; call])
        | inr e =>
            (0%Z, Err (OrmError "count" (tableName T DB (repo T DB q))
                         (Errorf "failed to execute count query: %w"
                                 (Some (DriverError e)))),
             db, [EvPipeline mc; call])
        end
    end.
Proof.
  intros Hmw mc call. unfold Count.
  rewrite (executeQueryMiddleware_plain q _ _ _ _ _ Hmw).
  unfold countFinal. cbn [entryContext QueryBuilder].
  unfold selectToSql. cbn [countBuilder sbColumns sbWhere].
  destruct (firstError (addWhere [] (whereClause T DB q))); [reflexivity|].
  fold (countBuilder T DB q). cbn [database].
  destruct (GetContext T DB d (executorOf T DB q)
              (StSelect (countBuilder T DB q)) db); reflexivity.
Qed.

(** [Find] without includes and without middleware. *)
Lemma findPlain_plain (d : driver T DB) (q : Query T DB) (db : DB) :
  middlewares T DB (repo T DB q) = [] ->
  let mc := entryContext T DB q OpQuery NoModel (BSelect (findBuilder T DB q)) in
  let call := EvSelect (executorOf T DB q) (StSelect (findBuilder T DB q)) in
  findPlain T DB d q db
  = match selectToSql (findBuilder T DB q) with
    | Some e =>
        ([], Err (OrmError "find" (tableName T DB (repo T DB q))
                    (Errorf "failed to build query: %w" (Some e))),
         db, [EvPipeline mc])
    | None =>
        match SelectContext T DB d (executorOf T DB q)
                (StSelect (findBuilder T DB q)) db with
        | inl rows => (rows, Nil, db, [EvPipeline mc; call])
        | inr e =>
            ([], Err (OrmError "find" (tableName T DB (repo T DB q))
                        (Errorf "failed to execute query: %w"
                                (Some (DriverError e)))),
             db, [EvPipeline mc; call])
        end
    end.
Proof.
  intros Hmw mc call. unfold findPlain.
  rewrite (executeQueryMiddleware_plain q _ _ _ _ _ Hmw).
  unfold findFinal. cbn [entryContext QueryBuilder].
  destruct (selectToSql (findBuilder T DB q)); [reflexivity|].
  cbn [database].
  destruct (SelectContext T DB d (executorOf T DB q)
              (StSelect (findBuilder T DB q)) db); reflexivity.
Qed.

(** [Delete] without middleware. *)
Lemma Delete_plain (d : driver T DB) (q : Query T DB) (db : DB) :
  middlewares T DB (repo T DB q) = [] ->
  let mc := entryContext T DB q OpDelete NoModel (BDelete (deleteBuilder T DB q)) in
  let call := EvExec (executorOf T DB q) (StDelete (deleteBuilder T DB q)) in
  Delete T DB d q db
  = match deleteToSql (deleteBuilder T DB q) with
    | Some e =>
        (0%Z, Err (OrmError "delete" (tableName T DB (repo T DB q))
                     (Errorf "failed to build delete query: %w" (Some e))),
         db, [EvPipeline mc])
    | None =>
        match ExecContext T DB d (executorOf T DB q)
                (StDelete (deleteBuilder T DB q)) db with
        | (db', inl (inl n)) => (n, Nil, db', [EvPipeline mc; call])
        | (db', inl (inr e)) =>
            (0%Z, Err (OrmError "delete" (tableName T DB (repo T DB q))
                         (Errorf "failed to get rows affected: %w"
                                 (Some (DriverError e)))),
             db', [EvPipeline mc; call])
        | (db', inr e) =>
            (0%Z, Err (PostgreSQLError (DriverError e) "delete"
                         (tableName T DB (repo T DB q))),
             db', [EvPipeline mc; call])
        end
    end.
Proof.
  intros Hmw mc call. unfold Delete.
  rewrite (executeQueryMiddleware_plain q _ _ _ _ _ Hmw).
  unfold deleteFinal. cbn [entryContext QueryBuilder].
  destruct (deleteToSql (deleteBuilder T DB q)); [reflexivity|].
  cbn [database].
  destruct (ExecContext T DB d (executorOf T DB q)
              (StDelete (deleteBuilder T DB q)) db) as [db' [[n|e]|e]];
    reflexivity.
Qed.

(** The builder of [Find] for a query as [Repository.Query] and the
    builder methods leave it. *)
Lemma findBuilder_base (q : Query T DB) :
  builder T DB q = baseBuilder T DB (repo T DB q) ->
  findBuilder T DB q
  = {| sbColumns := columns T DB (repo T DB q);
       sbFrom := tableName T DB (repo T DB q);
       sbJoins := joinClauses (joins T DB q);
       sbWhere := addWhere [] (whereClause T DB q);
       sbOrderBy := orderBy T DB q;
       sbLimit := limit T DB q;
       sbOffset := offset T DB q |}.
Proof.
  intros Hb. unfold findBuilder. rewrite Hb.
  cbn [baseBuilder sbColumns sbFrom sbJoins sbWhere sbOrderBy sbLimit sbOffset
       app].
  now destruct (limit T DB q), (offset T DB q).
Qed.

End Plain.

(** *** [Count], [Exists] and the length of [Find] *)

Section Relational.

Variable T : Type.
Variable DB : Type.
Variable loadRecord : Query T DB -> include -> T -> DB
                      -> option gerr * T * DB * list event.

(** The database: the rows that [FROM table JOIN ... WHERE ...] selects in
    a state, and any driver. *)
Variable matching : DB -> string -> list string -> list Sqlizer -> list T.
Variable d : driver T DB.

Lemma loadRecords_length (q : Query T DB) (inc : include) (rows : list T) :
  forall db e rows' db' evs,
    loadRecords T DB loadRecord q inc rows db = (e, rows', db', evs) ->
    List.length rows' = List.length rows.
Proof.
  induction rows as [|r rows IH]; intros db e rows' db' evs H.
  - injection H as <- <- <- <-. reflexivity.
  - cbn [loadRecords] in H.
    destruct (loadRecord q inc r db) as [[[[e1|] r1] db1] evs1].
    + injection H as <- <- <- <-. reflexivity.
    + destruct (loadRecords T DB loadRecord q inc rows db1)
        as [[[e2 rows2] db2] evs2] eqn:Hrec.
      injection H as <- <- <- <-. simpl. f_equal. eapply IH. exact Hrec.
Qed.

Lemma loadRelationship_length (q : Query T DB) (inc : include)
  (rows : list T) (db : DB) e rows' db' evs :
  loadRelationship T DB loadRecord q rows inc db = (e, rows', db', evs) ->
  List.length rows' = List.length rows.
Proof.
  unfold loadRelationship. destruct rows as [|r rows].
  - intros H. injection H as <- <- <- <-. reflexivity.
  - destruct (relationships T DB (repo T DB q) (name inc)) as [[|]|].
    + apply loadRecords_length.
    + intros H. injection H as <- <- <- <-. reflexivity.
    + intros H. injection H as <- <- <- <-. reflexivity.
Qed.

Lemma loadAll_length (q : Query T DB) (incs : list include) :
  forall rows db e rows' db' evs,
    loadAll T DB loadRecord q incs rows db = (e, rows', db', evs) ->
    List.length rows' = List.length rows.
Proof.
  induction incs as [|inc incs IH]; intros rows db e rows' db' evs H.
  - injection H as <- <- <- <-. reflexivity.
  - cbn [loadAll] in H.
    destruct (loadRelationship T DB loadRecord q rows inc db)
      as [[[[e1|] rows1] db1] evs1] eqn:H1.
    + injection H as <- <- <- <-. eapply loadRelationship_length. exact H1.
    + destruct (loadAll T DB loadRecord q incs rows1 db1)
        as [[[e2 rows2] db2] evs2] eqn:H2.
      injection H as <- <- <- <-.
      rewrite (IH _ _ _ _ _ _ H2). eapply loadRelationship_length. exact H1.
Qed.

(** A successful [Find] sent the SELECT of the query, with its ORDER BY,
    LIMIT and OFFSET, and returns as many rows as the driver gave. *)
Lemma Find_sends_the_window (q : Query T DB) (db db' : DB) (rows : list T)
  (evs : list event) :
  middlewares T DB (repo T DB q) = [] ->
  Find T DB loadRecord d q db = (rows, Nil, db', evs) ->
  exists found,
    SelectContext T DB d (executorOf T DB q)
      (StSelect (findBuilder T DB q)) db = inl found
    /\ List.length rows = List.length found
    /\ In (EvSelect (executorOf T DB q) (StSelect (findBuilder T DB q))) evs.
Proof.
  intros Hmw. unfold Find.
  assert (Hplain : forall q1 : Query T DB,
             middlewares T DB (repo T DB q1) = [] ->
             forall rows1 db1 evs1,
               findPlain T DB d q1 db = (rows1, Nil, db1, evs1) ->
               SelectContext T DB d (executorOf T DB q1)
                 (StSelect (findBuilder T DB q1)) db = inl rows1
               /\ In (EvSelect (executorOf T DB q1)
                               (StSelect (findBuilder T DB q1))) evs1).
  { intros q1 Hmw1 rows1 db1 evs1. rewrite (findPlain_plain T DB d q1 db Hmw1).
    destruct (selectToSql (findBuilder T DB q1)); [discriminate|].
    destruct (SelectContext T DB d (executorOf T DB q1)
                (StSelect (findBuilder T DB q1)) db) as [found|e];
      [|discriminate].
    intros H. injection H as <- _ <-. split; [reflexivity|]. right. now left. }
  destruct (includes T DB q) as [|inc incs] eqn:Hinc.
  - intros H. destruct (Hplain q Hmw _ _ _ H) as [Hs Hin].
    exists rows. auto.
  - unfold findWithRelationships. rewrite Hinc.
    destruct (findPlain T DB d (clearIncludes T DB q) db)
      as [[[found done] db1] evs1] eqn:HP.
    destruct done; try discriminate.
    destruct (Hplain (clearIncludes T DB q) Hmw _ _ _ HP) as [Hs Hin].
    change (findBuilder T DB (clearIncludes T DB q))
      with (findBuilder T DB q) in Hs, Hin.
    change (executorOf T DB (clearIncludes T DB q))
      with (executorOf T DB q) in Hs, Hin.
    destruct found as [|r0 found'].
    + intros H. injection H as <- _ <-. exists []. auto.
    + destruct (loadAll T DB loadRecord (clearIncludes T DB q)
                  (inc :: incs) (r0 :: found') db1)
        as [[[[e|] rows1] db2] evs2] eqn:HL; [discriminate|].
      intros H. injection H as <- _ <-.
      exists (r0 :: found'). split; [exact Hs|]. split.
      * eapply loadAll_length. exact HL.
      * apply in_or_app. now left.
Qed.

(** C2, as the code has it.  Whatever the middleware and the driver,
    [Count] does not depend on the ORDER BY, LIMIT and OFFSET of the
    builder: the call on a builder with them is the call on the builder
    without them; and [Exists] returns true exactly when [Count] succeeds
    with a positive number, and fails as [Count] fails.  On a repository
    without middleware a [Count] that succeeds has sent one statement,
    the count of all rows over the table, the joins and the conditions of
    the builder, and returns the answer of the database to it, and a
    [Find] that succeeds has sent the SELECT of the builder with its ORDER
    BY, LIMIT and OFFSET and returns as many rows as the database gave.
    So, on a database that answers that count with the number [n] of
    rows that the table, joins and conditions select, and that SELECT
    with what OFFSET and LIMIT leave of these rows, [Count] returns [n]
    and [Find] returns [min(limit, n - offset)] rows: the same number as
    [Count] when the builder carries neither LIMIT nor OFFSET. *)
Theorem C2_count_ignores_limit_and_offset (q : Query T DB) (db : DB) :
  let n := List.length (matched T DB matching q db) in
  let ex := executorOf T DB q in
  let counting :=
    StSelect {| sbColumns := ["COUNT(*)"];
                sbFrom := tableName T DB (repo T DB q);
                sbJoins := joinClauses (joins T DB q);
                sbWhere := addWhere [] (whereClause T DB q);
                sbOrderBy := []; sbLimit := None; sbOffset := None |} in
  let finding :=
    StSelect {| sbColumns := columns T DB (repo T DB q);
                sbFrom := tableName T DB (repo T DB q);
                sbJoins := joinClauses (joins T DB q);
                sbWhere := addWhere [] (whereClause T DB q);
                sbOrderBy := orderBy T DB q;
                sbLimit := limit T DB q; sbOffset := offset T DB q |} in
  (forall (l o : N) (keys : list string),
     Count T DB d
       (Limit T DB
          (QueryBuilder.Offset T DB (QueryBuilder.OrderBy T DB q keys) o) l) db
     = Count T DB d q db)
  /\ Exists T DB d q db
     = match Count T DB d q db with
       | (c, Nil, db', evs) => ((0 <? c)%Z, Nil, db', evs)
       | (_, done, db', evs) => (false, done, db', evs)
       end
  /\ (middlewares T DB (repo T DB q) = [] ->
      builder T DB q = baseBuilder T DB (repo T DB q) ->
      (forall c db' evs,
         Count T DB d q db = (c, Nil, db', evs) ->
         GetContext T DB d ex counting db = inl c
         /\ In (EvGet ex counting) evs)
      /\ (forall c,
            firstError (addWhere [] (whereClause T DB q)) = None ->
            GetContext T DB d ex counting db = inl c ->
            exists evs, Count T DB d q db = (c, Nil, db, evs))
      /\ (forall rows db' evs,
            Find T DB loadRecord d q db = (rows, Nil, db', evs) ->
            exists found,
              SelectContext T DB d ex finding db = inl found
              /\ List.length rows = List.length found
              /\ In (EvSelect ex finding) evs)
      /\ ((forall c, GetContext T DB d ex counting db = inl c ->
                     c = Z.of_nat n) ->
          (forall found, SelectContext T DB d ex finding db = inl found ->
                         List.length found
                         = windowLength (limit T DB q) (offset T DB q) n) ->
          (forall c db' evs,
             Count T DB d q db = (c, Nil, db', evs) -> c = Z.of_nat n)
          /\ (forall rows db' evs,
                Find T DB loadRecord d q db = (rows, Nil, db', evs) ->
                List.length rows
                = windowLength (limit T DB q) (offset T DB q) n)
          /\ (forall c rows db1 evs1 db2 evs2,
                Count T DB d q db = (c, Nil, db1, evs1) ->
                Find T DB loadRecord d q db = (rows, Nil, db2, evs2) ->
                limit T DB q = None -> offset T DB q = None ->
                c = Z.of_nat (List.length rows)))).
Proof.
  intros n ex counting finding.
  split.
  { intros l o keys.
    destruct q as [r b [e|] c lim off ob w t j i]; reflexivity. }
  split; [reflexivity|].
  intros Hmw Hb.
  assert (HC : forall c db' evs,
             Count T DB d q db = (c, Nil, db', evs) ->
             GetContext T DB d ex counting db = inl c
             /\ In (EvGet ex counting) evs).
  { intros c db' evs. rewrite (Count_plain T DB d q db Hmw).
    destruct (firstError (addWhere [] (whereClause T DB q))); [discriminate|].
    change (StSelect (countBuilder T DB q)) with counting.
    fold ex.
    destruct (GetContext T DB d ex counting db) as [c0|e]; [|discriminate].
    intros H. injection H as <- _ <-.
    split; [reflexivity | right; now left]. }
  assert (HF : forall rows db' evs,
             Find T DB loadRecord d q db = (rows, Nil, db', evs) ->
             exists found,
               SelectContext T DB d ex finding db = inl found
               /\ List.length rows = List.length found
               /\ In (EvSelect ex finding) evs).
  { intros rows db' evs H.
    destruct (Find_sends_the_window q db db' rows evs Hmw H)
      as (found & Hs & Hlen & Hin).
    rewrite (findBuilder_base T DB q Hb) in Hs, Hin.
    exists found. auto. }
  split; [exact HC|].
  split.
  { intros c Hw HG. rewrite (Count_plain T DB d q db Hmw), Hw.
    change (StSelect (countBuilder T DB q)) with counting.
    fold ex. rewrite HG. eexists. reflexivity. }
  split; [exact HF|].
  intros Hcount Hselect.
  assert (HC' : forall c db' evs,
             Count T DB d q db = (c, Nil, db', evs) -> c = Z.of_nat n).
  { intros c db' evs H. destruct (HC _ _ _ H) as [HG _]. now apply Hcount. }
  assert (HF' : forall rows db' evs,
             Find T DB loadRecord d q db = (rows, Nil, db', evs) ->
             List.length rows
             = windowLength (limit T DB q) (offset T DB q) n).
  { intros rows db' evs H. destruct (HF _ _ _ H) as (found & Hs & -> & _).
    now apply Hselect. }
  split; [exact HC'|]. split; [exact HF'|].
  intros c rows db1 evs1 db2 evs2 H1 H2 Hl Ho.
  rewrite (HC' _ _ _ H1), (HF' _ _ _ H2), Hl, Ho. reflexivity.
Qed.

End Relational.

(** *** The example database *)

Lemma exampleOrder_length (keys : list string) (rows sorted : list nat) :
  exampleOrder keys rows = Some sorted ->
  List.length sorted = List.length rows.
Proof.
  unfold exampleOrder. destruct keys as [|k [|k' keys]]; try discriminate.
  - intros H. now injection H as <-.
  - destruct (String.eqb k "id DESC"); [|discriminate].
    intros H. injection H as <-. apply length_rev.
Qed.

Lemma example_select_rows (ex : executor) (b : SelectBuilder) (db : list nat)
  (rows : list nat) :
  SelectContext nat (list nat) exampleDriver ex (StSelect b) db = inl rows ->
  List.length rows
  = windowLength (sbLimit b) (sbOffset b)
      (List.length (exampleMatching db (sbFrom b) (sbJoins b) (sbWhere b))).
Proof.
  cbn [exampleDriver SelectContext]. unfold exampleMatching.
  destruct (isIdColumn (sbColumns b)); [|discriminate].
  destruct (exampleRows db (sbFrom b) (sbJoins b) (sbWhere b)) as [found|];
    [|discriminate].
  destruct (exampleOrder (sbOrderBy b) found) as [sorted|] eqn:Ho;
    [|discriminate].
  intros H. injection H as <-.
  rewrite length_window. now rewrite (exampleOrder_length _ _ _ Ho).
Qed.

Lemma example_count_rows (ex : executor) (from : string)
  (joinParts : list string) (parts : list Sqlizer) (db : list nat) (c : Z) :
  GetContext nat (list nat) exampleDriver ex
    (StSelect {| sbColumns := ["COUNT(*)"]; sbFrom := from;
                 sbJoins := joinParts; sbWhere := parts; sbOrderBy := [];
                 sbLimit := None; sbOffset := None |}) db = inl c ->
  c = Z.of_nat (List.length (exampleMatching db from joinParts parts)).
Proof.
  cbn [exampleDriver GetContext sbColumns sbFrom sbJoins sbWhere sbOrderBy
       sbLimit sbOffset isCountStar]. unfold exampleMatching.
  change (String.eqb "COUNT(*)" "COUNT(*)") with true. cbn iota.
  destruct (exampleRows db from joinParts parts) as [found|]; [|discriminate].
  cbn [window]. intros H. now injection H as <-.
Qed.

(** The counterexample to C2 as stated: with [Limit(1)] on a table of three
    rows [Count] returns 3 and [Find] returns one row. *)
Lemma C2_counterexample :
  ~ (forall q : Query nat (list nat),
       countOf q = Z.of_nat (List.length (foundBy q))).
Proof.
  intros H. specialize (H firstRow).
  vm_compute in H. discriminate.
Qed.

(** With a middleware the relation can fail also without LIMIT and
    OFFSET on the builder: behind a middleware that puts [LIMIT 1] on
    every SELECT, [Count] on the table of three rows returns 3 and [Find]
    returns one row. *)
Lemma limiting_middleware_breaks_the_relation :
  let q := newQuery nat (list nat) limitedTable [] 0 in
  limit nat (list nat) q = None /\ offset nat (list nat) q = None
  /\ fst (fst (fst (Count nat (list nat) exampleDriver q [10; 20; 30]))) = 3%Z
  /\ fst (fst (fst (Find nat (list nat) keepRecord exampleDriver q [10; 20; 30])))
     = [10].
Proof. vm_compute. repeat split. Qed.

Lemma C2_witness :
  let q := QueryBuilder.pagedRows in
  let db := [10; 20; 30; 40] in
  middlewares nat (list nat) (repo nat (list nat) q) = []
  /\ builder nat (list nat) q = baseBuilder nat (list nat) (repo nat (list nat) q)
  /\ limit nat (list nat) q = Some 5%N
  /\ offset nat (list nat) q = Some 1%N
  /\ List.length (matched nat (list nat) exampleMatching q db) = 3
  /\ (exists evs, Count nat (list nat) exampleDriver q db = (3%Z, Nil, db, evs))
  /\ (forall rows db' evs,
        Find nat (list nat) keepRecord exampleDriver q db
        = (rows, Nil, db', evs) ->
        List.length rows = 2)
  /\ fst (fst (fst (Find nat (list nat) keepRecord exampleDriver q db)))
     = [30; 20].
Proof.
  intros q db.
  pose proof (proj2 (proj2 (C2_count_ignores_limit_and_offset nat (list nat)
                              keepRecord exampleMatching exampleDriver q db))
                eq_refl eq_refl) as (_ & Hcount & _ & Hnum).
  split; [reflexivity|]. split; [reflexivity|]. split; [reflexivity|].
  split; [reflexivity|]. split; [reflexivity|].
  split; [exact (Hcount 3%Z eq_refl eq_refl)|].
  split; [|vm_compute; reflexivity].
  assert (Hc : forall c,
             GetContext nat (list nat) exampleDriver
               (executorOf nat (list nat) q)
               (StSelect
                  {| sbColumns := ["COUNT(*)"];
                     sbFrom := tableName nat (list nat) (repo nat (list nat) q);
                     sbJoins := joinClauses (joins nat (list nat) q);
                     sbWhere := addWhere [] (whereClause nat (list nat) q);
                     sbOrderBy := []; sbLimit := None; sbOffset := None |}) db
             = inl c ->
             c = Z.of_nat (List.length (matched nat (list nat) exampleMatching q db)))
    by (intros c; apply example_count_rows).
  assert (Hs : forall found,
             SelectContext nat (list nat) exampleDriver
               (executorOf nat (list nat) q)
               (StSelect
                  {| sbColumns := columns nat (list nat) (repo nat (list nat) q);
                     sbFrom := tableName nat (list nat) (repo nat (list nat) q);
                     sbJoins := joinClauses (joins nat (list nat) q);
                     sbWhere := addWhere [] (whereClause nat (list nat) q);
                     sbOrderBy := orderBy nat (list nat) q;
                     sbLimit := limit nat (list nat) q;
                     sbOffset := offset nat (list nat) q |}) db
             = inl found ->
             List.length found
             = windowLength (limit nat (list nat) q) (offset nat (list nat) q)
                 (List.length (matched nat (list nat) exampleMatching q db)))
    by (intros found; apply example_select_rows).
  exact (proj1 (proj2 (Hnum Hc Hs))).
Defined.

End QueryFacts.

(** ** More on the string-array field *)

Module PqArraysMore.
Import GoStrings PqArrays PqArraysInput PqArraysFacts.

(** X1: [Scan] never fails on what [Value] wrote, and for every sequence
    other than the one holding just the empty string it gives the sequence
    back: the nil sequence, the empty sequence, and every sequence of
    elements with any bytes, quotes and commas included. *)
Theorem X1_value_then_scan (sa : StringArray) :
  (exists back, Scan (asScanned (Value sa)) = inl back)
  /\ (sa <> Some [EmptyString] -> Scan (asScanned (Value sa)) = inl sa).
Proof.
  split.
  - destruct sa as [[|x [|y l]]|]; try (eexists; reflexivity).
    + destruct x as [|a x].
      * eexists. reflexivity.
      * exists (Some [String a x]).
        apply (roundTrip_other (Some [String a x])). discriminate.
    + exists (Some (x :: y :: l)).
      apply (roundTrip_other (Some (x :: y :: l))). discriminate.
  - apply roundTrip_other.
Qed.

Lemma X1_witness :
  Some ["a,b"; EmptyString] <> Some [EmptyString]
  /\ Scan (asScanned (Value (Some ["a,b"; EmptyString])))
     = inl (Some ["a,b"; EmptyString]).
Proof.
  assert (H : Some ["a,b"; EmptyString] <> Some [EmptyString])
    by discriminate.
  split; [exact H|].
  exact (proj2 (X1_value_then_scan (Some ["a,b"; EmptyString])) H).
Defined.

(** X2: two different sequences never have the same literal: [Value] is
    injective, the nil sequence and the sequence of one empty string
    included. *)
Theorem X2_value_is_injective (a b : StringArray) :
  Value a = Value b -> a = b.
Proof.
  assert (Hone : forall c : StringArray,
             Value c = Value (Some [EmptyString]) -> c = Some [EmptyString]).
  { intros c Hc.
    destruct c as [[|x [|y l]]|]; try discriminate.
    - destruct x as [|ch x]; [reflexivity|].
      pose proof (roundTrip_other (Some [String ch x])) as R.
      unfold roundTrip in R. rewrite Hc in R.
      specialize (R ltac:(discriminate)). discriminate.
    - pose proof (roundTrip_other (Some (x :: y :: l))) as R.
      unfold roundTrip in R. rewrite Hc in R.
      specialize (R ltac:(discriminate)). discriminate. }
  intros H.
  assert (Da : a = Some [EmptyString] \/ a <> Some [EmptyString]).
  { destruct a as [[|x [|y l]]|]; try (right; discriminate).
    destruct x; [now left | right; discriminate]. }
  assert (Db : b = Some [EmptyString] \/ b <> Some [EmptyString]).
  { destruct b as [[|x [|y l]]|]; try (right; discriminate).
    destruct x; [now left | right; discriminate]. }
  destruct Da as [-> | Ha].
  - symmetry. apply Hone. now symmetry.
  - destruct Db as [-> | Hb].
    + now apply Hone.
    + pose proof (roundTrip_other a Ha) as Ra.
      pose proof (roundTrip_other b Hb) as Rb.
      unfold roundTrip in Ra, Rb. rewrite H in Ra. congruence.
Qed.

Lemma X2_witness :
  Value (Some ["x"]) = Value (Some ["x"]) /\ Some ["x"] = Some ["x"].
Proof.
  split; [reflexivity|].
  exact (X2_value_is_injective (Some ["x"]) (Some ["x"]) eq_refl).
Defined.

Lemma parse_plain (x tail cur : string) (res : option (list string)) :
  plainElem x ->
  parseLoop (x ++ tail)%string false cur res
  = parseLoop tail false (cur ++ x)%string res.
Proof.
  intros [Hq Hc]. revert cur.
  induction x as [|a x IH]; intros cur.
  - cbn [append]. now rewrite sapp_nil_r.
  - cbn [count] in Hq, Hc.
    destruct (Ascii.eqb a quote) eqn:Ha; [simpl in Hq; lia|].
    destruct (Ascii.eqb a comma) eqn:Hb; [simpl in Hc; lia|].
    cbn [append parseLoop]. rewrite Ha, Hb.
    rewrite IH by assumption. now rewrite sapp_assoc.
Qed.

Lemma parse_plain_join (l : list string) (res : option (list string)) :
  l <> [] ->
  Forall plainElem l ->
  len res <> 0 \/ l <> [EmptyString] ->
  parseLoop (Join l ",") false EmptyString res = Some (toList res ++ l).
Proof.
  revert res. induction l as [|x l IH]; intros res Hne Hall Hok; [congruence|].
  inversion Hall as [|x' l' Hx Hl]; subst.
  destruct l as [|y l].
  - cbn [Join].
    rewrite <- (sapp_nil_r x) at 1.
    rewrite parse_plain by assumption.
    cbn [append parseLoop].
    destruct (Nat.eqb (String.length x) 0) eqn:Hlen.
    + destruct (Nat.eqb (len res) 0) eqn:Hr.
      * exfalso. apply Nat.eqb_eq in Hlen, Hr.
        destruct Hok as [Hok|Hok]; [now apply Hok|].
        apply Hok. destruct x; [reflexivity | discriminate].
      * cbn [negb orb]. apply append1_toList.
    + cbn [negb orb]. apply append1_toList.
  - change (Join (x :: y :: l) ",")
      with (x ++ String comma (Join (y :: l) ","))%string.
    rewrite parse_plain by assumption.
    cbn [append].
    change (parseLoop (String comma (Join (y :: l) ",")) false x res)
      with (parseLoop (Join (y :: l) ",") false EmptyString (append1 res x)).
    rewrite IH.
    + rewrite append1_toList. cbn [toList]. now rewrite <- app_assoc.
    + discriminate.
    + assumption.
    + left. apply len_append1.
Qed.

Lemma Join_empty (l : list string) :
  l <> [] -> l <> [EmptyString] -> Join l "," <> EmptyString.
Proof.
  intros Hne Hone. destruct l as [|x [|y l]]; [congruence| |].
  - cbn [Join]. intros ->. now apply Hone.
  - cbn [Join]. destruct x; discriminate.
Qed.

(** X3: [Scan] also reads the literal that the database writes for simple
    elements, without quotes: for every non-empty sequence of elements
    holding no quote and no comma, other than the sequence of one empty
    string, the literal of the elements joined by commas between braces
    scans to the sequence. *)
Theorem X3_scan_reads_unquoted_elements (l : list string) :
  l <> [] -> l <> [EmptyString] -> Forall plainElem l ->
  Scan (ScanString (plainLiteral l)) = inl (Some l)
  /\ Scan (ScanBytes (plainLiteral l)) = inl (Some l).
Proof.
  intros Hne Hone Hall.
  assert (HP : parseArray (plainLiteral l) = inl (Some l)).
  { unfold plainLiteral.
    set (J := Join l ",").
    assert (HJ : J <> EmptyString) by (now apply Join_empty).
    destruct J as [|a J'] eqn:EJ; [congruence|].
    assert (Hin : inner ("{" ++ String a J' ++ "}")%string = String a J').
    { unfold inner. cbn [append String.length substring].
      rewrite slength_app. cbn [String.length].
      replace (S (S (String.length J' + 1)) - 2) with (S (String.length J'))
        by lia.
      change (String a (J' ++ "}"))%string with (String a J' ++ "}")%string.
      apply (substring_prefix (String a J') "}"). }
    assert (Hsuf : HasSuffix ("{" ++ String a J' ++ "}")%string "}" = true).
    { rewrite <- sapp_assoc. apply HasSuffix_app. }
    unfold parseArray. rewrite Hin, Hsuf.
    assert (Hbr : String.eqb ("{" ++ String a J' ++ "}")%string "{}" = false).
    { cbn [append String.eqb]. rewrite Ascii.eqb_refl.
      destruct (Ascii.eqb a "}"); [|reflexivity].
      destruct J'; reflexivity. }
    rewrite Hbr.
    cbn [append String.eqb HasPrefix Ascii.eqb Bool.eqb orb andb negb].
    rewrite <- EJ. unfold J. rewrite parse_plain_join; auto. }
  split; exact HP.
Qed.

Lemma X3_witness :
  ["a"; "b c"] <> [] /\ ["a"; "b c"] <> [EmptyString]
  /\ Forall plainElem ["a"; "b c"]
  /\ Scan (ScanString "{a,b c}") = inl (Some ["a"; "b c"]).
Proof.
  assert (H1 : ["a"; "b c"] <> @nil string) by discriminate.
  assert (H2 : ["a"; "b c"] <> [EmptyString]) by discriminate.
  assert (H3 : Forall plainElem ["a"; "b c"])
    by (repeat constructor).
  split; [exact H1|]. split; [exact H2|]. split; [exact H3|].
  exact (proj1 (X3_scan_reads_unquoted_elements ["a"; "b c"] H1 H2 H3)).
Defined.

End PqArraysMore.

(** ** More on the statement splitter and on running a migration *)

Module MigratorMore.
Import Migrator MigratorExec MigratorFacts.

(** *** White space at the ends *)

Lemma trimLeft_headOk (s : runes) : headOk (trimLeft s).
Proof.
  induction s as [|c s IH]; [exact I|].
  cbn [trimLeft]. destruct (isSpace c) eqn:Hc; [exact IH | exact Hc].
Qed.

Lemma trimLeft_id (s : runes) : headOk s -> trimLeft s = s.
Proof. destruct s as [|c s]; [reflexivity|]. cbn. now intros ->. Qed.

Lemma trimLeft_suffix (s : runes) :
  exists p, s = p ++ trimLeft s /\ Forall (fun c => isSpace c = true) p.
Proof.
  induction s as [|c s (p & Hp & Hall)].
  - exists []. split; [reflexivity | constructor].
  - cbn [trimLeft]. destruct (isSpace c) eqn:Hc.
    + exists (c :: p). split; [cbn; now rewrite <- Hp | now constructor].
    + exists []. split; [reflexivity | constructor].
Qed.

Lemma headOk_rev_suffix (a p b : runes) :
  headOk a -> rev a = p ++ b -> headOk (rev b).
Proof.
  intros Ha H.
  assert (Ha' : a = rev b ++ rev p).
  { rewrite <- (rev_involutive a), H, rev_app_distr. reflexivity. }
  destruct (rev b) as [|c r]; [exact I|].
  subst a. exact Ha.
Qed.

Lemma TrimSpace_ends (s : runes) :
  headOk (TrimSpace s) /\ headOk (rev (TrimSpace s)).
Proof.
  unfold TrimSpace.
  destruct (trimLeft_suffix (rev (trimLeft s))) as (p & Hp & _).
  split.
  - eapply headOk_rev_suffix; [apply (trimLeft_headOk s) | exact Hp].
  - rewrite rev_involutive. apply trimLeft_headOk.
Qed.

Lemma TrimSpace_fixed (s : runes) :
  headOk s -> headOk (rev s) -> TrimSpace s = s.
Proof.
  intros H1 H2. unfold TrimSpace.
  rewrite (trimLeft_id s H1), (trimLeft_id (rev s) H2).
  apply rev_involutive.
Qed.

Lemma TrimSpace_idempotent (s : runes) : TrimSpace (TrimSpace s) = TrimSpace s.
Proof. destruct (TrimSpace_ends s). now apply TrimSpace_fixed. Qed.

Lemma trimLeft_incl (s : runes) (x : rune) : In x (trimLeft s) -> In x s.
Proof.
  destruct (trimLeft_suffix s) as (p & Hp & _).
  intros H. rewrite Hp. apply in_or_app. now right.
Qed.

Lemma TrimSpace_incl (s : runes) (x : rune) : In x (TrimSpace s) -> In x s.
Proof.
  unfold TrimSpace. intros H.
  apply in_rev in H. apply trimLeft_incl in H.
  apply in_rev in H. now apply trimLeft_incl in H.
Qed.

Lemma trimLeft_nil (s : runes) :
  trimLeft s = [] -> Forall (fun c => isSpace c = true) s.
Proof.
  destruct (trimLeft_suffix s) as (p & Hp & Hall).
  intros H. rewrite H, app_nil_r in Hp. now subst.
Qed.

Lemma TrimSpace_nil (s : runes) :
  TrimSpace s = [] -> Forall (fun c => isSpace c = true) s.
Proof.
  unfold TrimSpace. intros H.
  assert (H1 : trimLeft (rev (trimLeft s)) = []).
  { rewrite <- (rev_involutive (trimLeft _)), H. reflexivity. }
  apply trimLeft_nil in H1.
  assert (H2 : trimLeft s = []).
  { pose proof (trimLeft_headOk s) as Hh.
    destruct (trimLeft s) as [|c r] eqn:E; [reflexivity|].
    exfalso. cbn in Hh.
    rewrite Forall_forall in H1.
    specialize (H1 c ltac:(apply in_rev; rewrite rev_involutive; now left)).
    congruence. }
  now apply trimLeft_nil.
Qed.

(** *** The statements that the splitter returns *)

Lemma notOnlyComments_hasCodeLine (stmt : runes) :
  isOnlyComments stmt = false -> hasCodeLine stmt.
Proof.
  unfold isOnlyComments, hasCodeLine.
  induction (splitLines stmt []) as [|line lines IH]; [discriminate|].
  cbn [forallb]. intros H.
  destruct (isEmpty (TrimSpace line) || hasDashDash (TrimSpace line)) eqn:Hl.
  - destruct (IH H) as (l & Hin & Hne & Hd).
    exists l. split; [now right | now split].
  - apply orb_false_iff in Hl as [He Hd].
    exists line. split; [now left|]. split; [|exact Hd].
    intros E. rewrite E in He. discriminate.
Qed.

Lemma flush_wellFormed (cur : runes) (stmts : list runes) :
  Forall wellFormed stmts -> Forall wellFormed (flush cur stmts).
Proof.
  intros H. unfold flush.
  destruct (isEmpty (TrimSpace cur)) eqn:He; [exact H|].
  destruct (isOnlyComments (TrimSpace cur)) eqn:Hc; [exact H|].
  cbn [negb andb]. apply Forall_app. split; [exact H|].
  constructor; [|constructor].
  split; [|split].
  - intros E. rewrite E in He. discriminate.
  - apply TrimSpace_idempotent.
  - now apply notOnlyComments_hasCodeLine.
Qed.

Lemma splitLoop_wellFormed (n : nat) :
  forall (rs : runes) (b : bool) (cur : runes) (stmts : list runes),
    List.length rs <= n ->
    Forall wellFormed stmts ->
    Forall wellFormed (splitLoop rs b cur stmts).
Proof.
  induction n as [|n IH]; intros rs b cur stmts Hlen H.
  - destruct rs; [|simpl in Hlen; lia].
    cbn [splitLoop]. destruct (negb (isEmpty cur)); [|exact H].
    now apply flush_wellFormed.
  - destruct rs as [|c rest].
    + cbn [splitLoop]. destruct (negb (isEmpty cur)); [|exact H].
      now apply flush_wellFormed.
    + cbn [splitLoop]. simpl in Hlen.
      assert (Hother :
        Forall wellFormed
          (if negb b && (c =? r_semi)%N
           then splitLoop rest b [] (flush (cur ++ [c]) stmts)
           else splitLoop rest b (cur ++ [c]) stmts)).
      { destruct (negb b && (c =? r_semi)%N).
        - apply IH; [lia | now apply flush_wellFormed].
        - apply IH; [lia | exact H]. }
      destruct (c =? r_dollar)%N; [|exact Hother].
      destruct rest as [|c2 rest']; [exact Hother|].
      destruct (c2 =? r_dollar)%N; [|exact Hother].
      apply IH; [simpl in Hlen; lia | exact H].
Qed.

(** X4: whatever the input, every statement that the splitter returns is
    not empty, has no white space at either end, and has a line that,
    trimmed, is not empty and does not begin with two dashes.  Only such
    line comments are left out: an input that is one block comment is
    returned as a statement, and so is a lone semicolon. *)
Theorem X4_split_statements_are_well_formed (sql : runes) :
  Forall wellFormed (splitSQLStatements sql)
  /\ splitSQLStatements blockComment = [blockComment]
  /\ splitSQLStatements loneSemicolon = [loneSemicolon].
Proof.
  split; [|split; vm_compute; reflexivity].
  unfold splitSQLStatements.
  apply (splitLoop_wellFormed (List.length sql)); [lia | constructor].
Qed.

(** *** How the splitter goes through its input *)

Lemma flush_acc (cur : runes) (stmts : list runes) :
  flush cur stmts = stmts ++ flush cur [].
Proof.
  unfold flush.
  destruct (negb (isEmpty (TrimSpace cur)) && negb (isOnlyComments (TrimSpace cur)));
    [reflexivity | now rewrite app_nil_r].
Qed.

Lemma splitLoop_acc (n : nat) :
  forall (rs : runes) (b : bool) (cur : runes) (stmts : list runes),
    List.length rs <= n ->
    splitLoop rs b cur stmts = stmts ++ splitLoop rs b cur [].
Proof.
  induction n as [|n IH]; intros rs b cur stmts Hlen.
  - destruct rs; [|simpl in Hlen; lia].
    cbn [splitLoop]. destruct (negb (isEmpty cur));
      [apply flush_acc | now rewrite app_nil_r].
  - destruct rs as [|c rest].
    + cbn [splitLoop]. destruct (negb (isEmpty cur));
        [apply flush_acc | now rewrite app_nil_r].
    + cbn [splitLoop]. simpl in Hlen.
      assert (Hother :
        (if negb b && (c =? r_semi)%N
         then splitLoop rest b [] (flush (cur ++ [c]) stmts)
         else splitLoop rest b (cur ++ [c]) stmts)
        = stmts ++
          (if negb b && (c =? r_semi)%N
           then splitLoop rest b [] (flush (cur ++ [c]) [])
           else splitLoop rest b (cur ++ [c]) [])).
      { destruct (negb b && (c =? r_semi)%N).
        - rewrite (IH rest b [] (flush (cur ++ [c]) stmts)) by lia.
          rewrite (IH rest b [] (flush (cur ++ [c]) [])) by lia.
          rewrite (flush_acc (cur ++ [c]) stmts). now rewrite app_assoc.
        - apply IH. lia. }
      destruct (c =? r_dollar)%N; [|exact Hother].
      destruct rest as [|c2 rest']; [exact Hother|].
      destruct (c2 =? r_dollar)%N; [|exact Hother].
      apply IH. simpl in Hlen. lia.
Qed.

Lemma splitLoop_outside (pre rest cur : runes) (stmts : list runes) :
  noRune r_dollar pre -> noRune r_semi pre ->
  splitLoop (pre ++ rest) false cur stmts
  = splitLoop rest false (cur ++ pre) stmts.
Proof.
  revert cur. induction pre as [|c pre IH]; intros cur Hd Hs.
  - now rewrite app_nil_r.
  - apply noRune_cons in Hd as [Hc Hd].
    apply noRune_cons in Hs as [Hc' Hs].
    cbn [app splitLoop].
    apply N.eqb_neq in Hc. apply N.eqb_neq in Hc'.
    rewrite Hc, Hc'. cbn [negb andb].
    rewrite IH by assumption.
    now rewrite <- app_assoc.
Qed.

(** X5: the statements of an input are the statement that ends at its
    first semicolon, followed by the statements of what comes after it,
    when no [$] comes before that semicolon: the text before a semicolon
    has no influence on how the text after it is split. *)
Theorem X5_split_at_first_semicolon (pre post : runes) :
  noRune r_dollar pre -> noRune r_semi pre ->
  splitSQLStatements (pre ++ r_semi :: post)
  = flush (pre ++ [r_semi]) [] ++ splitSQLStatements post.
Proof.
  intros Hd Hs. unfold splitSQLStatements.
  rewrite semicolon_splits_outside_dollar_quote by assumption.
  cbn [app].
  apply (splitLoop_acc (List.length post)). lia.
Qed.

Lemma X5_witness :
  noRune r_dollar (lit "SELECT 1") /\ noRune r_semi (lit "SELECT 1")
  /\ splitSQLStatements (lit "SELECT 1" ++ r_semi :: lit " SELECT 2;")
     = [lit "SELECT 1;"; lit "SELECT 2;"].
Proof.
  assert (Hd : noRune r_dollar (lit "SELECT 1")).
  { intros x Hx E. subst x. vm_compute in Hx. intuition discriminate. }
  assert (Hs : noRune r_semi (lit "SELECT 1")).
  { intros x Hx E. subst x. vm_compute in Hx. intuition discriminate. }
  split; [exact Hd|]. split; [exact Hs|].
  exact (X5_split_at_first_semicolon (lit "SELECT 1") (lit " SELECT 2;") Hd Hs).
Defined.

(** X6: a statement with one anonymous dollar-quoted body is never split
    inside the body: for a text before the quote without [$] and [;] and
    a body without [$], whatever semicolons, quotes and line ends the body
    holds, the input [text $$ body $$ ;] gives the whole input, trimmed, as
    its one statement (or nothing, if it is all one comment). *)
Theorem X6_anonymous_dollar_quote_is_one_statement (pre body : runes) :
  noRune r_dollar pre -> noRune r_semi pre -> noRune r_dollar body ->
  let whole := pre ++ dd ++ body ++ dd ++ [r_semi] in
  TrimSpace whole <> []
  /\ splitSQLStatements whole
     = if isOnlyComments (TrimSpace whole) then [] else [TrimSpace whole].
Proof.
  intros Hd Hs Hb whole.
  assert (Hne : TrimSpace whole <> []).
  { intros E. apply TrimSpace_nil in E.
    rewrite Forall_forall in E.
    specialize (E r_dollar). unfold whole, dd in E.
    assert (Hin : In r_dollar (pre ++ [r_dollar; r_dollar] ++ body
                               ++ [r_dollar; r_dollar] ++ [r_semi])).
    { apply in_or_app. right. now left. }
    specialize (E Hin). vm_compute in E. discriminate. }
  split; [exact Hne|].
  assert (Hsplit : splitSQLStatements whole = flush whole []).
  { unfold splitSQLStatements, whole, dd.
    rewrite splitLoop_outside by assumption.
    cbn [app].
    rewrite anonymous_dollar_quote_kept by assumption.
    cbn [splitLoop]. change (r_semi =? r_dollar)%N with false.
    rewrite N.eqb_refl. cbn [negb andb isEmpty].
    f_equal. rewrite <- !app_assoc. cbn [app]. f_equal. f_equal. f_equal.
    rewrite <- app_assoc. reflexivity. }
  rewrite Hsplit. unfold flush.
  destruct (TrimSpace whole) as [|c r] eqn:E; [congruence|].
  cbn [isEmpty negb andb].
  destruct (isOnlyComments (c :: r)); reflexivity.
Qed.

Lemma X6_witness :
  noRune r_dollar (lit "DO ") /\ noRune r_semi (lit "DO ")
  /\ noRune r_dollar (lit " BEGIN SELECT 1; END ")
  /\ splitSQLStatements (lit "DO $$ BEGIN SELECT 1; END $$;")
     = [lit "DO $$ BEGIN SELECT 1; END $$;"].
Proof.
  assert (Hd : noRune r_dollar (lit "DO ")).
  { intros x Hx E. subst x. vm_compute in Hx. intuition discriminate. }
  assert (Hs : noRune r_semi (lit "DO ")).
  { intros x Hx E. subst x. vm_compute in Hx. intuition discriminate. }
  assert (Hb : noRune r_dollar (lit " BEGIN SELECT 1; END ")).
  { intros x Hx E. subst x. vm_compute in Hx. intuition discriminate. }
  split; [exact Hd|]. split; [exact Hs|]. split; [exact Hb|].
  exact (proj2 (X6_anonymous_dollar_quote_is_one_statement
                  (lit "DO ") (lit " BEGIN SELECT 1; END ") Hd Hs Hb)).
Defined.

End MigratorMore.

(** ** Running the statements of a migration *)

Module MigratorExecFacts.
Import Migrator MigratorExec MigratorFacts MigratorMore.

Section Exec.

Variable ToUpper : runes -> runes.
Variable E : Type.
Variable ExecContext : list runes -> runes -> option E.

Lemma ranInOrder_step failed stmt todo done err executed :
  ExecContext done stmt = None ->
  ranInOrder E ExecContext failed todo (done ++ [stmt]) err executed ->
  ranInOrder E ExecContext failed (stmt :: todo) done err executed.
Proof.
  intros Hok (ran & rest & He & Ht & Hs & Hend).
  exists (stmt :: ran), rest.
  split; [rewrite He, <- app_assoc; reflexivity|].
  split; [rewrite Ht; reflexivity|].
  split.
  - intros before s after Hran Hafter.
    destruct before as [|b before].
    + cbn in Hran. injection Hran as <- _. now rewrite app_nil_r.
    + cbn in Hran. injection Hran as <- Hran.
      specialize (Hs before s after Hran Hafter).
      rewrite <- app_assoc in Hs. exact Hs.
  - destruct err as [x|]; [|exact Hend].
    destruct Hend as (before & s & e & Hran & Hfail & Hx).
    exists (stmt :: before), s, e.
    split; [rewrite Hran; reflexivity|].
    split; [|exact Hx].
    rewrite <- app_assoc in Hfail. exact Hfail.
Qed.

Lemma ranInOrder_fail failed stmt todo done e :
  ExecContext done stmt = Some e ->
  ranInOrder E ExecContext failed (stmt :: todo) done (Some (failed stmt e)) (done ++ [stmt]).
Proof.
  intros Hf. exists [stmt], todo.
  split; [reflexivity|]. split; [reflexivity|]. split.
  - intros before s after Hran [Hafter|Hnone]; [|discriminate].
    destruct before as [|b before]; cbn in Hran.
    + injection Hran as _ <-. congruence.
    + injection Hran as _ Hran. destruct before; discriminate.
  - exists [], stmt, e. rewrite app_nil_r. auto.
Qed.

Lemma ranInOrder_done failed done :
  ranInOrder E ExecContext failed [] done None done.
Proof.
  exists [], []. rewrite app_nil_r.
  split; [reflexivity|]. split; [reflexivity|]. split; [|reflexivity].
  intros before s after H. destruct before; discriminate.
Qed.

Lemma runUp_ranInOrder (statements : list runes) :
  forall done,
    ranInOrder E ExecContext (StatementFailed E)
      (filter (fun stmt => negb (isEmpty stmt)
                           && negb (isCreateDatabase ToUpper stmt))
              (map TrimSpace statements))
      done
      (fst (runUp ToUpper E ExecContext statements done))
      (snd (runUp ToUpper E ExecContext statements done)).
Proof.
  induction statements as [|stmt rest IH]; intros done.
  - apply ranInOrder_done.
  - cbn [runUp map filter].
    destruct (isEmpty (TrimSpace stmt)) eqn:He; [apply IH|].
    destruct (isCreateDatabase ToUpper (TrimSpace stmt)) eqn:Hc; [apply IH|].
    cbn [negb andb].
    destruct (ExecContext done (TrimSpace stmt)) as [e|] eqn:Hx.
    + cbn [fst snd]. now apply ranInOrder_fail.
    + apply ranInOrder_step; [exact Hx | apply IH].
Qed.

Lemma runDown_ranInOrder (statements : list runes) :
  forall done,
    ranInOrder E ExecContext (RollbackStatementFailed E)
      (filter (fun stmt => negb (isEmpty stmt)) (map TrimSpace statements))
      done
      (fst (runDown E ExecContext statements done))
      (snd (runDown E ExecContext statements done)).
Proof.
  induction statements as [|stmt rest IH]; intros done.
  - apply ranInOrder_done.
  - cbn [runDown map filter].
    destruct (isEmpty (TrimSpace stmt)) eqn:He; [apply IH|].
    cbn [negb].
    destruct (ExecContext done (TrimSpace stmt)) as [e|] eqn:Hx.
    + cbn [fst snd]. now apply ranInOrder_fail.
    + apply ranInOrder_step; [exact Hx | apply IH].
Qed.

(** X7: [executeMigration] hands to the driver, in order, the trimmed
    statements of the script that are not empty and hold no
    [CREATE DATABASE]; it stops at the first statement that fails and
    returns that failure, so that the statements after it are not run; an
    empty script runs nothing and succeeds.  No statement with
    [CREATE DATABASE] in its upper-cased text is ever run. *)
Theorem X7_execute_migration_runs_in_order (UpSQL : runes) :
  let err := fst (executeMigration ToUpper E ExecContext UpSQL) in
  let executed := snd (executeMigration ToUpper E ExecContext UpSQL) in
  ranInOrder E ExecContext (StatementFailed E) (upCandidates ToUpper UpSQL) [] err executed
  /\ Forall (fun stmt => stmt <> [] /\ isCreateDatabase ToUpper stmt = false)
            executed
  /\ (UpSQL = [] -> err = None /\ executed = []).
Proof.
  intros err executed.
  assert (H : ranInOrder E ExecContext (StatementFailed E) (upCandidates ToUpper UpSQL) []
                         err executed).
  { unfold err, executed, executeMigration, upCandidates.
    destruct UpSQL as [|c r]; [apply ranInOrder_done|].
    cbn [isEmpty]. apply runUp_ranInOrder. }
  split; [exact H|]. split.
  - destruct H as (ran & rest & He & Ht & _). cbn [app] in He. subst ran.
    assert (Hall : Forall (fun stmt => stmt <> []
                           /\ isCreateDatabase ToUpper stmt = false)
                          (upCandidates ToUpper UpSQL)).
    { unfold upCandidates. apply Forall_forall. intros x Hx.
      apply filter_In in Hx as [_ Hx].
      apply andb_true_iff in Hx as [H1 H2].
      split.
      - intros ->. discriminate.
      - now apply negb_true_iff in H2. }
    rewrite Ht in Hall. apply Forall_app in Hall. tauto.
  - intros ->. split; reflexivity.
Qed.

Lemma splitOn_no_sep (sep : rune) (s : runes) :
  forall cur, noRune sep cur -> Forall (noRune sep) (splitOn sep s cur).
Proof.
  induction s as [|c s IH]; intros cur Hcur.
  - constructor; [exact Hcur | constructor].
  - cbn [splitOn]. destruct (c =? sep)%N eqn:Hc.
    + constructor; [exact Hcur|]. apply IH. intros x [].
    + apply IH. intros x Hx. apply in_app_or in Hx as [Hx|[<-|[]]].
      * now apply Hcur.
      * now apply N.eqb_neq.
Qed.

(** X8: [executeRollback] fails without running anything when the
    migration has no rollback script; otherwise it cuts the script at
    every semicolon, dollar quotes or not, and hands the trimmed pieces that
    are not empty to the driver in order, stopping at the first that
    fails.  No statement that it runs is empty or holds a semicolon. *)
Theorem X8_execute_rollback_runs_in_order (DownSQL : runes) :
  let err := fst (executeRollback E ExecContext DownSQL) in
  let executed := snd (executeRollback E ExecContext DownSQL) in
  (DownSQL = [] -> err = Some (NoRollbackScript E) /\ executed = [])
  /\ (DownSQL <> [] ->
      ranInOrder E ExecContext (RollbackStatementFailed E) (downCandidates DownSQL) []
                 err executed)
  /\ Forall (fun stmt => stmt <> [] /\ noRune r_semi stmt) executed.
Proof.
  intros err executed.
  destruct DownSQL as [|c r].
  - split; [intros _; split; reflexivity|].
    split; [congruence | constructor].
  - assert (H : ranInOrder E ExecContext (RollbackStatementFailed E)
                  (downCandidates (c :: r)) [] err executed).
    { unfold err, executed, executeRollback, downCandidates.
      cbn [isEmpty]. apply runDown_ranInOrder. }
    split; [discriminate|]. split; [intros _; exact H|].
    destruct H as (ran & rest & He & Ht & _). cbn [app] in He. subst ran.
    assert (Hall : Forall (fun stmt => stmt <> [] /\ noRune r_semi stmt)
                          (downCandidates (c :: r))).
    { unfold downCandidates. apply Forall_forall. intros x Hx.
      apply filter_In in Hx as [Hin Hx].
      split; [intros ->; discriminate|].
      apply in_map_iff in Hin as (piece & <- & Hpiece).
      pose proof (splitOn_no_sep r_semi (c :: r) [] ltac:(intros y [])) as Hp.
      rewrite Forall_forall in Hp. specialize (Hp piece Hpiece).
      intros y Hy. apply Hp. now apply TrimSpace_incl. }
    rewrite Ht in Hall. apply Forall_app in Hall. tauto.
Qed.

End Exec.

End MigratorExecFacts.

(** ** The statements reported by an automatic migration *)

Module AutoMigrateFacts.
Import Migrator AutoMigrate MigratorMore.

Lemma extractLoop_reported (lines : list runes) :
  forall current statements,
    Forall reported statements ->
    Forall reported (extractLoop lines current statements).
Proof.
  assert (Hadd : forall cur statements,
             Forall reported statements ->
             Forall reported
               (if negb (isEmpty (TrimSpace cur))
                then statements ++ [TrimSpace cur] else statements)).
  { intros cur statements H.
    destruct (isEmpty (TrimSpace cur)) eqn:He; [exact H|].
    cbn [negb]. apply Forall_app. split; [exact H|].
    constructor; [|constructor]. split.
    - intros E. rewrite E in He. discriminate.
    - apply TrimSpace_idempotent. }
  induction lines as [|line rest IH]; intros current statements H.
  - cbn [extractLoop]. destruct (negb (isEmpty current)); [|exact H].
    now apply Hadd.
  - cbn [extractLoop].
    destruct (isEmpty (TrimSpace line) || hasDashDash (TrimSpace line));
      [now apply IH|].
    destruct (endsWithSemi (TrimSpace line)); apply IH; [|exact H].
    now apply Hadd.
Qed.

Lemma extractLoop_skipped (lines : list runes) :
  forallb skipped lines = true -> extractLoop lines [] [] = [].
Proof.
  induction lines as [|line rest IH]; [reflexivity|].
  cbn [forallb extractLoop]. intros H.
  apply andb_true_iff in H as [H1 H2].
  unfold skipped in H1. rewrite H1. now apply IH.
Qed.

(** X9: [extractSQLStatements] never reports an empty statement or one
    with white space at an end, and it reports nothing for a script whose
    lines are all blank or [--] comments. *)
Theorem X9_extract_reports_trimmed_statements (upSQL : runes) :
  Forall reported (extractSQLStatements upSQL)
  /\ (forallb skipped (splitLines upSQL []) = true ->
      extractSQLStatements upSQL = []).
Proof.
  unfold extractSQLStatements.
  destruct (isEmpty upSQL).
  - split; [constructor | reflexivity].
  - split; [apply extractLoop_reported; constructor
           | apply extractLoop_skipped].
Qed.

End AutoMigrateFacts.

(** ** More on the rendering of [Query.Update] *)

Module QueryUpdateMore.
Import GoStrings Values Squirrel QueryUpdate QueryUpdateSpec.
Import PqArraysFacts QueryUpdateFacts.

Lemma Replace_none (s new : string) :
  count qmark s = 0 -> Replace s "?" new 1 = s.
Proof.
  unfold Replace. induction s as [|a s IH]; intros Hc; [reflexivity|].
  cbn [count] in Hc.
  destruct (Ascii.eqb a qmark) eqn:Ha; [simpl in Hc; lia|].
  cbn [replaceFrom HasPrefix]. fold qmark. rewrite Ha.
  cbn [andb]. rewrite andb_false_r.
  f_equal. apply IH. exact Hc.
Qed.

Lemma bindSlice_none (s : string) (vs args : list value) (argIndex : Z) :
  count qmark s = 0 ->
  bindSlice s vs args argIndex
  = (s, args ++ vs, (argIndex + Z.of_nat (List.length vs))%Z).
Proof.
  intros Hs. revert args argIndex.
  induction vs as [|v vs IH]; intros args argIndex.
  - cbn [bindSlice List.length Z.of_nat]. now rewrite app_nil_r, Z.add_0_r.
  - cbn [bindSlice]. rewrite Replace_none by assumption.
    rewrite IH. f_equal; [f_equal|].
    + rewrite <- app_assoc. reflexivity.
    + cbn [List.length]. lia.
Qed.

Lemma numberedUpTo_no_qmark (m : nat) (e : string) (n : Z) :
  count qmark e = 0 -> numberedUpTo m e n = e.
Proof.
  revert m n. induction e as [|a e IH]; intros m n Hc; [reflexivity|].
  cbn [count] in Hc. cbn [numberedUpTo].
  destruct (Ascii.eqb a qmark); [simpl in Hc; lia|].
  f_equal. apply IH. exact Hc.
Qed.

Lemma bindSlice_numbers (e : string) :
  forall (pre : string) (vs args : list value) (argIndex : Z),
    count qmark pre = 0 ->
    bindSlice (pre ++ e)%string vs args argIndex
    = ((pre ++ numberedUpTo (List.length vs) e argIndex)%string,
       args ++ vs, (argIndex + Z.of_nat (List.length vs))%Z).
Proof.
  induction e as [|a e IH]; intros pre vs args argIndex Hpre.
  - rewrite sapp_nil_r. cbn [numberedUpTo]. rewrite sapp_nil_r.
    now apply bindSlice_none.
  - cbn [numberedUpTo].
    destruct (Ascii.eqb a qmark) eqn:Ha.
    + apply Ascii.eqb_eq in Ha. subst a.
      destruct vs as [|v vs].
      * cbn [bindSlice List.length Z.of_nat].
        now rewrite app_nil_r, Z.add_0_r.
      * cbn [bindSlice List.length].
        rewrite Replace_skips_prefix by assumption.
        rewrite Replace_first_here.
        rewrite <- sapp_assoc.
        rewrite IH.
        -- rewrite sapp_assoc. f_equal; [f_equal|].
           ++ rewrite <- app_assoc. reflexivity.
           ++ lia.
        -- rewrite count_app, Hpre, placeholder_no_qmark. reflexivity.
    + replace (pre ++ String a e)%string
        with ((pre ++ String a EmptyString) ++ e)%string
        by (rewrite sapp_assoc; reflexivity).
      rewrite IH.
      * rewrite sapp_assoc. reflexivity.
      * rewrite count_app. cbn [count]. rewrite Ha, Hpre. reflexivity.
Qed.

Lemma numberedUpTo_all (e : string) :
  forall (m : nat) (n : Z),
    count qmark e <= m -> numberedUpTo m e n = numbered e n.
Proof.
  induction e as [|a e IH]; intros m n Hm; [reflexivity|].
  cbn [numberedUpTo numbered count] in *. fold qmark.
  destruct (Ascii.eqb a qmark).
  - destruct m as [|m]; [simpl in Hm; lia|].
    rewrite IH by (simpl in Hm; lia). reflexivity.
  - rewrite IH by (simpl in Hm; lia). reflexivity.
Qed.

(** X10: for an action whose value is a list, the first [len(list)]
    question marks of the expression are numbered consecutively from the
    counter, every element of the list is appended to the arguments in
    list order, and the counter advances by [len(list)], also when the
    expression holds fewer question marks than the list has elements.
    When the list has at least as many elements as there are question
    marks, every question mark is numbered. *)
Theorem X10_list_action_binds_in_list_order
  (expression : string) (valueSlice args : list value) (argIndex : Z) :
  bindSlice expression valueSlice args argIndex
  = (numberedUpTo (List.length valueSlice) expression argIndex,
     args ++ valueSlice,
     (argIndex + Z.of_nat (List.length valueSlice))%Z)
  /\ (count qmark expression <= List.length valueSlice ->
      numberedUpTo (List.length valueSlice) expression argIndex
      = numbered expression argIndex).
Proof.
  split.
  - apply (bindSlice_numbers expression EmptyString). reflexivity.
  - apply numberedUpTo_all.
Qed.

Lemma bindAction_spec (action : Action) (args : list value) (argIndex : Z) :
  bindAction action args argIndex
  = Some (partOf action argIndex, args ++ argsOf action,
          (argIndex + Z.of_nat (List.length (argsOf action)))%Z).
Proof.
  unfold bindAction, partOf, argsOf.
  destruct (Value action) as [|s|n|b|l] eqn:Hv; cbn [isNil negb asSlice].
  - now rewrite app_nil_r, Z.add_0_r.
  - rewrite bindScalar_numbers, repeat_length. reflexivity.
  - rewrite bindScalar_numbers, repeat_length. reflexivity.
  - rewrite bindScalar_numbers, repeat_length. reflexivity.
  - f_equal. apply (bindSlice_numbers (Expression action) EmptyString).
    reflexivity.
Qed.

Lemma bindActions_spec (actions : list Action) :
  forall (setParts : list string) (args : list value) (argIndex : Z),
    bindActions actions setParts args argIndex
    = Some (setParts ++ setPartsFrom actions argIndex,
            args ++ argsFrom actions,
            (argIndex + Z.of_nat (List.length (argsFrom actions)))%Z).
Proof.
  induction actions as [|a actions IH]; intros setParts args argIndex.
  - cbn. now rewrite !app_nil_r, Z.add_0_r.
  - cbn [bindActions]. rewrite bindAction_spec, IH.
    unfold argsFrom. cbn [flat_map setPartsFrom].
    rewrite length_app, <- !app_assoc. cbn [app].
    f_equal. f_equal. lia.
Qed.

Lemma length_setPartsFrom (actions : list Action) (n : Z) :
  List.length (setPartsFrom actions n) = List.length actions.
Proof.
  revert n. induction actions as [|a actions IH]; intros n;
    [reflexivity | cbn; now rewrite IH].
Qed.

(** X11: the loop of [Update] over the actions always ends, whatever the
    actions; it yields one SET part per action, in the order supplied,
    numbered by one counter that runs through all the actions from 1, the
    arguments of the actions in the same order, and a counter that is one
    more than the number of arguments bound. *)
Theorem X11_action_loop_numbers_with_one_counter (actions : list Action) :
  bindActions actions [] [] 1
  = Some (setPartsFrom actions 1, argsFrom actions,
          (1 + Z.of_nat (List.length (argsFrom actions)))%Z)
  /\ List.length (setPartsFrom actions 1) = List.length actions.
Proof.
  split; [apply (bindActions_spec actions [] [] 1)|].
  apply length_setPartsFrom.
Qed.

(** Without conditions the rendering has no WHERE clause. *)
Lemma render_without_conditions
  (tableName : string) (conds : list Sqlizer) (a : Action)
  (actions : list Action) :
  render tableName conds [] = Some (inr NoActions)
  /\ render tableName [] (a :: actions)
     = Some (inl {| baseSQL :=
                      ("UPDATE " ++ tableName ++ " SET "
                       ++ Join (setPartsFrom (a :: actions) 1) ", ")%string;
                    boundArgs := argsFrom (a :: actions) |}).
Proof.
  split; [reflexivity|].
  unfold render, renderWith.
  rewrite (bindActions_spec (a :: actions) [] [] 1).
  reflexivity.
Qed.

Lemma HasPrefix_split (s p : string) :
  HasPrefix s p = true -> exists rest, s = (p ++ rest)%string.
Proof.
  revert s. induction p as [|b p IH]; intros s H.
  - exists s. reflexivity.
  - destruct s as [|a s]; [discriminate|].
    cbn [HasPrefix] in H. apply andb_true_iff in H as [Hab Hp].
    apply Ascii.eqb_eq in Hab. subst b.
    destruct (IH s Hp) as [rest ->]. exists rest. reflexivity.
Qed.

Lemma replaceFrom_skip (old new t : string) :
  forall (rest : string) (n : Z),
    replaceFrom old new (t ++ rest)%string (String.length t) n
    = replaceFrom old new rest 0 n.
Proof.
  induction t as [|a t IH]; intros rest n.
  - cbn [append String.length]. destruct rest; reflexivity.
  - cbn [append String.length replaceFrom]. apply IH.
Qed.

Lemma replaceFrom_same (k : nat) (b : ascii) (told : string) :
  forall (s : string) (n : Z),
    String.length s <= k ->
    replaceFrom (String b told) (String b told) s 0 n = s.
Proof.
  induction k as [|k IH]; intros s n Hk.
  - destruct s; [reflexivity | simpl in Hk; lia].
  - destruct s as [|a s]; [reflexivity|].
    cbn [replaceFrom].
    destruct (negb (n =? 0)%Z && HasPrefix (String a s) (String b told)) eqn:Hm.
    + apply andb_true_iff in Hm as [_ Hp].
      destruct (HasPrefix_split _ _ Hp) as [rest Hs].
      cbn [append] in Hs. injection Hs as -> ->.
      cbn [String.length Nat.sub]. rewrite Nat.sub_0_r.
      rewrite replaceFrom_skip.
      rewrite IH.
      * cbn [append]. reflexivity.
      * simpl in Hk. rewrite slength_app in Hk. lia.
    + f_equal. apply IH. simpl in Hk. lia.
Qed.

Lemma Replace_same (s old : string) (n : Z) : Replace s old old n = s.
Proof.
  unfold Replace. destruct old as [|b told]; [reflexivity|].
  apply (replaceFrom_same (String.length s)). lia.
Qed.

Lemma renumber_from_one (n : nat) :
  forall (whereClause : string) (i : Z),
    renumber whereClause 1 i n = whereClause.
Proof.
  induction n as [|n IH]; intros whereClause i; [reflexivity|].
  cbn [renumber]. replace (1 + i)%Z with (i + 1)%Z by lia.
  rewrite Replace_same. apply IH.
Qed.

(** X13: when no action binds a value (every action's value is nil, as
    for NULL, DEFAULT or NOW()), the WHERE clause is appended as squirrel
    rendered it, numbered from [$1], and the arguments are those of the
    conditions: each argument position matches its placeholder, whatever
    the number of conditions. *)
Theorem X13_update_without_bound_actions
  (tableName : string) (c : Sqlizer) (conds : list Sqlizer) (a : Action)
  (actions : list Action) (dummySQL : string) (whereArgs : list value)
  (whereStart : nat) :
  Forall (fun action => Value action = VNil) (a :: actions) ->
  selectOneWhere (c :: conds) = inl (dummySQL, whereArgs) ->
  Index dummySQL "WHERE" = Some whereStart ->
  render tableName (c :: conds) (a :: actions)
  = Some (inl {| baseSQL :=
                   ("UPDATE " ++ tableName ++ " SET "
                    ++ Join (map Expression (a :: actions)) ", "
                    ++ " " ++ from whereStart dummySQL)%string;
                 boundArgs := whereArgs |}).
Proof.
  intros Hnil Hsql Hidx.
  assert (Hargs : forall l, Forall (fun action => Value action = VNil) l ->
                            argsFrom l = []).
  { induction l as [|x l IH]; intros H; [reflexivity|].
    inversion H as [|? ? Hx Hl]; subst.
    unfold argsFrom in *. cbn [flat_map]. rewrite (IH Hl).
    unfold argsOf. now rewrite Hx. }
  assert (Hparts : forall l n, Forall (fun action => Value action = VNil) l ->
                               setPartsFrom l n = map Expression l).
  { induction l as [|x l IH]; intros n H; [reflexivity|].
    inversion H as [|? ? Hx Hl]; subst.
    cbn [setPartsFrom map]. rewrite (IH _ Hl).
    unfold partOf. now rewrite Hx. }
  unfold render, renderWith.
  rewrite (bindActions_spec (a :: actions) [] [] 1).
  rewrite (Hargs _ Hnil), (Hparts _ _ Hnil).
  rewrite Hsql, Hidx.
  cbn [app List.length Z.of_nat Z.add].
  rewrite renumber_from_one.
  rewrite !sapp_assoc. reflexivity.
Qed.

Lemma X13_witness :
  Forall (fun action => Value action = VNil) [setNull]
  /\ selectOneWhere [Leaf "a = ?" [VInt 1]; Leaf "b = ?" [VInt 2]]
     = inl ("SELECT 1 WHERE (a = $1 AND b = $2)", [VInt 1; VInt 2])
  /\ Index "SELECT 1 WHERE (a = $1 AND b = $2)" "WHERE" = Some 9
  /\ render "users" [Leaf "a = ?" [VInt 1]; Leaf "b = ?" [VInt 2]] [setNull]
     = Some (inl {| baseSQL :=
                      "UPDATE users SET name = NULL WHERE (a = $1 AND b = $2)";
                    boundArgs := [VInt 1; VInt 2] |}).
Proof.
  assert (H1 : Forall (fun action => Value action = VNil) [setNull])
    by (repeat constructor).
  split; [exact H1|]. split; [reflexivity|]. split; [reflexivity|].
  exact (X13_update_without_bound_actions "users" (Leaf "a = ?" [VInt 1])
           [Leaf "b = ?" [VInt 2]] setNull []
           "SELECT 1 WHERE (a = $1 AND b = $2)" [VInt 1; VInt 2] 9
           H1 eq_refl eq_refl).
Defined.

End QueryUpdateMore.

(** ** The builder methods and the terminal operations *)

Module QueryMore.
Import Values Squirrel Query QueryBuilder QueryAuth.

Section Builder.

Variable T : Type.
Variable DB : Type.
Variable loadRecord : Query T DB -> include -> T -> DB
                      -> option gerr * T * DB * list event.

(** X14: on a repository without middleware [Delete] sends one statement,
    the DELETE on the table with the conditions of the query, and returns
    the rows affected that the driver reports, or its error.  A LIMIT, an
    OFFSET, an ORDER BY, a join or an include set on the builder before
    is not part of the statement and changes nothing of the result: the
    call after [Limit(1)] is the call without it. *)
Theorem X14_delete_ignores_limit_order_and_joins
  (d : driver T DB) (q : Query T DB) (db : DB) (n m : N)
  (expressions relationships : list string) (joinType : JoinType)
  (table condition : string) :
  middlewares T DB (repo T DB q) = [] ->
  let q' :=
    Limit T DB
      (Offset T DB
         (OrderBy T DB
            (Join T DB (Include T DB q relationships) joinType table condition)
            expressions) m) n in
  let b := {| dbFrom := tableName T DB (repo T DB q);
              dbWhere := addWhere [] (whereClause T DB q) |} in
  let mc := {| Operation := OpDelete; TableName := tableName T DB (repo T DB q);
               QueryBuilder := BDelete b; QueryText := EmptyString;
               Args := []; Metadata := []; Context := ctx T DB q;
               Model := NoModel |} in
  let call := EvExec (executorOf T DB q) (StDelete b) in
  Delete T DB d q' db = Delete T DB d q db
  /\ Delete T DB d q db
     = match deleteToSql b with
       | Some e =>
           (0%Z, Err (OrmError "delete" (tableName T DB (repo T DB q))
                        (Errorf "failed to build delete query: %w" (Some e))),
            db, [EvPipeline mc])
       | None =>
           match ExecContext T DB d (executorOf T DB q) (StDelete b) db with
           | (db', inl (inl rows)) => (rows, Nil, db', [EvPipeline mc; call])
           | (db', inl (inr e)) =>
               (0%Z, Err (OrmError "delete" (tableName T DB (repo T DB q))
                            (Errorf "failed to get rows affected: %w"
                                    (Some (DriverError e)))),
                db', [EvPipeline mc; call])
           | (db', inr e) =>
               (0%Z, Err (PostgreSQLError (DriverError e) "delete"
                            (tableName T DB (repo T DB q))),
                db', [EvPipeline mc; call])
           end
       end.
Proof.
  intros Hmw q' b mc call. split.
  - unfold q'. destruct q as [r b0 [e|] c l o ob w t j i]; reflexivity.
  - apply (QueryFacts.Delete_plain T DB d q db Hmw).
Qed.

(** The query after a list of condition-adding authorization functions. *)
Lemma fold_whereAuth (c : nat) (conds : list Sqlizer) :
  forall q0 : Query T DB,
    err T DB q0 = None ->
    fold_left (fun query authFunc => authFunc c query)
              (map (whereAuth T DB) conds) q0
    = {| repo := repo T DB q0; builder := builder T DB q0; err := None;
         ctx := ctx T DB q0; limit := limit T DB q0;
         offset := offset T DB q0; orderBy := orderBy T DB q0;
         whereClause := whereClause T DB q0 ++ conds; tx := tx T DB q0;
         joins := joins T DB q0; includes := includes T DB q0 |}.
Proof.
  induction conds as [|cond conds IH]; intros q0 Herr.
  - destruct q0. cbn in *. subst. now rewrite app_nil_r.
  - cbn [map fold_left]. unfold whereAuth at 2. unfold Where. rewrite Herr.
    rewrite IH by reflexivity. cbn. now rewrite <- app_assoc.
Qed.

(** X15: on a repository without middleware whose authorization
    functions add conditions, [Query(ctx)] holds these conditions in the
    order of the functions, and [Delete] on it sends the DELETE with
    their conjunction as its WHERE clause; [ExecuteRaw] on the same query
    sends the statement it is given, as on a query without any
    authorization: the conditions do not reach it. *)
Theorem X15_execute_raw_ignores_authorization_conditions
  (d : driver T DB) (r : Repository T DB) (conds : list Sqlizer) (c : nat)
  (query : string) (args : list value) (db : DB) :
  middlewares T DB r = [] ->
  let q := newQuery T DB r (map (whereAuth T DB) conds) c in
  let b := {| dbFrom := tableName T DB r; dbWhere := addWhere [] conds |} in
  let mc := {| Operation := OpDelete; TableName := tableName T DB r;
               QueryBuilder := BDelete b; QueryText := EmptyString;
               Args := []; Metadata := []; Context := c; Model := NoModel |} in
  whereClause T DB q = conds
  /\ (deleteToSql b = None ->
      snd (Delete T DB d q db) = [EvPipeline mc; EvExec OnDb (StDelete b)])
  /\ ExecuteRaw T DB d q query args db
     = ExecuteRaw T DB d (freshQuery T DB r c) query args db
  /\ snd (ExecuteRaw T DB d q query args db)
     = [EvSelect OnDb (StRaw query args)].
Proof.
  intros Hmw q b mc.
  assert (Hq : q = {| repo := r; builder := baseBuilder T DB r; err := None;
                      ctx := c; limit := None; offset := None; orderBy := [];
                      whereClause := conds; tx := None; joins := [];
                      includes := [] |}).
  { unfold q, newQuery. now rewrite fold_whereAuth by reflexivity. }
  split; [now rewrite Hq|].
  split.
  { intros Hsql.
    assert (Hmw' : middlewares T DB (repo T DB q) = [])
      by (rewrite Hq; exact Hmw).
    rewrite (QueryFacts.Delete_plain T DB d q db Hmw').
    rewrite Hq. unfold deleteBuilder, executorOf, entryContext.
    cbn [repo whereClause tx ctx]. fold b. rewrite Hsql.
    destruct (ExecContext T DB d OnDb (StDelete b) db) as [db' [[n|e]|e]];
      reflexivity. }
  rewrite Hq. unfold freshQuery, newQuery, ExecuteRaw, buildFinalQuery,
    executorOf. cbn [fold_left tx repo].
  split; now destruct (SelectContext T DB d OnDb (StRaw query args) db).
Qed.

(** X16: on a repository without middleware, for a query without
    includes, [First] sends the SELECT of the query with [LIMIT 1] in the
    place of whatever LIMIT the query carried (also [Limit(0)]), with its
    ORDER BY and OFFSET.  It returns the first row that the driver gives,
    the not-found error of the table when the driver gives no row, and
    the error of [Find] when the statement cannot be built (a model
    without columns, a condition that does not render) or the driver
    fails.  The database is left as it was. *)
Theorem X16_first_returns_the_head_whatever_the_limit
  (d : driver T DB) (q : Query T DB) (db : DB) :
  middlewares T DB (repo T DB q) = [] ->
  builder T DB q = baseBuilder T DB (repo T DB q) ->
  err T DB q = None ->
  includes T DB q = [] ->
  let b := {| sbColumns := columns T DB (repo T DB q);
              sbFrom := tableName T DB (repo T DB q);
              sbJoins := joinClauses (joins T DB q);
              sbWhere := addWhere [] (whereClause T DB q);
              sbOrderBy := orderBy T DB q;
              sbLimit := Some 1%N;
              sbOffset := offset T DB q |} in
  let mc := {| Operation := OpQuery; TableName := tableName T DB (repo T DB q);
               QueryBuilder := BSelect b; QueryText := EmptyString;
               Args := []; Metadata := []; Context := ctx T DB q;
               Model := NoModel |} in
  let call := EvSelect (executorOf T DB q) (StSelect b) in
  First T DB loadRecord d q db
  = match selectToSql b with
    | Some e =>
        (None, Err (OrmError "find" (tableName T DB (repo T DB q))
                      (Errorf "failed to build query: %w" (Some e))),
         db, [EvPipeline mc])
    | None =>
        match SelectContext T DB d (executorOf T DB q) (StSelect b) db with
        | inr e =>
            (None, Err (OrmError "find" (tableName T DB (repo T DB q))
                          (Errorf "failed to execute query: %w"
                                  (Some (DriverError e)))),
             db, [EvPipeline mc; call])
        | inl [] =>
            (None, Err (OrmError "first" (tableName T DB (repo T DB q))
                          ErrNotFound),
             db, [EvPipeline mc; call])
        | inl (r :: _) => (Some r, Nil, db, [EvPipeline mc; call])
        end
    end.
Proof.
  intros Hmw Hb Herr Hinc b mc call.
  unfold First, Find.
  assert (HL : Limit T DB q 1%N
               = {| repo := repo T DB q; builder := builder T DB q;
                    err := err T DB q; ctx := ctx T DB q; limit := Some 1%N;
                    offset := offset T DB q; orderBy := orderBy T DB q;
                    whereClause := whereClause T DB q; tx := tx T DB q;
                    joins := joins T DB q; includes := includes T DB q |})
    by (unfold Limit; now rewrite Herr).
  rewrite HL. cbn [includes]. rewrite Hinc.
  match goal with
  | |- context [findPlain T DB d ?q1 db] =>
      rewrite (QueryFacts.findPlain_plain T DB d q1 db Hmw);
      rewrite (QueryFacts.findBuilder_base T DB q1 Hb)
  end.
  unfold entryContext, executorOf.
  cbn [repo ctx limit offset orderBy whereClause tx joins].
  fold (executorOf T DB q). fold b. fold mc. fold call.
  destruct (selectToSql b); [reflexivity|].
  destruct (SelectContext T DB d (executorOf T DB q) (StSelect b) db)
    as [[|r rows]|e]; reflexivity.
Qed.

(** X17: [Find] on a query with includes first runs the query without
    them.  When that returns no row, [Find] succeeds with no record and
    never looks at the relationships, so a relationship name that the
    model does not have goes unnoticed; when it returns a row and the
    first included relationship is not one of the model, [Find] returns no
    record and the error [failed to load relationship NAME] that wraps
    [relationship NAME not found], without a call for any record. *)
Theorem X17_unknown_relationship_is_reported_only_with_rows
  (d : driver T DB) (q : Query T DB) (db db' : DB) (inc : include)
  (rest : list include) (rows : list T) (evs : list event) :
  includes T DB q = inc :: rest ->
  relationships T DB (repo T DB q) (name inc) = None ->
  findPlain T DB d (clearIncludes T DB q) db = (rows, Nil, db', evs) ->
  Find T DB loadRecord d q db
  = match rows with
    | [] => ([], Nil, db', evs)
    | _ :: _ =>
        ([], Err (Errorf ("failed to load relationship " ++ name inc ++ ": %w")
                    (Some (Errorf ("relationship " ++ name inc ++ " not found")
                                  None))),
         db', evs)
    end.
Proof.
  intros Hinc Hrel HP.
  unfold Find. rewrite Hinc. unfold findWithRelationships. rewrite HP, Hinc.
  destruct rows as [|r rows]; [reflexivity|].
  cbn [loadAll]. unfold loadRelationship.
  change (repo T DB (clearIncludes T DB q)) with (repo T DB q).
  rewrite Hrel. now rewrite app_nil_r.
Qed.

(** X12: on a repository without middleware and for a query without
    conditions, [Update] with at least one action sends one statement,
    [UPDATE table SET] followed by the SET parts joined by commas and no
    WHERE clause, with the arguments of the actions, and returns the rows
    affected that the driver reports, or its error.  With no action
    [Update] fails with [no actions provided] before any call, whatever
    the query and the middleware. *)
Theorem X12_update_without_conditions
  (d : driver T DB) (q : Query T DB) (a : Action) (actions : list Action)
  (db : DB) :
  middlewares T DB (repo T DB q) = [] ->
  whereClause T DB q = [] ->
  let sql := ("UPDATE " ++ tableName T DB (repo T DB q) ++ " SET "
              ++ GoStrings.Join
                   (QueryUpdateSpec.setPartsFrom (a :: actions) 1) ", ")%string in
  let args := QueryUpdateSpec.argsFrom (a :: actions) in
  let mc := {| Operation := OpUpdateMany;
               TableName := tableName T DB (repo T DB q);
               QueryBuilder := BString sql; QueryText := EmptyString;
               Args := []; Metadata := []; Context := ctx T DB q;
               Model := ModelActions (a :: actions) |} in
  let call := EvExec (executorOf T DB q) (StRaw sql args) in
  Update T DB d q (a :: actions) db
  = Some match ExecContext T DB d (executorOf T DB q) (StRaw sql args) db with
         | (db', inl (inl rows)) => (rows, Nil, db', [EvPipeline mc; call])
         | (db', inl (inr e)) =>
             (0%Z, Err (OrmError "update" (tableName T DB (repo T DB q))
                          (Errorf "failed to get rows affected: %w"
                                  (Some (DriverError e)))),
              db', [EvPipeline mc; call])
         | (db', inr e) =>
             (0%Z, Err (PostgreSQLError (DriverError e) "update"
                          (tableName T DB (repo T DB q))),
              db', [EvPipeline mc; call])
         end
  /\ (forall (q0 : Query T DB) (db0 : DB),
        Update T DB d q0 [] db0
        = Some (0%Z, Err (OrmError "update" (tableName T DB (repo T DB q0))
                            (Errorf "no actions provided" None)), db0, [])).
Proof.
  intros Hmw Hw sql args mc call. split; [|reflexivity].
  unfold Update. rewrite Hw.
  rewrite (proj2 (QueryUpdateMore.render_without_conditions
                    (tableName T DB (repo T DB q)) [] a actions)).
  cbn [QueryUpdate.baseSQL QueryUpdate.boundArgs].
  rewrite (QueryFacts.executeQueryMiddleware_plain T DB q _ _ _ _ _ Hmw).
  unfold updateFinal, entryContext. cbn [database].
  fold sql. fold args.
  destruct (ExecContext T DB d (executorOf T DB q) (StRaw sql args) db)
    as [db' [[n|e]|e]]; reflexivity.
Qed.

End Builder.

Lemma X14_witness :
  let q := Where nat (list nat) allRows fromTwenty in
  middlewares nat (list nat) (repo nat (list nat) q) = []
  /\ Delete nat (list nat) exampleDriver
       (Limit nat (list nat)
          (Offset nat (list nat)
             (OrderBy nat (list nat)
                (Join nat (list nat) (Include nat (list nat) q ["posts"])
                   InnerJoin "profiles" "profiles.user_id = users.id")
                ["id DESC"]) 1%N) 1%N)
       [10; 20; 30]
     = Delete nat (list nat) exampleDriver q [10; 20; 30]
  /\ fst (Delete nat (list nat) exampleDriver q [10; 20; 30])
     = (2%Z, Nil, [10]).
Proof.
  intros q. split; [reflexivity|].
  split; [|vm_compute; reflexivity].
  exact (proj1 (X14_delete_ignores_limit_order_and_joins nat (list nat)
                  exampleDriver q [10; 20; 30] 1%N 1%N ["id DESC"] ["posts"]
                  InnerJoin "profiles" "profiles.user_id = users.id" eq_refl)).
Defined.

Lemma X15_witness :
  middlewares nat (list nat) usersTable = []
  /\ snd (Delete nat (list nat) exampleDriver
            (newQuery nat (list nat) usersTable
               (map (whereAuth nat (list nat)) [fromTwenty]) 0)
            [10; 20; 30])
     = [EvPipeline
          {| Operation := OpDelete; TableName := "users";
             QueryBuilder :=
               BDelete {| dbFrom := "users"; dbWhere := [And [fromTwenty]] |};
             QueryText := EmptyString; Args := []; Metadata := [];
             Context := 0; Model := NoModel |};
        EvExec OnDb
          (StDelete {| dbFrom := "users"; dbWhere := [And [fromTwenty]] |})].
Proof.
  split; [reflexivity|].
  exact (proj1 (proj2 (X15_execute_raw_ignores_authorization_conditions
                         nat (list nat) exampleDriver usersTable [fromTwenty]
                         0 "SELECT 1" [] [10; 20; 30] eq_refl))
               eq_refl).
Defined.

Lemma X16_witness :
  let q := Limit nat (list nat) allRows 0%N in
  middlewares nat (list nat) (repo nat (list nat) q) = []
  /\ builder nat (list nat) q
     = baseBuilder nat (list nat) (repo nat (list nat) q)
  /\ err nat (list nat) q = None
  /\ includes nat (list nat) q = []
  /\ fst (First nat (list nat) keepRecord exampleDriver q [10; 20; 30])
     = (Some 10, Nil, [10; 20; 30]).
Proof.
  intros q.
  split; [reflexivity|]. split; [reflexivity|]. split; [reflexivity|].
  split; [reflexivity|].
  rewrite (X16_first_returns_the_head_whatever_the_limit nat (list nat)
             keepRecord exampleDriver q [10; 20; 30]
             eq_refl eq_refl eq_refl eq_refl).
  vm_compute. reflexivity.
Defined.

Lemma X17_witness :
  includes nat unit withPosts = [{| name := "posts"; conditions := [] |}]
  /\ relationships nat unit (repo nat unit withPosts) "posts" = None
  /\ findPlain nat unit rowsDriver (clearIncludes nat unit withPosts) tt
     = ([10; 20; 30], Nil, tt,
        snd (findPlain nat unit rowsDriver (clearIncludes nat unit withPosts) tt))
  /\ Find nat unit noLoad rowsDriver withPosts tt
     = ([], Err (Errorf "failed to load relationship posts: %w"
                   (Some (Errorf "relationship posts not found" None))),
        tt, snd (findPlain nat unit rowsDriver (clearIncludes nat unit withPosts) tt)).
Proof.
  split; [reflexivity|]. split; [reflexivity|]. split; [reflexivity|].
  exact (X17_unknown_relationship_is_reported_only_with_rows nat unit noLoad
           rowsDriver withPosts tt tt
           {| name := "posts"; conditions := [] |} [] [10; 20; 30] _
           eq_refl eq_refl eq_refl).
Defined.

Lemma X12_witness :
  middlewares nat (list nat) (repo nat (list nat) allRows) = []
  /\ whereClause nat (list nat) allRows = []
  /\ Update nat (list nat) exampleDriver allRows [QueryUpdate.setName]
       [10; 20; 30]
     = Some (3%Z, Nil, [10; 20; 30],
             [EvPipeline
                {| Operation := OpUpdateMany; TableName := "users";
                   QueryBuilder := BString "UPDATE users SET name = $1";
                   QueryText := EmptyString; Args := []; Metadata := [];
                   Context := 0;
                   Model := ModelActions [QueryUpdate.setName] |};
              EvExec OnDb (StRaw "UPDATE users SET name = $1" [VString "X"])]).
Proof.
  split; [reflexivity|]. split; [reflexivity|].
  rewrite (proj1 (X12_update_without_conditions nat (list nat) exampleDriver
                    allRows QueryUpdate.setName [] [10; 20; 30]
                    eq_refl eq_refl)).
  vm_compute. reflexivity.
Defined.

End QueryMore.

(** ** The construction of a repository and the query of an authorized one *)

Module RepoMore.

Section Construct.

Variable F : Type.
Variable M : Type.

(** X18: [NewRepositoryWithExecutor] checks the executor first, then the
    metadata, then the primary keys, and stores nothing when it fails.
    When it succeeds the executor is not nil and the metadata has a
    primary key; the new repository holds an empty authorization list and
    a middleware manager of its own with an empty pipeline, and the
    repositories that existed keep their lists. *)
Theorem X18_new_repository_checks_then_starts_empty
  (h : Repo.heap F M) (executor metadata : Repo.ptr) :
  Repo.wf h ->
  match Repo.NewRepositoryWithExecutor h executor metadata with
  | inr Repo.DatabaseNil => executor = None
  | inr Repo.MetadataNil =>
      executor <> None
      /\ (metadata = None
          \/ exists m, metadata = Some m /\ nth_error (Repo.metas h) m = None)
  | inr Repo.NoPrimaryKey =>
      executor <> None
      /\ exists m md, metadata = Some m
                      /\ nth_error (Repo.metas h) m = Some md
                      /\ Repo.PrimaryKeys md = []
  | inl (r, h') =>
      executor <> None
      /\ (exists m md, metadata = Some m
                       /\ nth_error (Repo.metas h') m = Some md
                       /\ Repo.PrimaryKeys md <> [])
      /\ r = List.length (Repo.repos h)
      /\ Repo.authList h' r = Some []
      /\ Repo.pipelineOf h' r = Some []
      /\ (exists rv, nth_error (Repo.repos h') r = Some rv
                     /\ Repo.db rv = executor
                     /\ Repo.metadata rv = metadata
                     /\ Repo.middlewareManager rv
                        = Some (List.length (Repo.managers h)))
      /\ (forall p pv, nth_error (Repo.repos h) p = Some pv ->
            nth_error (Repo.repos h') p = Some pv
            /\ Repo.authList h' p = Repo.authList h p)
      /\ Repo.wf h'
  end.
Proof.
  intros Hwf. unfold Repo.NewRepositoryWithExecutor.
  destruct executor as [e|]; [|reflexivity].
  destruct metadata as [m|]; [|split; [discriminate | now left]].
  cbn [Repo.make fst snd Repo.metas].
  destruct (nth_error (Repo.metas h) m) as [md|] eqn:Hm;
    [|split; [discriminate | right; now exists m]].
  destruct (Repo.PrimaryKeys md) as [|k ks] eqn:Hpk; cbn [List.length Nat.eqb].
  - split; [discriminate|]. now exists m, md.
  - unfold Repo.newMiddlewareManager, Repo.newRepo.
    cbn [Repo.arrays Repo.managers Repo.metas Repo.repos].
    split; [discriminate|].
    split; [exists m, md; rewrite Hpk; repeat split; [exact Hm | discriminate]|].
    split; [reflexivity|].
    split.
    { unfold Repo.authList. cbn [Repo.repos].
      rewrite nth_error_app2, Nat.sub_diag by lia.
      cbn [nth_error option_map]. unfold Repo.elems.
      cbn [Repo.authorizeFuncs Repo.slen firstn]. reflexivity. }
    split.
    { unfold Repo.pipelineOf. cbn [Repo.repos Repo.managers].
      rewrite nth_error_app2, Nat.sub_diag by lia.
      cbn [nth_error Repo.middlewareManager].
      rewrite nth_error_app2, Nat.sub_diag by lia. reflexivity. }
    split.
    { eexists. split.
      - cbn [Repo.repos]. rewrite nth_error_app2, Nat.sub_diag by lia.
        reflexivity.
      - repeat split. }
    split.
    { intros p pv Hp. split.
      - cbn [Repo.repos]. rewrite nth_error_app1; [exact Hp|].
        apply nth_error_Some. congruence.
      - unfold Repo.authList. cbn [Repo.repos].
        rewrite nth_error_app1 by (apply nth_error_Some; congruence).
        rewrite Hp. cbn [option_map]. f_equal.
        apply RepoFacts.elems_frame. exact (Hwf p pv Hp). }
    intros p pv Hp. cbn [Repo.repos] in Hp.
    destruct (Nat.lt_ge_cases p (List.length (Repo.repos h))) as [Hlt|Hge].
    + rewrite nth_error_app1 in Hp by assumption.
      destruct (Hwf p pv Hp) as [H1 H2].
      split; cbn [Repo.arrays]; [rewrite length_app; simpl; lia|].
      now rewrite app_nth1.
    + rewrite nth_error_app2 in Hp by assumption.
      destruct (p - List.length (Repo.repos h)) as [|k'] eqn:Hk;
        [|destruct k'; discriminate].
      injection Hp as <-.
      split; cbn [Repo.arrays Repo.authorizeFuncs Repo.sptr Repo.slen].
      * rewrite length_app. simpl. lia.
      * lia.
Qed.

End Construct.

Lemma freshHeap_wf : Repo.wf Repo.freshHeap.
Proof. intros p pv Hp. destruct p; discriminate. Defined.

Lemma X18_witness :
  Repo.wf Repo.freshHeap
  /\ Repo.NewRepositoryWithExecutor Repo.freshHeap (Some 0) (Some 0)
     = inl (0, Repo.baseHeap)
  /\ Repo.authList Repo.baseHeap 0 = Some []
  /\ Repo.pipelineOf Repo.baseHeap 0 = Some [].
Proof.
  split; [exact freshHeap_wf|]. split; [reflexivity|].
  pose proof (X18_new_repository_checks_then_starts_empty nat nat
                Repo.freshHeap (Some 0) (Some 0) freshHeap_wf) as H.
  cbv beta iota delta [Repo.NewRepositoryWithExecutor Repo.freshHeap
    Repo.make Repo.newMiddlewareManager Repo.newRepo Repo.metas Repo.arrays
    Repo.managers Repo.repos nth_error Repo.usersMeta Repo.PrimaryKeys
    List.length Nat.eqb app repeat] in H.
  destruct H as (_ & _ & _ & Ha & Hp & _).
  split; [exact Ha | exact Hp].
Defined.

Section AuthorizedQuery.

Import Query RepoQuery.

Variable T : Type.
Variable DB : Type.

Lemma applyAll_snoc (c : nat) (l : list (option (AuthorizeRef T DB)))
  (fn : option (AuthorizeRef T DB)) (start : option (QueryRef T DB)) :
  applyAll T DB c (l ++ [fn]) start
  = match applyAll T DB c l start, fn with
    | Some q, Some f => Some (f c q)
    | _, _ => None
    end.
Proof. unfold applyAll. now rewrite fold_left_app. Qed.

(** What is read through a repository that existed is read as before
    when arrays and repositories are added to the store. *)
Lemma viewAt_old (h : repositories T DB) (a : Repo.addr)
  (rv rv' : Repo.Repository) (arr : list (option (AuthorizeRef T DB)))
  (cols : list string) (rels : string -> option bool) :
  nth_error (Repo.repos h) a = Some rv ->
  viewAt T DB {| Repo.arrays := Repo.arrays h ++ [arr];
                 Repo.managers := Repo.managers h;
                 Repo.metas := Repo.metas h;
                 Repo.repos := Repo.repos h ++ [rv'] |} a cols rels
  = viewAt T DB h a cols rels.
Proof.
  intros Hr. unfold viewAt. cbn [Repo.repos Repo.metas Repo.managers].
  rewrite nth_error_app1 by (apply nth_error_Some; congruence).
  reflexivity.
Qed.

(** What is read through the repository that [Authorize] returns is what
    is read through the receiver. *)
Lemma viewAt_new (h : repositories T DB) (a : Repo.addr)
  (rv rv' : Repo.Repository) (arr : list (option (AuthorizeRef T DB)))
  (cols : list string) (rels : string -> option bool) :
  nth_error (Repo.repos h) a = Some rv ->
  Repo.metadata rv' = Repo.metadata rv ->
  Repo.middlewareManager rv' = Repo.middlewareManager rv ->
  viewAt T DB {| Repo.arrays := Repo.arrays h ++ [arr];
                 Repo.managers := Repo.managers h;
                 Repo.metas := Repo.metas h;
                 Repo.repos := Repo.repos h ++ [rv'] |}
         (List.length (Repo.repos h)) cols rels
  = viewAt T DB h a cols rels.
Proof.
  intros Hr Hm Hmm. unfold viewAt. cbn [Repo.repos Repo.metas Repo.managers].
  rewrite nth_error_app2, Nat.sub_diag by lia. cbn [nth_error].
  now rewrite Hr, Hm, Hmm.
Qed.

(** X19: the query of the repository that [Authorize(fn)] returns is
    built on that repository: its [repo] field points to the new
    repository, the authorization functions of the receiver are applied
    to it in their order, and [fn] is applied last.  [Query] on the
    receiver gives what it gave before.  [Authorize(nil)] is accepted;
    [Query] on the repository it returns then panics. *)
Theorem X19_query_of_an_authorized_repository
  (h : repositories T DB) (a : Repo.addr) (rv : Repo.Repository)
  (fn : option (AuthorizeRef T DB)) (cols : list string)
  (rels : string -> option bool) (r : Repository T DB) (c : nat) :
  Repo.wf h ->
  nth_error (Repo.repos h) a = Some rv ->
  viewAt T DB h a cols rels = Some r ->
  exists (a' : Repo.addr) (h' : repositories T DB)
         (funcs : list (option (AuthorizeRef T DB))),
    Repo.Authorize h a fn = Some (a', h')
    /\ a' <> a
    /\ Repo.authList h a = Some funcs
    /\ QueryAt T DB h a cols rels c
       = applyAll T DB c funcs (Some (freshAt T DB a r c))
    /\ QueryAt T DB h' a cols rels c = QueryAt T DB h a cols rels c
    /\ QueryAt T DB h' a' cols rels c
       = match applyAll T DB c funcs (Some (freshAt T DB a' r c)), fn with
         | Some q, Some f => Some (f c q)
         | _, _ => None
         end.
Proof.
  intros Hwf Hr Hview.
  pose proof (Hwf a rv Hr) as Hv.
  assert (Hlt : a < List.length (Repo.repos h))
    by (apply nth_error_Some; congruence).
  assert (Hl : Repo.authList h a = Some (Repo.elems h (Repo.authorizeFuncs rv)))
    by (unfold Repo.authList; now rewrite Hr).
  eexists _, _, (Repo.elems h (Repo.authorizeFuncs rv)).
  split; [apply (RepoFacts.Authorize_eq _ _ h a rv fn Hr Hv)|].
  split; [lia|].
  split; [exact Hl|].
  split; [unfold QueryAt; now rewrite Hview, Hl|].
  split.
  - unfold QueryAt.
    rewrite (viewAt_old h a rv _ _ cols rels Hr).
    now rewrite (RepoFacts.authList_old _ _ h a rv _ _ Hr Hv).
  - unfold QueryAt.
    match goal with
    | |- context [Repo.repos h ++ [?rv']] =>
        rewrite (viewAt_new h a rv rv' _ cols rels Hr eq_refl eq_refl), Hview;
        rewrite (RepoFacts.authList_new _ _ h rv rv' fn Hv eq_refl)
    end.
    apply applyAll_snoc.
Qed.

End AuthorizedQuery.

Lemma queryHeap_wf : Repo.wf RepoQuery.queryHeap.
Proof.
  intros p pv Hp. destruct p as [|p]; simpl in Hp.
  - injection Hp as <-. split; simpl; lia.
  - destruct p; discriminate.
Defined.

Lemma X19_witness :
  Repo.wf RepoQuery.queryHeap
  /\ nth_error (Repo.repos RepoQuery.queryHeap) 0 = Some Repo.baseRepo
  /\ RepoQuery.viewAt nat unit RepoQuery.queryHeap 0 ["id"]
       RepoQuery.noRelationships
     = Some Query.usersRepo
  /\ exists a' h',
       Repo.Authorize RepoQuery.queryHeap 0 (Some RepoQuery.tenRows)
       = Some (a', h')
       /\ a' <> 0
       /\ RepoQuery.QueryAt nat unit h' a' ["id"] RepoQuery.noRelationships 0
          = Some (RepoQuery.tenRows 0
                    (RepoQuery.freshAt nat unit a' Query.usersRepo 0)).
Proof.
  split; [exact queryHeap_wf|]. split; [reflexivity|]. split; [reflexivity|].
  destruct (X19_query_of_an_authorized_repository nat unit
              RepoQuery.queryHeap 0 Repo.baseRepo (Some RepoQuery.tenRows)
              ["id"] RepoQuery.noRelationships Query.usersRepo 0
              queryHeap_wf eq_refl eq_refl)
    as (a' & h' & funcs & HA & Hne & Hl & _ & _ & HQ).
  exists a', h'. split; [exact HA|]. split; [exact Hne|].
  injection Hl as <-. exact HQ.
Defined.

End RepoMore.

(** ** Transactions: nested calls, what a nil result means, and the
    transaction manager of a repository *)

Module TxMore.
Import Tx.

Section Driver.

Variable U : Type.

Lemma callbacks_only (us : list U) : TxManager.onlyCallbacks U (map EvCallback us).
Proof.
  intros e He. apply in_map_iff in He as (u & <- & _). now exists u.
Qed.

(** X20: the [Storm] that a transaction hands to its callback is in a
    transaction, with or without a logger, so [WithTransaction] or
    [WithTransactionOptions] called on it runs the callback directly:
    nothing is begun, committed or rolled back by the inner call, also
    when the inner callback fails or panics, and the outcome of the inner
    callback is the outcome of the call. *)
Theorem X20_nested_call_joins_the_transaction
  (d : driver U) (dbh tx : nat) (lg : option nat)
  (which : option (option TransactionOptions)) (fn : callback U)
  (past : list (event U)) :
  let s := newStormWithExecutor dbh (SqlxTx tx) lg in
  isInTransaction s = true
  /\ entry U d s which fn past
     = (fst (fn s past), map EvCallback (snd (fn s past)))
  /\ TxManager.onlyCallbacks U (snd (entry U d s which fn past)).
Proof.
  intros s.
  assert (Hin : isInTransaction s = true) by (unfold s; now destruct lg).
  assert (He : entry U d s which fn past
               = (fst (fn s past), map EvCallback (snd (fn s past)))).
  { rewrite TxFacts.entry_withTx. unfold withTx. rewrite Hin.
    now destruct (fn s past). }
  split; [exact Hin|]. split; [exact He|].
  rewrite He. apply callbacks_only.
Qed.

Lemma commit_not_in_callbacks (dbh : nat) (o : option TransactionOptions)
  (us : list U) (tx : nat) :
  ~ In (EvCommit tx) (EvBegin dbh o :: map EvCallback us).
Proof.
  intros [H|H]; [discriminate | now apply TxFacts.callback_is_no_commit in H].
Qed.

(** X21: for a call of [WithTransaction] or [WithTransactionOptions] on a
    [Storm] that is not in a transaction: the call returns nil only if a
    transaction was begun, the callback returned nil in it and the commit
    succeeded, and then the calls are the begin, the callback and the
    commit, with no rollback; with any other outcome no commit stands:
    every commit that was tried is followed by a rollback. *)
Theorem X21_nil_result_means_committed
  (d : driver U) (s : Storm) (which : option (option TransactionOptions))
  (fn : callback U) (past : list (event U)) :
  isInTransaction s = false ->
  let res := entry U d s which fn past in
  (fst res = Returned None ->
     exists dbh tx us,
       db s = SqlxDB dbh
       /\ BeginTxx U d dbh (optionsOf which) past = inl tx
       /\ fn (newStormWithExecutor dbh (SqlxTx tx) (logger s))
             (past ++ [EvBegin dbh (optionsOf which)])
          = (Returned None, us)
       /\ Commit U d tx (past ++ EvBegin dbh (optionsOf which)
                                 :: map EvCallback us) = None
       /\ snd res
          = EvBegin dbh (optionsOf which) :: map EvCallback us ++ [EvCommit tx])
  /\ (fst res <> Returned None ->
        forall tx, In (EvCommit tx) (snd res) -> In (EvRollback tx) (snd res)).
Proof.
  intros Hin res. unfold res. rewrite TxFacts.entry_withTx.
  unfold withTx. rewrite Hin.
  destruct (db s) as [dbh|t|inner l] eqn:Hdb;
    try (split; [discriminate | intros _ tx []]).
  destruct (BeginTxx U d dbh (optionsOf which) past) as [tx|e] eqn:Hb.
  2: { split; [discriminate|]. intros _ tx' [H|[]]. discriminate. }
  destruct (fn (newStormWithExecutor dbh (SqlxTx tx) (logger s))
               (past ++ [EvBegin dbh (optionsOf which)])) as [c us] eqn:Hfn.
  destruct c as [[err|]|v].
  - split; [discriminate|]. intros _ tx' H. cbn [snd deferred] in *.
    apply in_app_or in H as [H|[H|[]]];
      [now apply commit_not_in_callbacks in H | discriminate].
  - cbn [app].
    destruct (Commit U d tx (past ++ EvBegin dbh (optionsOf which)
                                     :: map EvCallback us)) as [e|] eqn:Hc.
    + split; [discriminate|]. intros _ tx' H. cbn [snd deferred app] in *.
      destruct H as [H|H]; [discriminate|].
      apply in_app_or in H as [H|[H|[H|[]]]].
      * now apply TxFacts.callback_is_no_commit in H.
      * injection H as <-. right. apply in_or_app. right. right. now left.
      * discriminate.
    + split; [|intros H; now contradiction H].
      intros _. exists dbh, tx, us. cbn [snd deferred app].
      repeat split; assumption || reflexivity.
  - split; [discriminate|]. intros _ tx' H. cbn [snd deferred] in *.
    apply in_app_or in H as [H|[H|[]]];
      [now apply commit_not_in_callbacks in H | discriminate].
Qed.

(** X22: [TransactionManager.WithTransactionOptions] always begins a
    transaction, and never with nil options: without options it begins
    with the default isolation level, read-write.  When the begin fails
    the callback is not called and the error is returned wrapped.  An
    error of the callback is returned as it is after a rollback; a panic
    of the callback goes on with the same value after a rollback.  When
    the callback returns nil the transaction is committed: the call
    returns nil if the commit succeeds, and the wrapped error of the
    commit, after a rollback, if it fails.  So the call returns nil only
    if the callback returned nil and the commit succeeded, and with any
    other outcome no commit stands. *)
Theorem X22_manager_begins_with_options_and_commits_on_nil
  (d : driver U) (dbh : nat) (opts : option TransactionOptions)
  (fn : TxManager.txCallback U) (past : list (event U)) :
  let res := TxManager.WithTransactionOptions U d dbh opts fn past in
  let o := TxManager.optionsGiven opts in
  let began := EvBegin dbh o in
  (exists rest, snd res = began :: rest)
  /\ TxManager.optionsGiven None
     = Some {| Isolation := 0%Z; ReadOnly := false |}
  /\ (forall e,
        BeginTxx U d dbh o past = inr e ->
        res = (Returned (Some (Errorf "failed to begin transaction: %w"
                                      (Some e))), [began]))
  /\ (forall tx us,
        BeginTxx U d dbh o past = inl tx ->
        (forall err,
           fn tx (past ++ [began]) = (Returned (Some err), us) ->
           res = (Returned (Some err),
                  began :: map EvCallback us ++ [EvRollback tx]))
        /\ (forall v,
              fn tx (past ++ [began]) = (Panicked v, us) ->
              res = (Panicked v,
                     began :: map EvCallback us ++ [EvRollback tx]))
        /\ (fn tx (past ++ [began]) = (Returned None, us) ->
            (Commit U d tx (past ++ began :: map EvCallback us) = None ->
             res = (Returned None,
                    began :: map EvCallback us ++ [EvCommit tx]))
            /\ (forall e,
                  Commit U d tx (past ++ began :: map EvCallback us) = Some e ->
                  res = (Returned (Some (Errorf "failed to commit: %w"
                                                (Some e))),
                         began :: map EvCallback us
                               ++ [EvCommit tx; EvRollback tx]))))
  /\ (fst res = Returned None ->
        exists tx us,
          BeginTxx U d dbh o past = inl tx
          /\ fn tx (past ++ [began]) = (Returned None, us)
          /\ Commit U d tx (past ++ began :: map EvCallback us) = None
          /\ snd res = began :: map EvCallback us ++ [EvCommit tx])
  /\ (fst res <> Returned None ->
        forall tx, In (EvCommit tx) (snd res) -> In (EvRollback tx) (snd res)).
Proof.
  intros res o began.
  assert (Ho : Some {| Isolation := Isolation match opts with
                                              | Some o' => o'
                                              | None => TxManager.DefaultTransactionOptions
                                              end;
                       ReadOnly := ReadOnly match opts with
                                            | Some o' => o'
                                            | None => TxManager.DefaultTransactionOptions
                                            end |} = o)
    by (unfold o; destruct opts as [[i r]|]; reflexivity).
  unfold res, TxManager.WithTransactionOptions. rewrite Ho. clear Ho.
  fold began.
  split.
  { destruct (BeginTxx U d dbh o past) as [tx|e]; [|eexists; reflexivity].
    destruct (fn tx (past ++ [began])) as [[[err|]|v] us];
      try (eexists; reflexivity).
    destruct (Commit U d tx _); eexists; reflexivity. }
  split; [reflexivity|].
  split; [intros e Hb; now rewrite Hb|].
  split.
  { intros tx us Hb. rewrite Hb.
    split; [intros err Hfn; now rewrite Hfn|].
    split; [intros v Hfn; now rewrite Hfn|].
    intros Hfn. rewrite Hfn. cbn [app].
    split; [intros Hc; now rewrite Hc | intros e Hc; now rewrite Hc]. }
  destruct (BeginTxx U d dbh o past) as [tx|e] eqn:Hb.
  2: { split; [discriminate|]. intros _ tx' [H|[]]. discriminate. }
  destruct (fn tx (past ++ [began])) as [c us] eqn:Hfn.
  destruct c as [[err|]|v].
  - split; [discriminate|].
    intros _ tx' H. cbn [snd] in *.
    apply in_app_or in H as [H|[H|[]]];
      [now apply commit_not_in_callbacks in H | discriminate].
  - cbn [app].
    destruct (Commit U d tx (past ++ began :: map EvCallback us))
      as [e|] eqn:Hc.
    + split; [discriminate|].
      intros _ tx' H. cbn [snd app] in *.
      destruct H as [H|H]; [discriminate|].
      apply in_app_or in H as [H|[H|[H|[]]]].
      * now apply TxFacts.callback_is_no_commit in H.
      * injection H as <-. right. apply in_or_app. right. right. now left.
      * discriminate.
    + split; [|intros H; now contradiction H].
      intros _. exists tx, us. repeat split; assumption || reflexivity.
  - split; [discriminate|].
    intros _ tx' H. cbn [snd] in *.
    apply in_app_or in H as [H|[H|[]]];
      [now apply commit_not_in_callbacks in H | discriminate].
Qed.

(** X23: [Repository.WithinTransaction] works only on a repository whose
    executor is the connection pool itself.  On a repository bound to a
    transaction ([IsTransaction] is true), and also on one whose executor
    is a logging wrapper (for which [IsTransaction] is false), it returns
    the error [cannot create transaction manager: repository is already
    using a transaction] without a call of the driver or of the
    callback. *)
Theorem X23_within_transaction_needs_the_pool
  (d : driver U) (db : DBExecutor) (fn : TxManager.txCallback U)
  (past : list (event U)) :
  TxManager.IsTransaction db = true
  \/ (exists inner lg, db = Logging inner lg) ->
  TxManager.WithinTransaction U d db fn past
  = (Returned (Some (Errorf
       "cannot create transaction manager: repository is already using a transaction"
       None)), [])
  /\ (forall inner lg, db = Logging inner lg ->
        TxManager.IsTransaction db = false).
Proof.
  intros [H|(inner & lg & ->)].
  - destruct db; try discriminate. split; [reflexivity|].
    intros inner lg Hd. discriminate.
  - split; reflexivity.
Qed.

End Driver.

Lemma X21_witness :
  isInTransaction poolStorm = false
  /\ entry unit okDriver poolStorm None (fun _ _ => (Returned None, [tt])) []
     = (Returned None, [EvBegin 0 None; EvCallback tt; EvCommit 1]).
Proof.
  split; [reflexivity|].
  destruct (proj1 (X21_nil_result_means_committed unit okDriver poolStorm None
                     (fun _ _ => (Returned None, [tt])) [] eq_refl) eq_refl)
    as (dbh & tx & us & Hdb & Hb & Hfn & Hc & Hs).
  injection Hdb as <-. injection Hb as <-. injection Hfn as <-.
  rewrite (surjective_pairing (entry unit okDriver poolStorm None _ [])), Hs.
  reflexivity.
Defined.

Lemma X22_witness :
  TxManager.WithTransactionOptions unit TxManager.noBegin 0 None
    TxManager.txFailing []
  = (Returned (Some (Errorf "failed to begin transaction: %w"
                            (Some (Other 9)))),
     [EvBegin 0 (Some {| Isolation := 0%Z; ReadOnly := false |})])
  /\ TxManager.WithTransactionOptions unit okDriver 0 None
       TxManager.txFailing []
     = (Returned (Some (Other 3)),
        [EvBegin 0 (Some {| Isolation := 0%Z; ReadOnly := false |});
         EvCallback tt; EvRollback 1]).
Proof.
  split.
  - exact (proj1 (proj2 (proj2
             (X22_manager_begins_with_options_and_commits_on_nil unit
                TxManager.noBegin 0 None TxManager.txFailing [])))
             (Other 9) eq_refl).
  - exact (proj1 (proj1 (proj2 (proj2 (proj2
             (X22_manager_begins_with_options_and_commits_on_nil unit
                okDriver 0 None TxManager.txFailing []))))
             1 [tt] eq_refl) (Other 3) eq_refl).
Defined.

Lemma X23_witness :
  TxManager.IsTransaction (SqlxTx 1) = true
  /\ TxManager.WithinTransaction unit okDriver (SqlxTx 1) TxManager.txFailing []
     = (Returned (Some (Errorf
          "cannot create transaction manager: repository is already using a transaction"
          None)), []).
Proof.
  split; [reflexivity|].
  exact (proj1 (X23_within_transaction_needs_the_pool unit okDriver (SqlxTx 1)
                  TxManager.txFailing [] (or_introl eq_refl))).
Defined.

End TxMore.

(** ** [Apply] and [Rollback] of the migrator *)

Module MigratorApplyFacts.
Import Migrator MigratorExec MigratorApply MigratorMore.

Section Apply.

Variable ToUpper : runes -> runes.
Variable E : Type.

(** No event of a short list is the one looked for. *)
Ltac no_such_event :=
  let H := fresh "H" in
  intros H; cbn in H;
  repeat (destruct H as [H|H]; [discriminate|]); destruct H.

Lemma executedOf_app (a b : list event) :
  executedOf (a ++ b) = executedOf a ++ executedOf b.
Proof.
  induction a as [|e a IH]; [reflexivity|].
  destruct e; cbn [app executedOf]; now rewrite ?IH.
Qed.

Lemma executedOf_map (l : list runes) : executedOf (map EvExec l) = l.
Proof. induction l as [|s l IH]; [reflexivity|]. cbn. now rewrite IH. Qed.

Lemma exec_is_no_commit (l : list runes) : ~ In EvCommit (map EvExec l).
Proof. intros H. apply in_map_iff in H as (s & Hs & _). discriminate. Qed.

Lemma executeMigration_ranInOrder (x : list runes -> runes -> option E)
  (UpSQL : runes) :
  ranInOrder E x (StatementFailed E) (upCandidates ToUpper UpSQL) []
    (fst (executeMigration ToUpper E x UpSQL))
    (snd (executeMigration ToUpper E x UpSQL)).
Proof.
  unfold executeMigration, upCandidates.
  destruct UpSQL as [|c r]; [apply MigratorExecFacts.ranInOrder_done|].
  cbn [isEmpty]. apply MigratorExecFacts.runUp_ranInOrder.
Qed.

Lemma executeRollback_ranInOrder (x : list runes -> runes -> option E)
  (c : rune) (r : runes) :
  ranInOrder E x (RollbackStatementFailed E) (downCandidates (c :: r)) []
    (fst (executeRollback E x (c :: r)))
    (snd (executeRollback E x (c :: r))).
Proof.
  unfold executeRollback, downCandidates. cbn [isEmpty].
  apply MigratorExecFacts.runDown_ranInOrder.
Qed.

(** A run that ended without error ran all that was to run, and all of it
    succeeded. *)
Lemma ranInOrder_all (x : list runes -> runes -> option E)
  (failed : runes -> E -> execError E) (todo executed : list runes) :
  ranInOrder E x failed todo [] None executed ->
  executed = todo
  /\ (forall before stmt after,
        todo = before ++ stmt :: after -> x before stmt = None).
Proof.
  intros (ran & rest & He & Ht & Hok & Hrest).
  subst rest. rewrite app_nil_r in Ht. cbn [app] in He. subst.
  split; [reflexivity|].
  intros before stmt after Hsplit.
  apply (Hok before stmt after Hsplit). now right.
Qed.

(** What ran is the beginning of what was to run. *)
Lemma ranInOrder_prefix (x : list runes -> runes -> option E)
  (failed : runes -> E -> execError E) (todo executed : list runes)
  (err : option (execError E)) :
  ranInOrder E x failed todo [] err executed ->
  exists rest, todo = executed ++ rest.
Proof.
  intros (ran & rest & He & Ht & _). cbn [app] in He. subst.
  now exists rest.
Qed.

Lemma upCandidates_ok (UpSQL : runes) :
  Forall (fun stmt => stmt <> [] /\ isCreateDatabase ToUpper stmt = false)
         (upCandidates ToUpper UpSQL).
Proof.
  unfold upCandidates. apply Forall_forall. intros s Hs.
  apply filter_In in Hs as [_ Hs].
  apply andb_true_iff in Hs as [H1 H2]. split.
  - intros ->. discriminate.
  - now apply negb_true_iff in H2.
Qed.

(** The calls of [Apply]: with an error no commit stands, a transaction
    that was begun ends with a commit or a rollback, and no statement runs
    outside a transaction. *)
Lemma Apply_trace (d : driver E) (migration : Migration) :
  let err := fst (Apply ToUpper E d migration) in
  let evs := snd (Apply ToUpper E d migration) in
  let name := Name migration in
  let todo := upCandidates ToUpper (UpSQL migration) in
  (err = None ->
     (fst (isMigrationApplied E d name) = true
      /\ evs = [EvCreateTable; EvIsApplied name])
     \/ (fst (isMigrationApplied E d name) = false
         /\ evs = [EvCreateTable; EvIsApplied name; EvBegin]
                  ++ map EvExec todo ++ [EvRecord name; EvCommit]
         /\ allSucceed E d todo))
  /\ (err <> None -> In EvCommit evs -> In EvRollback evs)
  /\ (In EvBegin evs -> BeginTxx E d = None ->
        In EvCommit evs \/ In EvRollback evs)
  /\ (~ In EvBegin evs -> executedOf evs = [])
  /\ Forall (fun stmt => stmt <> [] /\ isCreateDatabase ToUpper stmt = false)
            (executedOf evs).
Proof.
  intros err evs name todo. unfold err, evs, Apply. fold name.
  destruct (createMigrationsTable E d) as [e|].
  { cbn [fst snd]. split; [discriminate|]. split; [intros _; no_such_event|].
    split; [no_such_event|]. split; [reflexivity | constructor]. }
  destruct (isMigrationApplied E d name) as [[|] [e|]] eqn:Happ.
  1,3: cbn [fst snd]; split; [discriminate|];
       split; [intros _; no_such_event|];
       split; [no_such_event|]; split; [reflexivity | constructor].
  { cbn [fst snd]. split; [intros _; left; split; reflexivity|].
    split; [intros H; now contradiction H|].
    split; [no_such_event|]. split; [reflexivity | constructor]. }
  destruct (BeginTxx E d) as [e|] eqn:Hbegin.
  { cbn [fst snd]. split; [discriminate|]. split; [intros _; no_such_event|].
    split; [intros _ Hd; discriminate|]. split; [reflexivity | constructor]. }
  pose proof (executeMigration_ranInOrder (ExecContext E d) (UpSQL migration))
    as Hrun.
  destruct (executeMigration ToUpper E (ExecContext E d) (UpSQL migration))
    as [xerr executed].
  cbn [fst snd] in Hrun.
  assert (Hexec : Forall (fun stmt => stmt <> []
                          /\ isCreateDatabase ToUpper stmt = false) executed).
  { destruct (ranInOrder_prefix _ _ _ _ _ Hrun) as [rest Hrest].
    pose proof (upCandidates_ok (UpSQL migration)) as Hall.
    fold todo in Hrest. unfold todo in Hrest. rewrite Hrest in Hall.
    apply Forall_app in Hall. tauto. }
  assert (Hin : forall tail,
             In EvBegin ([EvCreateTable; EvIsApplied name] ++ [EvBegin]
                         ++ map EvExec executed ++ tail))
    by (intros tail; right; right; now left).
  assert (Hex : forall tail,
             executedOf tail = [] ->
             executedOf (([EvCreateTable; EvIsApplied name] ++ [EvBegin]
                          ++ map EvExec executed) ++ tail) = executed).
  { intros tail Ht. rewrite executedOf_app, Ht, app_nil_r. cbn.
    apply executedOf_map. }
  assert (Hnc : ~ In EvCommit ([EvCreateTable; EvIsApplied name] ++ [EvBegin]
                               ++ map EvExec executed)).
  { intros [H|[H|[H|H]]]; try discriminate. now apply exec_is_no_commit in H. }
  destruct xerr as [x|].
  { cbn [fst snd deferred]. split; [discriminate|].
    split.
    { intros _ H. apply in_app_or in H as [H|[H|[]]];
        [now apply Hnc in H | discriminate]. }
    split; [intros _ _; right; apply in_or_app; right; now left|].
    split.
    { intros Hno. exfalso. apply Hno. apply in_or_app. left.
      right. right. now left. }
    rewrite Hex by reflexivity. exact Hexec. }
  destruct (ranInOrder_all _ _ _ _ Hrun) as [-> Hok].
  destruct (insertRecord E d (upCandidates ToUpper (UpSQL migration)) name)
    as [e|].
  { cbn [fst snd deferred]. split; [discriminate|].
    split.
    { intros _ H. apply in_app_or in H as [H|[H|[H|[]]]];
        [now apply Hnc in H | discriminate | discriminate]. }
    split; [intros _ _; right; apply in_or_app; right; right; now left|].
    split.
    { intros Hno. exfalso. apply Hno. apply in_or_app. left.
      right. right. now left. }
    rewrite Hex by reflexivity. exact Hexec. }
  destruct (Commit E d (upCandidates ToUpper (UpSQL migration))) as [e|].
  { cbn [fst snd deferred]. split; [discriminate|].
    split; [intros _ _; apply in_or_app; right; right; right; now left|].
    split; [intros _ _; right; apply in_or_app; right; right; right; now left|].
    split.
    { intros Hno. exfalso. apply Hno. apply in_or_app. left.
      right. right. now left. }
    rewrite Hex by reflexivity. exact Hexec. }
  cbn [fst snd deferred]. split.
  { intros _. right. split; [reflexivity|]. split; [|exact Hok].
    fold todo. cbn [app]. reflexivity. }
  split; [intros H; now contradiction H|].
  split; [intros _ _; left; apply in_or_app; right; right; now left|].
  split.
  { intros Hno. exfalso. apply Hno. apply in_or_app. left.
    right. right. now left. }
  rewrite Hex by reflexivity. exact Hexec.
Qed.

(** The calls of [Rollback]. *)
Lemma Rollback_trace (d : driver E) (migration : Migration) :
  let err := fst (Rollback E d migration) in
  let evs := snd (Rollback E d migration) in
  let name := Name migration in
  let todo := downCandidates (DownSQL migration) in
  (err = None ->
     (fst (isMigrationApplied E d name) = false /\ evs = [EvIsApplied name])
     \/ (fst (isMigrationApplied E d name) = true
         /\ DownSQL migration <> []
         /\ evs = [EvIsApplied name; EvBegin]
                  ++ map EvExec todo ++ [EvRemove name; EvCommit]
         /\ allSucceed E d todo))
  /\ (isMigrationApplied E d name = (true, None) ->
      BeginTxx E d = None ->
      DownSQL migration = [] ->
      err = Some (Errorf E "failed to execute rollback: %w"
                         (Script E (NoRollbackScript E)))
      /\ evs = [EvIsApplied name; EvBegin; EvRollback])
  /\ (err <> None -> In EvCommit evs -> In EvRollback evs)
  /\ (In EvBegin evs -> BeginTxx E d = None ->
        In EvCommit evs \/ In EvRollback evs)
  /\ (~ In EvBegin evs -> executedOf evs = []).
Proof.
  intros err evs name todo. unfold err, evs, Rollback. fold name.
  destruct (isMigrationApplied E d name) as [[|] [e|]] eqn:Happ.
  1,3: cbn [fst snd]; split; [discriminate|];
       split; [intros Hd; discriminate|];
       split; [intros _; no_such_event|];
       split; [no_such_event | reflexivity].
  2: { cbn [fst snd]. split; [intros _; left; split; reflexivity|].
       split; [intros Hd; discriminate|].
       split; [intros H; now contradiction H|].
       split; [no_such_event | reflexivity]. }
  destruct (BeginTxx E d) as [e|] eqn:Hbegin.
  { cbn [fst snd]. split; [discriminate|].
    split; [intros _ Hd; discriminate|].
    split; [intros _; no_such_event|].
    split; [intros _ Hd; discriminate | reflexivity]. }
  destruct (DownSQL migration) as [|c r] eqn:Hdown.
  { cbn [fst snd executeRollback isEmpty deferred app map].
    split; [discriminate|].
    split; [intros _ _ _; split; reflexivity|].
    split; [intros _; no_such_event|].
    split; [intros _ _; right; right; right; now left|].
    intros Hno. exfalso. apply Hno. right. now left. }
  pose proof (executeRollback_ranInOrder (ExecContext E d) c r) as Hrun.
  destruct (executeRollback E (ExecContext E d) (c :: r)) as [xerr executed].
  cbn [fst snd] in Hrun.
  assert (Hnc : ~ In EvCommit ([EvIsApplied name] ++ [EvBegin]
                               ++ map EvExec executed)).
  { intros [H|[H|H]]; try discriminate. now apply exec_is_no_commit in H. }
  assert (Hb : forall tail,
             In EvBegin (([EvIsApplied name] ++ [EvBegin]
                          ++ map EvExec executed) ++ tail))
    by (intros tail; apply in_or_app; left; right; now left).
  destruct xerr as [x|].
  { cbn [fst snd deferred]. split; [discriminate|].
    split; [intros _ _ Hd; discriminate|].
    split.
    { intros _ H. apply in_app_or in H as [H|[H|[]]];
        [now apply Hnc in H | discriminate]. }
    split; [intros _ _; right; apply in_or_app; right; now left|].
    intros Hno. exfalso. apply Hno, Hb. }
  destruct (ranInOrder_all _ _ _ _ Hrun) as [-> Hok].
  destruct (deleteRecord E d (downCandidates (c :: r)) name) as [e|].
  { cbn [fst snd deferred]. split; [discriminate|].
    split; [intros _ _ Hd; discriminate|].
    split.
    { intros _ H. apply in_app_or in H as [H|[H|[H|[]]]];
        [now apply Hnc in H | discriminate | discriminate]. }
    split; [intros _ _; right; apply in_or_app; right; right; now left|].
    intros Hno. exfalso. apply Hno, Hb. }
  destruct (Commit E d (downCandidates (c :: r))) as [e|].
  { cbn [fst snd deferred]. split; [discriminate|].
    split; [intros _ _ Hd; discriminate|].
    split; [intros _ _; apply in_or_app; right; right; right; now left|].
    split; [intros _ _; right; apply in_or_app; right; right; right; now left|].
    intros Hno. exfalso. apply Hno, Hb. }
  cbn [fst snd deferred]. split.
  { intros _. right. split; [reflexivity|]. split; [discriminate|].
    split; [|exact Hok].
    fold todo. cbn [app]. reflexivity. }
  split; [intros _ _ Hd; discriminate|].
  split; [intros H; now contradiction H|].
  split; [intros _ _; left; apply in_or_app; right; right; now left|].
  intros Hno. exfalso. apply Hno, Hb.
Qed.

(** A run in which every statement that was to run succeeds ends without
    error. *)
Lemma ranInOrder_succeeds (x : list runes -> runes -> option E)
  (failed : runes -> E -> execError E) (todo executed : list runes)
  (err : option (execError E)) :
  ranInOrder E x failed todo [] err executed ->
  (forall before stmt after,
     todo = before ++ stmt :: after -> x before stmt = None) ->
  err = None /\ executed = todo.
Proof.
  intros Hrun Hall.
  destruct err as [e|].
  - exfalso. destruct Hrun as (ran & rest & _ & Ht & _ & Hend).
    destruct Hend as (before & stmt & e0 & Hran & Hfail & _).
    cbn [app] in Hfail.
    rewrite (Hall before stmt rest) in Hfail; [discriminate|].
    rewrite Ht, Hran, <- app_assoc. reflexivity.
  - split; [reflexivity|]. now destruct (ranInOrder_all _ _ _ _ Hrun).
Qed.

(** [Apply] for a migration that is recorded. *)
Lemma Apply_recorded (d : driver E) (migration : Migration) (count : Z) :
  createMigrationsTable E d = None ->
  countApplied E d (Name migration) = inl count ->
  (0 < count)%Z ->
  Apply ToUpper E d migration
  = (None, [EvCreateTable; EvIsApplied (Name migration)]).
Proof.
  intros Hc Hn Hpos. unfold Apply, isMigrationApplied. rewrite Hc, Hn.
  replace (0 <? count)%Z with true by (symmetry; now apply Z.ltb_lt).
  reflexivity.
Qed.

(** [Apply] when every call succeeds. *)
Lemma Apply_succeeds (d : driver E) (migration : Migration) (count : Z) :
  createMigrationsTable E d = None ->
  countApplied E d (Name migration) = inl count ->
  (count <= 0)%Z ->
  BeginTxx E d = None ->
  allSucceed E d (upCandidates ToUpper (UpSQL migration)) ->
  insertRecord E d (upCandidates ToUpper (UpSQL migration)) (Name migration)
  = None ->
  Commit E d (upCandidates ToUpper (UpSQL migration)) = None ->
  Apply ToUpper E d migration
  = (None,
     [EvCreateTable; EvIsApplied (Name migration); EvBegin]
     ++ map EvExec (upCandidates ToUpper (UpSQL migration))
     ++ [EvRecord (Name migration); EvCommit]).
Proof.
  intros Hc Hn Hle Hb Hall Hi Hcm. unfold Apply, isMigrationApplied.
  rewrite Hc, Hn.
  replace (0 <? count)%Z with false by (symmetry; now apply Z.ltb_ge).
  rewrite Hb.
  pose proof (executeMigration_ranInOrder (ExecContext E d) (UpSQL migration))
    as Hrun.
  destruct (executeMigration ToUpper E (ExecContext E d) (UpSQL migration))
    as [xerr executed].
  cbn [fst snd] in Hrun.
  destruct (ranInOrder_succeeds _ _ _ _ _ Hrun Hall) as [-> ->].
  rewrite Hi, Hcm. cbn [deferred app]. reflexivity.
Qed.

(** What a nil result of [Apply] means. *)
Lemma Apply_nil (d : driver E) (migration : Migration) :
  fst (Apply ToUpper E d migration) = None ->
  createMigrationsTable E d = None
  /\ exists count,
       countApplied E d (Name migration) = inl count
       /\ ((0 < count)%Z
           \/ ((count <= 0)%Z
               /\ BeginTxx E d = None
               /\ allSucceed E d (upCandidates ToUpper (UpSQL migration))
               /\ insertRecord E d (upCandidates ToUpper (UpSQL migration))
                    (Name migration) = None
               /\ Commit E d (upCandidates ToUpper (UpSQL migration)) = None)).
Proof.
  unfold Apply, isMigrationApplied.
  destruct (createMigrationsTable E d) as [e|]; [discriminate|].
  destruct (countApplied E d (Name migration)) as [count|e]; [|discriminate].
  intros H. split; [reflexivity|]. exists count. split; [reflexivity|].
  destruct (0 <? count)%Z eqn:Hpos; [left; now apply Z.ltb_lt|].
  right. split; [now apply Z.ltb_ge|].
  destruct (BeginTxx E d) as [e|]; [discriminate|].
  pose proof (executeMigration_ranInOrder (ExecContext E d) (UpSQL migration))
    as Hrun.
  destruct (executeMigration ToUpper E (ExecContext E d) (UpSQL migration))
    as [[x|] executed]; [discriminate|].
  cbn [fst snd] in Hrun.
  destruct (ranInOrder_all _ _ _ _ Hrun) as [-> Hok].
  destruct (insertRecord E d (upCandidates ToUpper (UpSQL migration))
              (Name migration)) as [e|]; [discriminate|].
  destruct (Commit E d (upCandidates ToUpper (UpSQL migration))) as [e|];
    [discriminate|].
  repeat split. exact Hok.
Qed.

(** X24: [Apply] makes the two checks and nothing else for a migration
    that is already recorded, and returns nil.  For a migration that is
    not recorded it returns nil exactly when it began a transaction, ran
    in it every statement of the script that is not empty and holds no
    [CREATE DATABASE], in order and each with success, recorded the
    migration with success and committed with success; the calls are then
    these, in this order.  With any error no commit stands; a
    transaction that was begun ends with a commit or a rollback; no
    statement runs outside a transaction, and no statement that runs is
    empty or holds [CREATE DATABASE]. *)
Theorem X24_apply_commits_the_whole_script_or_rolls_back
  (d : driver E) (migration : Migration) :
  let err := fst (Apply ToUpper E d migration) in
  let evs := snd (Apply ToUpper E d migration) in
  let name := Name migration in
  let todo := upCandidates ToUpper (UpSQL migration) in
  let checks := [EvCreateTable; EvIsApplied name] in
  let whole := checks ++ [EvBegin] ++ map EvExec todo
               ++ [EvRecord name; EvCommit] in
  (forall count,
     createMigrationsTable E d = None ->
     countApplied E d name = inl count ->
     ((0 < count)%Z -> Apply ToUpper E d migration = (None, checks))
     /\ ((count <= 0)%Z ->
         BeginTxx E d = None -> allSucceed E d todo ->
         insertRecord E d todo name = None -> Commit E d todo = None ->
         Apply ToUpper E d migration = (None, whole)))
  /\ (err = None ->
      createMigrationsTable E d = None
      /\ exists count,
           countApplied E d name = inl count
           /\ (((0 < count)%Z /\ evs = checks)
               \/ ((count <= 0)%Z
                   /\ BeginTxx E d = None /\ allSucceed E d todo
                   /\ insertRecord E d todo name = None
                   /\ Commit E d todo = None
                   /\ evs = whole)))
  /\ (err <> None -> In EvCommit evs -> In EvRollback evs)
  /\ (In EvBegin evs -> BeginTxx E d = None ->
        In EvCommit evs \/ In EvRollback evs)
  /\ (~ In EvBegin evs -> executedOf evs = [])
  /\ Forall (fun stmt => stmt <> [] /\ isCreateDatabase ToUpper stmt = false)
            (executedOf evs).
Proof.
  intros err evs name todo checks whole.
  split.
  { intros count Hc Hn. split.
    - intros Hpos. apply (Apply_recorded d migration count Hc Hn Hpos).
    - intros Hle Hb Hall Hi Hcm.
      apply (Apply_succeeds d migration count Hc Hn Hle Hb Hall Hi Hcm). }
  split.
  { intros Hnil.
    destruct (Apply_nil d migration Hnil)
      as (Hc & count & Hn & [Hpos|(Hle & Hb & Hall & Hi & Hcm)]).
    - split; [exact Hc|]. exists count. split; [exact Hn|]. left.
      split; [exact Hpos|]. unfold evs.
      now rewrite (Apply_recorded d migration count Hc Hn Hpos).
    - split; [exact Hc|]. exists count. split; [exact Hn|]. right.
      repeat (split; [assumption|]). unfold evs.
      now rewrite (Apply_succeeds d migration count Hc Hn Hle Hb Hall Hi Hcm). }
  exact (proj2 (Apply_trace d migration)).
Qed.

(** [Rollback] for a migration that is not recorded. *)
Lemma Rollback_unrecorded (d : driver E) (migration : Migration) (count : Z) :
  countApplied E d (Name migration) = inl count ->
  (count <= 0)%Z ->
  Rollback E d migration = (None, [EvIsApplied (Name migration)]).
Proof.
  intros Hn Hle. unfold Rollback, isMigrationApplied. rewrite Hn.
  replace (0 <? count)%Z with false by (symmetry; now apply Z.ltb_ge).
  reflexivity.
Qed.

(** [Rollback] when every call succeeds. *)
Lemma Rollback_succeeds (d : driver E) (migration : Migration) (count : Z) :
  countApplied E d (Name migration) = inl count ->
  (0 < count)%Z ->
  BeginTxx E d = None ->
  DownSQL migration <> [] ->
  allSucceed E d (downCandidates (DownSQL migration)) ->
  deleteRecord E d (downCandidates (DownSQL migration)) (Name migration)
  = None ->
  Commit E d (downCandidates (DownSQL migration)) = None ->
  Rollback E d migration
  = (None,
     [EvIsApplied (Name migration); EvBegin]
     ++ map EvExec (downCandidates (DownSQL migration))
     ++ [EvRemove (Name migration); EvCommit]).
Proof.
  intros Hn Hpos Hb Hdown Hall Hi Hcm. unfold Rollback, isMigrationApplied.
  rewrite Hn.
  replace (0 <? count)%Z with true by (symmetry; now apply Z.ltb_lt).
  rewrite Hb.
  destruct (DownSQL migration) as [|c r] eqn:Hd; [now contradiction Hdown|].
  pose proof (executeRollback_ranInOrder (ExecContext E d) c r) as Hrun.
  destruct (executeRollback E (ExecContext E d) (c :: r)) as [xerr executed].
  cbn [fst snd] in Hrun.
  destruct (ranInOrder_succeeds _ _ _ _ _ Hrun Hall) as [-> ->].
  rewrite Hi, Hcm. cbn [deferred app]. reflexivity.
Qed.

(** [Rollback] for a recorded migration without a rollback script. *)
Lemma Rollback_without_script (d : driver E) (migration : Migration)
  (count : Z) :
  countApplied E d (Name migration) = inl count ->
  (0 < count)%Z ->
  BeginTxx E d = None ->
  DownSQL migration = [] ->
  Rollback E d migration
  = (Some (Errorf E "failed to execute rollback: %w"
                  (Script E (NoRollbackScript E))),
     [EvIsApplied (Name migration); EvBegin; EvRollback]).
Proof.
  intros Hn Hpos Hb Hd. unfold Rollback, isMigrationApplied.
  rewrite Hn.
  replace (0 <? count)%Z with true by (symmetry; now apply Z.ltb_lt).
  rewrite Hb, Hd. reflexivity.
Qed.

(** What a nil result of [Rollback] means. *)
Lemma Rollback_nil (d : driver E) (migration : Migration) :
  fst (Rollback E d migration) = None ->
  exists count,
    countApplied E d (Name migration) = inl count
    /\ ((count <= 0)%Z
        \/ ((0 < count)%Z
            /\ BeginTxx E d = None
            /\ DownSQL migration <> []
            /\ allSucceed E d (downCandidates (DownSQL migration))
            /\ deleteRecord E d (downCandidates (DownSQL migration))
                 (Name migration) = None
            /\ Commit E d (downCandidates (DownSQL migration)) = None)).
Proof.
  unfold Rollback, isMigrationApplied.
  destruct (countApplied E d (Name migration)) as [count|e]; [|discriminate].
  intros H. exists count. split; [reflexivity|].
  destruct (0 <? count)%Z eqn:Hpos; [|left; now apply Z.ltb_ge].
  right. split; [now apply Z.ltb_lt|].
  destruct (BeginTxx E d) as [e|]; [discriminate|].
  destruct (DownSQL migration) as [|c r] eqn:Hd; [discriminate|].
  pose proof (executeRollback_ranInOrder (ExecContext E d) c r) as Hrun.
  destruct (executeRollback E (ExecContext E d) (c :: r))
    as [[x|] executed]; [discriminate|].
  cbn [fst snd] in Hrun.
  destruct (ranInOrder_all _ _ _ _ Hrun) as [-> Hok].
  destruct (deleteRecord E d (downCandidates (c :: r)) (Name migration))
    as [e|]; [discriminate|].
  destruct (Commit E d (downCandidates (c :: r))) as [e|]; [discriminate|].
  split; [reflexivity|]. split; [discriminate|].
  repeat split. exact Hok.
Qed.

(** X25: [Rollback] makes the check and nothing else for a migration that
    is not recorded, and returns nil.  For a recorded migration without a
    rollback script it begins a transaction, fails with
    [failed to execute rollback] and rolls back.  For a recorded
    migration with a script it returns nil exactly when it began a
    transaction, ran in it every piece of the script between semicolons
    that is not empty, in order and each with success, removed the record
    with success and committed with success; the calls are then these, in
    this order.  With any error no commit stands, and a transaction that
    was begun ends with a commit or a rollback. *)
Theorem X25_rollback_runs_the_whole_script_or_rolls_back
  (d : driver E) (migration : Migration) :
  let err := fst (Rollback E d migration) in
  let evs := snd (Rollback E d migration) in
  let name := Name migration in
  let todo := downCandidates (DownSQL migration) in
  let whole := [EvIsApplied name; EvBegin] ++ map EvExec todo
               ++ [EvRemove name; EvCommit] in
  (forall count,
     countApplied E d name = inl count ->
     ((count <= 0)%Z -> Rollback E d migration = (None, [EvIsApplied name]))
     /\ ((0 < count)%Z -> BeginTxx E d = None ->
         (DownSQL migration = [] ->
          Rollback E d migration
          = (Some (Errorf E "failed to execute rollback: %w"
                          (Script E (NoRollbackScript E))),
             [EvIsApplied name; EvBegin; EvRollback]))
         /\ (DownSQL migration <> [] -> allSucceed E d todo ->
             deleteRecord E d todo name = None -> Commit E d todo = None ->
             Rollback E d migration = (None, whole))))
  /\ (err = None ->
      exists count,
        countApplied E d name = inl count
        /\ (((count <= 0)%Z /\ evs = [EvIsApplied name])
            \/ ((0 < count)%Z
                /\ BeginTxx E d = None /\ DownSQL migration <> []
                /\ allSucceed E d todo
                /\ deleteRecord E d todo name = None
                /\ Commit E d todo = None
                /\ evs = whole)))
  /\ (err <> None -> In EvCommit evs -> In EvRollback evs)
  /\ (In EvBegin evs -> BeginTxx E d = None ->
        In EvCommit evs \/ In EvRollback evs)
  /\ (~ In EvBegin evs -> executedOf evs = []).
Proof.
  intros err evs name todo whole.
  split.
  { intros count Hn. split.
    - intros Hle. apply (Rollback_unrecorded d migration count Hn Hle).
    - intros Hpos Hb. split.
      + intros Hd.
        apply (Rollback_without_script d migration count Hn Hpos Hb Hd).
      + intros Hd Hall Hi Hcm.
        apply (Rollback_succeeds d migration count Hn Hpos Hb Hd Hall Hi Hcm). }
  split.
  { intros Hnil.
    destruct (Rollback_nil d migration Hnil)
      as (count & Hn & [Hle|(Hpos & Hb & Hd & Hall & Hi & Hcm)]).
    - exists count. split; [exact Hn|]. left. split; [exact Hle|].
      unfold evs. now rewrite (Rollback_unrecorded d migration count Hn Hle).
    - exists count. split; [exact Hn|]. right.
      repeat (split; [assumption|]). unfold evs.
      now rewrite (Rollback_succeeds d migration count Hn Hpos Hb Hd Hall
                     Hi Hcm). }
  exact (proj2 (proj2 (Rollback_trace d migration))).
Qed.

End Apply.

Lemma X24_witness :
  snd (Apply (fun s => s) nat emptyDatabase twoTables)
  = [EvCreateTable; EvIsApplied "001_init"; EvBegin;
     EvExec (lit "CREATE TABLE a (id int);");
     EvExec (lit "CREATE TABLE b (id int);");
     EvRecord "001_init"; EvCommit].
Proof.
  assert (Hnil : fst (Apply (fun s => s) nat emptyDatabase twoTables) = None)
    by (vm_compute; reflexivity).
  destruct (proj1 (proj2 (X24_apply_commits_the_whole_script_or_rolls_back
                            (fun s => s) nat emptyDatabase twoTables)) Hnil)
    as (_ & count & Hn & [[Hpos _]|(_ & _ & _ & _ & _ & H)]).
  - injection Hn as <-. discriminate Hpos.
  - rewrite H. vm_compute. reflexivity.
Defined.

Lemma X25_witness :
  snd (Rollback nat recordedDatabase twoTables)
  = [EvIsApplied "001_init"; EvBegin;
     EvExec (lit "DROP TABLE b"); EvExec (lit "DROP TABLE a");
     EvRemove "001_init"; EvCommit].
Proof.
  assert (Hnil : fst (Rollback nat recordedDatabase twoTables) = None)
    by (vm_compute; reflexivity).
  destruct (proj1 (proj2 (X25_rollback_runs_the_whole_script_or_rolls_back
                            nat recordedDatabase twoTables)) Hnil)
    as (count & Hn & [[Hle _]|(_ & _ & _ & _ & _ & _ & H)]).
  - injection Hn as <-. now contradiction Hle.
  - rewrite H. vm_compute. reflexivity.
Defined.

End MigratorApplyFacts.

(** ** The URLs of the temporary database *)

Module TempDBFacts.
Import GoStrings TempDB.

Lemma HasPrefix_byte (s : string) (c : ascii) :
  HasPrefix s (String c EmptyString)
  = match s with
    | EmptyString => false
    | String a _ => Ascii.eqb a c
    end.
Proof. destruct s as [|a s]; [reflexivity|]. cbn. apply andb_true_r. Qed.

Lemma LastIndex_none (s : string) (c : ascii) :
  count c s = 0 -> LastIndex s (String c EmptyString) = None.
Proof.
  induction s as [|a s IH]; intros H; [reflexivity|].
  cbn [count] in H. cbn [LastIndex].
  destruct (Ascii.eqb a c) eqn:Hac; [discriminate|].
  rewrite IH by exact H. rewrite HasPrefix_byte, Hac. reflexivity.
Qed.

Lemma LastIndex_last (prefix tail : string) (c : ascii) :
  count c tail = 0 ->
  LastIndex (prefix ++ String c tail) (String c EmptyString)
  = Some (String.length prefix).
Proof.
  intros H. induction prefix as [|a prefix IH].
  - cbn [append LastIndex]. rewrite (LastIndex_none tail c H).
    rewrite HasPrefix_byte, Ascii.eqb_refl. reflexivity.
  - cbn [append LastIndex String.length]. now rewrite IH.
Qed.

(** A string without [c], or the part before the last [c] and the part
    after it. *)
Lemma last_byte_cases (s : string) (c : ascii) :
  count c s = 0
  \/ exists prefix tail, s = (prefix ++ String c tail)%string
                         /\ count c tail = 0.
Proof.
  induction s as [|a s IH]; [now left|].
  destruct IH as [H|(prefix & tail & -> & Ht)].
  - cbn [count]. destruct (Ascii.eqb a c) eqn:Hac.
    + right. exists EmptyString, s. apply Ascii.eqb_eq in Hac. subst a.
      split; [reflexivity | exact H].
    + now left.
  - right. exists (String a prefix), tail. split; [reflexivity | exact Ht].
Qed.

Lemma Index_none (s : string) (c : ascii) :
  count c s = 0 -> Index s (String c EmptyString) = None.
Proof.
  induction s as [|a s IH]; intros H; [reflexivity|].
  cbn [count] in H. cbn [Index]. rewrite HasPrefix_byte.
  destruct (Ascii.eqb a c); [discriminate|].
  now rewrite IH.
Qed.

Lemma Index_first (db rest : string) (c : ascii) :
  count c db = 0 ->
  Index (db ++ String c rest) (String c EmptyString)
  = Some (String.length db).
Proof.
  induction db as [|a db IH]; intros H.
  - cbn [append Index]. now rewrite HasPrefix_byte, Ascii.eqb_refl.
  - cbn [count] in H. cbn [append Index String.length].
    rewrite HasPrefix_byte.
    destruct (Ascii.eqb a c); [discriminate|].
    now rewrite IH.
Qed.

Lemma from_add (i j : nat) (s : string) : from (i + j) s = from j (from i s).
Proof.
  revert s. induction i as [|i IH]; intros s; [reflexivity|].
  destruct s as [|a s]; cbn [Nat.add from]; [now destruct j | apply IH].
Qed.

Lemma upto_slash (prefix tail : string) :
  upto (String.length prefix + 1) (prefix ++ String slash tail)
  = (prefix ++ String slash EmptyString)%string.
Proof.
  unfold upto.
  replace (String.length prefix + 1)
    with (String.length (prefix ++ String slash EmptyString)%string)
    by (rewrite PqArraysFacts.slength_app; reflexivity).
  replace (prefix ++ String slash tail)%string
    with ((prefix ++ String slash EmptyString) ++ tail)%string
    by (rewrite PqArraysFacts.sapp_assoc; reflexivity).
  apply PqArraysFacts.substring_prefix.
Qed.

(** The result for a URL whose last slash is followed by [db ++ rest],
    where [rest] is empty or begins the query. *)
Lemma build_at_last_slash (prefix db rest name : string) :
  count slash db = 0 -> count qmark db = 0 -> count slash rest = 0 ->
  rest = EmptyString \/ (exists q, rest = String qmark q) ->
  buildTempDBURL (prefix ++ String slash (db ++ rest)) name
  = (prefix ++ String slash (name ++ rest))%string.
Proof.
  intros Hs Hq Hr Hrest. unfold buildTempDBURL.
  change "/"%string with (String slash EmptyString).
  change "?"%string with (String qmark EmptyString).
  rewrite LastIndex_last
    by (rewrite QueryUpdateFacts.count_app; lia).
  rewrite PqArraysFacts.from_app.
  cbn [Index]. rewrite HasPrefix_byte.
  change (Ascii.eqb slash qmark) with false. cbn iota.
  rewrite upto_slash.
  destruct Hrest as [-> | (q & ->)].
  - rewrite PqArraysFacts.sapp_nil_r, (Index_none db qmark Hq).
    cbn [option_map]. rewrite PqArraysFacts.sapp_assoc.
    now rewrite PqArraysFacts.sapp_nil_r.
  - rewrite (Index_first db q qmark Hq). cbn [option_map].
    rewrite from_add, PqArraysFacts.from_app. cbn [from].
    rewrite PqArraysFacts.from_app, PqArraysFacts.sapp_assoc. reflexivity.
Qed.

Lemma admin_is_temp_postgres (baseURL : string) :
  buildAdminDBURL baseURL = buildTempDBURL baseURL "postgres".
Proof. reflexivity. Qed.

(** X26: for a URL that ends in [/db] or [/db?query], where neither the
    name [db] nor the query holds a slash, [buildTempDBURL] puts the name
    of the temporary database in the place of [db] and keeps what is
    before and after it; [buildAdminDBURL] puts [postgres] there. *)
Theorem X26_temp_url_replaces_the_database_name
  (prefix db rest name : string) :
  count slash db = 0 -> count qmark db = 0 -> count slash rest = 0 ->
  rest = EmptyString \/ (exists q, rest = String qmark q) ->
  buildTempDBURL (prefix ++ "/" ++ db ++ rest) name
  = (prefix ++ "/" ++ name ++ rest)%string
  /\ buildAdminDBURL (prefix ++ "/" ++ db ++ rest)
     = (prefix ++ "/" ++ "postgres" ++ rest)%string.
Proof.
  intros Hs Hq Hr Hrest. split.
  - apply (build_at_last_slash prefix db rest name Hs Hq Hr Hrest).
  - rewrite admin_is_temp_postgres.
    apply (build_at_last_slash prefix db rest "postgres" Hs Hq Hr Hrest).
Qed.

Lemma split_at_query (tail : string) :
  exists db rest, tail = (db ++ rest)%string
                  /\ count qmark db = 0
                  /\ (rest = EmptyString \/ exists q, rest = String qmark q).
Proof.
  induction tail as [|a tail (db & rest & -> & Hdb & Hrest)].
  - exists EmptyString, EmptyString. auto.
  - destruct (Ascii.eqb a qmark) eqn:Ha.
    + apply Ascii.eqb_eq in Ha. subst a.
      exists EmptyString, (String qmark (db ++ rest)).
      split; [reflexivity|]. split; [reflexivity|]. right. now eexists.
    + exists (String a db), rest. split; [reflexivity|].
      split; [cbn [count]; now rewrite Ha | exact Hrest].
Qed.

(** X27: [buildTempDBURL] on its own result: for a name [a] without
    slash or question mark, the URL built for [b] from the URL built for
    [a] is the URL built for [b] from the base, whatever the base is.  A
    base without a slash is returned as it is, and the name is dropped. *)
Theorem X27_temp_url_of_a_temp_url (baseURL a b : string) :
  count slash a = 0 -> count qmark a = 0 ->
  buildTempDBURL (buildTempDBURL baseURL a) b = buildTempDBURL baseURL b
  /\ (count slash baseURL = 0 -> buildTempDBURL baseURL b = baseURL).
Proof.
  intros Hs Hq.
  assert (Hnone : count slash baseURL = 0 ->
                  forall n, buildTempDBURL baseURL n = baseURL).
  { intros H n. unfold buildTempDBURL.
    change "/"%string with (String slash EmptyString).
    now rewrite (LastIndex_none baseURL slash H). }
  split; [|intros H; now apply Hnone].
  destruct (last_byte_cases baseURL slash) as [H|(prefix & tail & -> & Ht)].
  - now rewrite !(Hnone H).
  - destruct (split_at_query tail) as (db & rest & -> & Hdb & Hrest).
    rewrite QueryUpdateFacts.count_app in Ht.
    assert (Hds : count slash db = 0) by lia.
    assert (Hrs : count slash rest = 0) by lia.
    rewrite (build_at_last_slash prefix db rest a Hds Hdb Hrs Hrest).
    rewrite (build_at_last_slash prefix a rest b Hs Hq Hrs Hrest).
    now rewrite (build_at_last_slash prefix db rest b Hds Hdb Hrs Hrest).
Qed.

Lemma X26_witness :
  count slash "app" = 0 /\ count qmark "app" = 0
  /\ count slash "?sslmode=disable" = 0
  /\ buildTempDBURL "postgres://u:p@host:5432/app?sslmode=disable" "tmp_1"
     = "postgres://u:p@host:5432/tmp_1?sslmode=disable"%string.
Proof.
  split; [reflexivity|]. split; [reflexivity|]. split; [reflexivity|].
  exact (proj1 (X26_temp_url_replaces_the_database_name
                  "postgres://u:p@host:5432" "app" "?sslmode=disable" "tmp_1"
                  eq_refl eq_refl eq_refl
                  (or_intror (ex_intro _ "sslmode=disable"%string eq_refl)))).
Defined.

Lemma X27_witness :
  count slash "tmp_1" = 0 /\ count qmark "tmp_1" = 0
  /\ buildTempDBURL
       (buildTempDBURL "postgres://host/app?sslrootcert=/etc/ca.pem" "tmp_1")
       "tmp_2"
     = "postgres://host/app?sslrootcert=/etc/tmp_2"%string.
Proof.
  split; [reflexivity|]. split; [reflexivity|].
  exact (proj1 (X27_temp_url_of_a_temp_url
                  "postgres://host/app?sslrootcert=/etc/ca.pem" "tmp_1" "tmp_2"
                  eq_refl eq_refl)).
Defined.

End TempDBFacts.
